(** * e2slib: site energy analysis, scenarios and their comparison

    A shallow embedding of the analysis layer of e2slib (sites, scenarios,
    scenario comparison), of its calendar utilities, occupancy schedule,
    enumerations and dummy-data generators, together with the properties
    the library's specification states about them.

    Tables are the time-indexed, labelled tables of the numeric library the
    code is written against; cells are IEEE 754 binary64 numbers, modelled
    by the Standard Library's [spec_float] with the binary64 parameters. *)

From stdpp Require Import base option list gmap strings sorting.
From Stdlib Require Import ZArith Lia.
From Stdlib Require Import Floats.SpecFloat.

Open Scope Z_scope.

(** ** Binary64 cells *)

Module F64.

Definition prec : Z := 53.
Definition emax : Z := 1024.

Definition t : Type := spec_float.

Definition zero : t := S754_zero false.
Definition nan : t := S754_nan.

Definition add : t → t → t := SFadd prec emax.
Definition sub : t → t → t := SFsub prec emax.
Definition mul : t → t → t := SFmul prec emax.
Definition div : t → t → t := SFdiv prec emax.
Definition opp : t → t := SFopp.

Definition eqb : t → t → bool := SFeqb.
Definition ltb : t → t → bool := SFltb.
Definition leb : t → t → bool := SFleb.

(** A Python [int] used where a float is expected. *)
Definition of_Z (z : Z) : t := binary_normalize prec emax z 0 false.

(** The decimal literal [m / 10^k]: both operands are exact for the
    literals of this library, so the single rounding of the quotient is
    the rounding of the literal. *)
Definition dec (m k : Z) : t := div (of_Z m) (of_Z (10 ^ k)).

Definition is_nan (x : t) : bool :=
  match x with S754_nan => true | _ => false end.

Definition is_finite (x : t) : bool :=
  match x with S754_zero _ | S754_finite _ _ _ => true | _ => false end.

(** [x == 0]: either signed zero. *)
Definition is_zero (x : t) : bool := eqb x zero.

End F64.

#[global] Instance spec_float_eq_dec : EqDecision spec_float.
Proof. solve_decision. Defined.

(** ** Python values, exceptions and results *)

Inductive PyError :=
  | KeyError
  | ValueError
  | IndexError
  | TypeError
  | AttributeError
  | AssertionError.

Inductive Result (A : Type) :=
  | Ok (a : A)
  | Raise (e : PyError).
Arguments Ok {A} a.
Arguments Raise {A} e.

#[global] Instance Result_ret : MRet Result := λ A a, Ok a.
#[global] Instance Result_bind : MBind Result := λ A B f m,
  match m with
  | Ok a => f a
  | Raise e => Raise e
  end.

(** Run a fallible step over a list, left to right, stopping at the first
    exception. *)
Fixpoint mapR {A B} (f : A → Result B) (l : list A) : Result (list B) :=
  match l with
  | [] => Ok []
  | x :: l' => y ← f x; ys ← mapR f l'; Ok (y :: ys)
  end.

Fixpoint foldR {A S} (f : S → A → Result S) (l : list A) (s : S) : Result S :=
  match l with
  | [] => Ok s
  | x :: l' => s' ← f s x; foldR f l' s'
  end.

(** The values a caller may pass.  [PyObject] stands for any other
    hashable object, equal to itself only; [PyList] for a list, dict or
    set (not hashable, compared by content); [PyArray] for an array of
    several cells or a table column (not hashable, and [==] gives an array
    of flags, which has no truth value).  Objects whose own [__hash__] or
    [__eq__] raise are not among them. *)
Inductive PyValue :=
  | PyNone
  | PyBool (b : bool)
  | PyInt (z : Z)
  | PyFloat (f : F64.t)
  | PyStr (s : string)
  | PyObject (id : Z)
  | PyList (id : Z)
  | PyArray (id : Z).

(** [float == int], exact as in Python: the float [±m·2^e] against [z]. *)
Definition float_eq_int (f : F64.t) (z : Z) : bool :=
  match f with
  | S754_zero _ => z =? 0
  | S754_finite s m e =>
      let sm := if s then Z.neg m else Z.pos m in
      if 0 <=? e then z =? sm * 2 ^ e else z * 2 ^ (- e) =? sm
  | _ => false
  end.

Definition bool_int (b : bool) : Z := if b then 1 else 0.

(** Python's [==] where its result is a flag ([True == 1 == 1.0]). *)
Definition py_eq (a b : PyValue) : bool :=
  match a, b with
  | PyNone, PyNone => true
  | PyStr s, PyStr s' => String.eqb s s'
  | PyInt x, PyInt y => x =? y
  | PyInt x, PyBool y => x =? bool_int y
  | PyBool x, PyInt y => bool_int x =? y
  | PyBool x, PyBool y => bool_int x =? bool_int y
  | PyFloat x, PyFloat y => F64.eqb x y
  | PyFloat x, PyInt y => float_eq_int x y
  | PyInt x, PyFloat y => float_eq_int y x
  | PyFloat x, PyBool y => float_eq_int x (bool_int y)
  | PyBool x, PyFloat y => float_eq_int y (bool_int x)
  | PyObject x, PyObject y => x =? y
  | PyList x, PyList y => x =? y
  | _, _ => false
  end.

(** [hash(v)] succeeds. *)
Definition hashable (v : PyValue) : bool :=
  match v with
  | PyList _ | PyArray _ => false
  | _ => true
  end.

(** [if a == b]: the truth value of the comparison.  Against an array the
    comparison is an array, and taking its truth value raises
    [ValueError]. *)
Definition eq_truth (a b : PyValue) : Result bool :=
  match a, b with
  | PyArray _, _ | _, PyArray _ => Raise ValueError
  | _, _ => Ok (py_eq a b)
  end.

(** ** structures/enums.py *)

Module Enums.

(** [Enum.__call__]: a member is returned as it is.  A raw value is
    looked up in the class's dictionary of values when it can be hashed;
    when hashing fails the members are gone through in declaration order
    with [==], and an exception raised by a comparison leaves the call.
    A value that is not found goes to the class's [_missing_] hook.  The
    hook of the base class returns nothing, and the call raises
    [ValueError]. *)
Inductive EnumArg (M : Type) :=
  | Member (m : M)
  | Raw (v : PyValue).
Arguments Member {M} m.
Arguments Raw {M} v.

Definition Enum_missing {M} (v : PyValue) : option M := None.

(** [for member in members: if member._value_ == value: return member] *)
Fixpoint search {M} (members : list M) (value : M → PyValue) (v : PyValue)
    : Result (option M) :=
  match members with
  | [] => Ok None
  | m :: rest =>
      b ← eq_truth (value m) v;
      if b : bool then Ok (Some m) else search rest value v
  end.

Definition Enum_call {M} (members : list M) (value : M → PyValue)
    (_missing_ : PyValue → option M) (a : EnumArg M) : Result M :=
  match a with
  | Member m => Ok m
  | Raw v =>
      found ←
        (if hashable v
         then Ok (find (λ m, py_eq (value m) v) members)
         else search members value v);
      match found with
      | Some m => Ok m
      | None =>
          match _missing_ v with
          | Some m => Ok m
          | None => Raise ValueError
          end
      end
  end.

(** [auto()] numbers the members from 1 in declaration order. *)
Inductive PhysicalQuantity :=
  | PQ_TEMPERATURE | PQ_ENERGY | PQ_TIME | PQ_MASS | PQ_LENGTH | PQ_POWER
  | PQ_UNCATEGORIZED.

Definition PhysicalQuantity_members : list PhysicalQuantity :=
  [PQ_TEMPERATURE; PQ_ENERGY; PQ_TIME; PQ_MASS; PQ_LENGTH; PQ_POWER;
   PQ_UNCATEGORIZED].

Definition PhysicalQuantity_value (m : PhysicalQuantity) : PyValue :=
  PyInt match m with
        | PQ_TEMPERATURE => 1 | PQ_ENERGY => 2 | PQ_TIME => 3 | PQ_MASS => 4
        | PQ_LENGTH => 5 | PQ_POWER => 6 | PQ_UNCATEGORIZED => 7
        end.

Definition PhysicalQuantity_missing (v : PyValue) : option PhysicalQuantity :=
  Some PQ_UNCATEGORIZED.

Definition PhysicalQuantity_call : EnumArg PhysicalQuantity → Result PhysicalQuantity :=
  Enum_call PhysicalQuantity_members PhysicalQuantity_value PhysicalQuantity_missing.

Inductive EnergyCarrier :=
  | ELECTRICITY | NATURALGAS | HEATING | COOLING | UNCATEGORIZED | NONE.

Definition EnergyCarrier_members : list EnergyCarrier :=
  [ELECTRICITY; NATURALGAS; HEATING; COOLING; UNCATEGORIZED; NONE].

Definition EnergyCarrier_value (m : EnergyCarrier) : PyValue :=
  PyInt match m with
        | ELECTRICITY => 1 | NATURALGAS => 2 | HEATING => 3 | COOLING => 4
        | UNCATEGORIZED => 5 | NONE => 6
        end.

Definition EnergyCarrier_missing (v : PyValue) : option EnergyCarrier :=
  Some NONE.

Definition EnergyCarrier_call : EnumArg EnergyCarrier → Result EnergyCarrier :=
  Enum_call EnergyCarrier_members EnergyCarrier_value EnergyCarrier_missing.

(** [Destination] declares no [_missing_]: the base hook applies. *)
Inductive Destination :=
  | IMPORT | EXPORT | ONSITE | INPUT | OUTPUT | DEMAND.

Definition Destination_members : list Destination :=
  [IMPORT; EXPORT; ONSITE; INPUT; OUTPUT; DEMAND].

Definition Destination_value (m : Destination) : PyValue :=
  PyInt match m with
        | IMPORT => 1 | EXPORT => 2 | ONSITE => 3 | INPUT => 4
        | OUTPUT => 5 | DEMAND => 6
        end.

Definition Destination_call : EnumArg Destination → Result Destination :=
  Enum_call Destination_members Destination_value Enum_missing.

Inductive TechnologyType :=
  | PV | EV | WINDTURBINE | CHPPLANT | BOILERPLANT | TECH_UNCATEGORIZED
  | HEATPUMP | GRID | SITE.

(** The member's [name], as used in the per-technology row labels. *)
Definition TechnologyType_name (t : TechnologyType) : string :=
  match t with
  | PV => "PV" | EV => "EV" | WINDTURBINE => "WINDTURBINE"
  | CHPPLANT => "CHPPLANT" | BOILERPLANT => "BOILERPLANT"
  | TECH_UNCATEGORIZED => "UNCATEGORIZED" | HEATPUMP => "HEATPUMP"
  | GRID => "GRID" | SITE => "SITE"
  end.




Inductive Season := WINTER | SUMMER | SPRING | AUTUMN.

Definition Season_name (s : Season) : string :=
  match s with
  | WINTER => "WINTER" | SUMMER => "SUMMER" | SPRING => "SPRING"
  | AUTUMN => "AUTUMN"
  end.

#[global] Instance TechnologyType_eq_dec : EqDecision TechnologyType.
Proof. solve_decision. Defined.
#[global] Instance EnergyCarrier_eq_dec : EqDecision EnergyCarrier.
Proof. solve_decision. Defined.
#[global] Instance PhysicalQuantity_eq_dec : EqDecision PhysicalQuantity.
Proof. solve_decision. Defined.
#[global] Instance Season_eq_dec : EqDecision Season.
Proof. solve_decision. Defined.

End Enums.

(** ** structures/datetime_schema.py and the timestamps of a [DatetimeIndex] *)

Module DateTime.

Inductive DateTimeSchema :=
  | HOUR | MINUTES | SECONDS | MONTH | DAYOFWEEK | WEEKDAYFLAG | YEAR
  | HALFHOUR | DATE | WEEK | DAYOFYEAR | DATETIME | TIME | WEEKEND
  | SEASON | SEASON_NUM.

Definition DateTimeSchema_value (k : DateTimeSchema) : string :=
  match k with
  | HOUR => "Hour" | MINUTES => "Minutes" | SECONDS => "Seconds"
  | MONTH => "Month" | DAYOFWEEK => "Day of week"
  | WEEKDAYFLAG => "Weekday flag" | YEAR => "Year"
  | HALFHOUR => "Half-hour" | DATE => "Date" | WEEK => "Week"
  | DAYOFYEAR => "Day of year" | DATETIME => "Datetime" | TIME => "time"
  | WEEKEND => "weekend" | SEASON => "season"
  | SEASON_NUM => "season_number"
  end.

#[global] Instance DateTimeSchema_eq_dec : EqDecision DateTimeSchema.
Proof. solve_decision. Defined.

(** [datetime.time]: compared field by field, hour first. *)
Record time := mk_time {
  hour : Z;
  minute : Z;
  second : Z;
  microsecond : Z
}.

Definition time_hms (h m s : Z) : time := mk_time h m s 0.

Definition time_compare (a b : time) : comparison :=
  match hour a ?= hour b with
  | Eq =>
      match minute a ?= minute b with
      | Eq =>
          match second a ?= second b with
          | Eq => microsecond a ?= microsecond b
          | c => c
          end
      | c => c
      end
  | c => c
  end.

Definition time_le (a b : time) : bool :=
  match time_compare a b with Gt => false | _ => true end.

(** A timestamp of an index: wall-clock microseconds since
    1970-01-01T00:00:00 in the index's own time zone. *)
Definition Timestamp : Type := Z.

Definition us_per_second : Z := 1000000.
Definition us_per_minute : Z := 60 * us_per_second.
Definition us_per_hour : Z := 60 * us_per_minute.
Definition us_per_day : Z := 24 * us_per_hour.

Definition ts_days (t : Timestamp) : Z := t `div` us_per_day.
Definition ts_in_day (t : Timestamp) : Z := t `mod` us_per_day.

Definition ts_hour (t : Timestamp) : Z := ts_in_day t `div` us_per_hour.
Definition ts_minute (t : Timestamp) : Z :=
  (ts_in_day t `div` us_per_minute) `mod` 60.
Definition ts_second (t : Timestamp) : Z :=
  (ts_in_day t `div` us_per_second) `mod` 60.
Definition ts_microsecond (t : Timestamp) : Z := t `mod` us_per_second.

(** [Timestamp.time()] *)
Definition ts_time (t : Timestamp) : time :=
  mk_time (ts_hour t) (ts_minute t) (ts_second t) (ts_microsecond t).

(** Proleptic Gregorian calendar: day number of a civil date and back,
    day 0 being 1970-01-01. *)
Definition days_from_civil (y m d : Z) : Z :=
  let y' := if m <=? 2 then y - 1 else y in
  let era := y' `div` 400 in
  let yoe := y' - era * 400 in
  let doy := (153 * (if 2 <? m then m - 3 else m + 9) + 2) `div` 5 + d - 1 in
  let doe := yoe * 365 + yoe `div` 4 - yoe `div` 100 + doy in
  era * 146097 + doe - 719468.

Definition civil_from_days (z : Z) : Z * Z * Z :=
  let z := z + 719468 in
  let era := z `div` 146097 in
  let doe := z - era * 146097 in
  let yoe :=
    (doe - doe `div` 1460 + doe `div` 36524 - doe `div` 146096) `div` 365 in
  let doy := doe - (365 * yoe + yoe `div` 4 - yoe `div` 100) in
  let mp := (5 * doy + 2) `div` 153 in
  let d := doy - (153 * mp + 2) `div` 5 + 1 in
  let m := if mp <? 10 then mp + 3 else mp - 9 in
  let y := yoe + era * 400 in
  (if m <=? 2 then y + 1 else y, m, d).

(** [datetime(y, m, d, hh, mm, ss)] as a timestamp. *)
Definition datetime (y m d hh mm ss : Z) : Timestamp :=
  days_from_civil y m d * us_per_day
  + hh * us_per_hour + mm * us_per_minute + ss * us_per_second.

Definition ts_date (t : Timestamp) : Z * Z * Z := civil_from_days (ts_days t).
Definition ts_year (t : Timestamp) : Z := (ts_date t).1.1.
Definition ts_month (t : Timestamp) : Z := (ts_date t).1.2.

(** Monday is 0; 1970-01-01 was a Thursday. *)
Definition ts_dayofweek (t : Timestamp) : Z := (ts_days t + 3) `mod` 7.

Definition ts_dayofyear (t : Timestamp) : Z :=
  ts_days t - days_from_civil (ts_year t) 1 1 + 1.

Definition is_leap_year (y : Z) : bool :=
  (y `mod` 4 =? 0) && (negb (y `mod` 100 =? 0) || (y `mod` 400 =? 0)).

Definition iso_weeks_in_year (y : Z) : Z :=
  let jan1 := (days_from_civil y 1 1 + 3) `mod` 7 in
  if (jan1 =? 3) || (is_leap_year y && (jan1 =? 2)) then 53 else 52.

(** [isocalendar().week] *)
Definition ts_week (t : Timestamp) : Z :=
  let w := (ts_dayofyear t - (ts_dayofweek t + 1) + 10) `div` 7 in
  if w <? 1 then iso_weeks_in_year (ts_year t - 1)
  else if iso_weeks_in_year (ts_year t) <? w then 1
  else w.

End DateTime.

(** ** Tables of the numeric library

    A table has a row index and labelled columns of binary64 cells, stored
    column by column.  Only the operations the library calls are modelled,
    with the exceptions they raise on the shapes that can reach them. *)

Module Table.

Record Index (A : Type) := mk_Index {
  labels : list A;
  tzinfo : option string;
  iname : option string
}.
Arguments mk_Index {A} _ _ _.
Arguments labels {A} _.
Arguments tzinfo {A} _.
Arguments iname {A} _.

Record DataFrame (A C : Type) := mk_DataFrame {
  index : Index A;
  columns : list (C * list F64.t)
}.
Arguments mk_DataFrame {A C} _ _.
Arguments index {A C} _.
Arguments columns {A C} _.

(** The two-dimensional array behind [df.values]: its row count and its
    columns. *)
Record ndarray (T : Type) := mk_ndarray {
  nd_rows : nat;
  nd_cols : list (list T)
}.
Arguments mk_ndarray {T} _ _.
Arguments nd_rows {T} _.
Arguments nd_cols {T} _.

Definition plain_index {A} (l : list A) : Index A := mk_Index l None None.

(** What joining tables needs to know of their row labels:
    [union_rows], the library's union of two different non-empty
    indexes, and [to_utc], the stamps of a zone read as UTC stamps. *)
Class RowAxis (A : Type) := {
  union_rows : list A → list A → list A;
  to_utc : string → list A → list A
}.

Section Frames.
Context {A C : Type} `{EqDecision A, EqDecision C}.

(** [pd.DataFrame()] *)
Definition empty_frame : DataFrame A C := mk_DataFrame (plain_index []) [].

(** [len(df)]: the number of rows. *)
Definition len (df : DataFrame A C) : nat := length (labels (index df)).

(** [df.shape[1]] *)
Definition shape1 (df : DataFrame A C) : nat := length (columns df).

(** [df.copy()]: tables are values here; the sharing of buffers is
    treated in [Store]. *)
Definition copy (df : DataFrame A C) : DataFrame A C := df.

Definition column_labels (df : DataFrame A C) : list C := (columns df).*1.

Definition values (df : DataFrame A C) : ndarray F64.t :=
  mk_ndarray (len df) ((columns df).*2).

(** [df.columns = new]: the new labels must match the column count. *)
Definition set_columns {C'} (df : DataFrame A C) (new : list C')
    : Result (DataFrame A C') :=
  if decide (length new = shape1 df)
  then Ok (mk_DataFrame (index df) (zip new ((columns df).*2)))
  else Raise ValueError.

(** [df.iloc[:, 0] = v] *)
Definition iloc_set_column0 (df : DataFrame A C) (v : F64.t)
    : Result (DataFrame A C) :=
  match columns df with
  | [] => Raise IndexError
  | (c, vs) :: rest =>
      Ok (mk_DataFrame (index df) ((c, replicate (len df) v) :: rest))
  end.

(** [df[c]]: the column labelled [c]. *)
Definition getitem (df : DataFrame A C) (c : C) : Result (list F64.t) :=
  match filter (λ p, p.1 = c) (columns df) with
  | [] => Raise KeyError
  | [(_, vs)] => Ok vs
  | _ => Raise AttributeError
  end.

(** [df[c].to_frame()] keeps the index and the label. *)
Definition to_frame (ix : Index A) (c : C) (vs : list F64.t)
    : DataFrame A C :=
  mk_DataFrame ix [(c, vs)].

(** Element-wise arithmetic between a table and an array, with the
    array spread over the columns or over the rows when it has a
    single column or a single row. *)
Definition broadcast_op (op : F64.t → F64.t → F64.t)
    (df : DataFrame A C) (arr : ndarray F64.t) : Result (DataFrame A C) :=
  let n := len df in
  let k := shape1 df in
  if decide (nd_rows arr = n ∧ length (nd_cols arr) = k) then
    Ok (mk_DataFrame (index df)
          (zip_with (λ p ws, (p.1, zip_with op p.2 ws))
             (columns df) (nd_cols arr)))
  else if decide (nd_rows arr = n ∧ length (nd_cols arr) = 1%nat) then
    match nd_cols arr with
    | ws :: _ =>
        Ok (mk_DataFrame (index df)
              (map (λ p, (p.1, zip_with op p.2 ws)) (columns df)))
    | [] => Raise ValueError
    end
  else if decide (length (nd_cols arr) = k ∧ nd_rows arr = 1%nat) then
    Ok (mk_DataFrame (index df)
          (zip_with (λ p ws, (p.1, map (λ x, op x (default F64.nan (head ws))) p.2))
             (columns df) (nd_cols arr)))
  else Raise ValueError.

(** [df.mul(arr, axis=0)]: the flexible form of the arithmetic along
    the rows.  It differs from the operator where the array has a
    single row: that row is read as a series along the table's rows,
    which needs as many cells as the table has rows. *)
Definition flex_op_axis0 (op : F64.t → F64.t → F64.t)
    (df : DataFrame A C) (arr : ndarray F64.t) : Result (DataFrame A C) :=
  let n := len df in
  let k := shape1 df in
  if decide (nd_rows arr = n ∧ length (nd_cols arr) = k) then
    Ok (mk_DataFrame (index df)
          (zip_with (λ p ws, (p.1, zip_with op p.2 ws))
             (columns df) (nd_cols arr)))
  else if decide (nd_rows arr = n ∧ length (nd_cols arr) = 1%nat) then
    match nd_cols arr with
    | ws :: _ =>
        Ok (mk_DataFrame (index df)
              (map (λ p, (p.1, zip_with op p.2 ws)) (columns df)))
    | [] => Raise ValueError
    end
  else if decide (length (nd_cols arr) = k ∧ nd_rows arr = 1%nat) then
    if decide (length (nd_cols arr) = n) then
      let series := map (λ ws, default F64.nan (head ws)) (nd_cols arr) in
      Ok (mk_DataFrame (index df)
            (map (λ p, (p.1, zip_with op p.2 series)) (columns df)))
    else Raise ValueError
  else Raise ValueError.

Definition has_duplicates (l : list A) : bool :=
  bool_decide (¬ NoDup l).

(** The value stored under a row label, NaN when the label is absent. *)
Definition lookup_label (ls : list A) (vs : list F64.t) (a : A) : F64.t :=
  match find (λ p, bool_decide (p.1 = a)) (zip ls vs) with
  | Some p => p.2
  | None => F64.nan
  end.

(** [reindex]: the column re-read at the labels [target]. *)
Definition reindex_column (ls : list A) (vs : list F64.t) (target : list A)
    : list F64.t :=
  map (lookup_label ls vs) target.

(** [Index.equals]: the same labels in the same zone; the names of
    the indexes are not compared. *)
Definition same_index (i j : Index A) : bool :=
  bool_decide (labels i = labels j ∧ tzinfo i = tzinfo j).

Definition naive (i : Index A) : bool := bool_decide (tzinfo i = None).

(** [Index.union]: there is nothing to join when the other index is
    empty or the same. *)
Definition index_union `{RowAxis A} (a b : list A) : list A :=
  if decide (b = [] ∨ a = b) then a
  else if decide (a = []) then b
  else union_rows a b.

(** [pd.concat(frames, axis=1)]: the rows are the union of the
    indexes, taken index by index, and the columns of every table are
    put side by side, re-read at those rows unless the table already
    has them.  Zone-less stamps do not join stamps with a zone
    ([TypeError]); stamps of different zones are joined as UTC stamps;
    re-reading needs an index without repeated labels; the name of the
    rows is kept when the tables agree on it. *)
Definition concat_axis1 `{RowAxis A} (frames : list (DataFrame A C))
    : Result (DataFrame A C) :=
  match frames with
  | [] => Raise ValueError
  | f :: fs =>
      if existsb (λ g, naive (index g)) frames
         && existsb (λ g, negb (naive (index g))) frames
      then Raise TypeError
      else
        let one_zone :=
          forallb (λ g, bool_decide (tzinfo (index g) = tzinfo (index f)))
                  fs in
        let stamps g :=
          match tzinfo (index g) with
          | Some tz =>
              if one_zone then labels (index g)
              else to_utc tz (labels (index g))
          | None => labels (index g)
          end in
        let rows := foldl index_union (stamps f) (map stamps fs) in
        let ix :=
          mk_Index rows
            (if one_zone then tzinfo (index f) else Some "UTC")
            (if forallb (λ g, bool_decide (iname (index g) = iname (index f)))
                        fs
             then iname (index f) else None) in
        cols ← mapR (λ g,
                 if same_index (index g) ix then Ok (columns g)
                 else if has_duplicates (labels (index g))
                 then Raise ValueError
                 else Ok (map (λ p,
                            (p.1, reindex_column (stamps g) p.2 rows))
                            (columns g))) frames;
        Ok (mk_DataFrame ix (concat cols))
  end.

(** [df[cols]]: for every requested label, all the columns bearing it. *)
Definition select_columns (df : DataFrame A C) (cols : list C)
    : Result (DataFrame A C) :=
  picked ← mapR (λ c,
    match filter (λ p, p.1 = c) (columns df) with
    | [] => Raise KeyError
    | ps => Ok ps
    end) cols;
  Ok (mk_DataFrame (index df) (concat picked)).

(** [df.loc[r, c]] read as a scalar. *)
Definition loc_get_cell (df : DataFrame A C) (r : A) (c : C)
    : Result F64.t :=
  vs ← getitem df c;
  match filter (λ p, p.1 = r) (zip (labels (index df)) vs) with
  | [] => Raise KeyError
  | [(_, v)] => Ok v
  | _ => Raise ValueError
  end.

(** [df.loc[r, c] = v]: every row labelled [r] is written; a label that
    is not in the index is appended as a new row, NaN in the other
    columns. *)
Definition loc_set_cell (df : DataFrame A C) (r : A) (c : C) (v : F64.t)
    : DataFrame A C :=
  let ls := labels (index df) in
  let df1 :=
    if bool_decide (c ∈ column_labels df) then df
    else mk_DataFrame (index df)
           (columns df ++ [(c, replicate (length ls) F64.nan)]) in
  if bool_decide (r ∈ ls) then
    mk_DataFrame (index df1)
      (map (λ p, if decide (p.1 = c)
                 then (p.1, zip_with (λ a x, if decide (a = r) then v else x) ls p.2)
                 else p) (columns df1))
  else
    mk_DataFrame
      (mk_Index (ls ++ [r]) (tzinfo (index df)) (iname (index df)))
      (map (λ p, (p.1, p.2 ++ [if decide (p.1 = c) then v else F64.nan]))
           (columns df1)).

(** [df.values < x] and the like: the boolean array of a comparison. *)
Definition values_test (f : F64.t → bool) (df : DataFrame A C)
    : ndarray bool :=
  mk_ndarray (len df) (map (map f) ((columns df).*2)).

Definition same_shape {T} (df : DataFrame A C) (m : ndarray T) : bool :=
  bool_decide (nd_rows m = len df ∧ length (nd_cols m) = shape1 df).

(** [df.loc[mask] = v] with a scalar: the cells under a true flag are
    overwritten. *)
Definition loc_set_mask_scalar (df : DataFrame A C) (mask : ndarray bool)
    (v : F64.t) : Result (DataFrame A C) :=
  if same_shape df mask then
    Ok (mk_DataFrame (index df)
          (zip_with (λ p m, (p.1, zip_with (λ (b : bool) x, if b then v else x) m p.2))
             (columns df) (nd_cols mask)))
  else Raise IndexError.

(** The entries of [l] under a true flag. *)
Fixpoint mask_select {T} (mask : list bool) (l : list T) : list T :=
  match mask, l with
  | b :: mask', x :: l' =>
      if b then x :: mask_select mask' l' else mask_select mask' l'
  | _, _ => []
  end.

(** The boolean array of a one-column table used as a row indexer is a
    column of flags, one per row.  The library only indexes one-column
    tables this way; another shape is reported as [IndexError]. *)
Definition row_flags (df : DataFrame A C) (mask : ndarray bool)
    : Result (list bool) :=
  match nd_cols mask with
  | [m] => if decide (nd_rows mask = len df) then Ok m else Raise IndexError
  | _ => Raise IndexError
  end.

(** [df.loc[mask]]: the rows under a true flag. *)
Definition loc_get_mask (df : DataFrame A C) (mask : ndarray bool)
    : Result (DataFrame A C) :=
  m ← row_flags df mask;
  Ok (mk_DataFrame
        (mk_Index (mask_select m (labels (index df)))
                  (tzinfo (index df)) (iname (index df)))
        (map (λ p, (p.1, mask_select m p.2)) (columns df))).

(** A boolean indexer: flags along one dimension, or the array of a
    comparison on [df.values], which has two even for a table of one
    column. *)
Inductive BoolIndexer :=
  | Flags (m : list bool)
  | Flags2 (m : ndarray bool).

(** [index[key]]: the row labels under the true flags.  The labels
    are an array of one dimension: an indexer of two has too many
    indices for it, whatever its flags are. *)
Definition index_getitem (ix : Index A) (key : BoolIndexer)
    : Result (list A) :=
  match key with
  | Flags m =>
      if decide (length m = length (labels ix))
      then Ok (mask_select m (labels ix))
      else Raise IndexError
  | Flags2 _ => Raise IndexError
  end.

(** The entries of [old] under a true flag replaced, in order, by the
    entries of [new]. *)
Fixpoint mask_assign {T} (mask : list bool) (old new : list T) : list T :=
  match mask, old with
  | b :: mask', x :: old' =>
      if b then
        match new with
        | y :: new' => y :: mask_assign mask' old' new'
        | [] => x :: mask_assign mask' old' []
        end
      else x :: mask_assign mask' old' new
  | _, _ => old
  end.

(** [df.loc[mask] = rhs] with a table: the library first takes the
    labels of the selected rows, [df.index[mask]], to align [rhs] on
    them (read in place when its index is already those labels, re-read
    by label otherwise), and only then writes over the selected rows.
    The write of a scalar, above, does not look at the labels. *)
Definition loc_set_mask_frame (df : DataFrame A C) (mask : ndarray bool)
    (rhs : DataFrame A C) : Result (DataFrame A C) :=
  ax ← index_getitem (index df) (Flags2 mask);
  m ← row_flags df mask;
  match columns df, columns rhs with
  | [(c, old)], [(_, new)] =>
      if same_index (index rhs) (mk_Index ax (tzinfo (index df)) None)
      then Ok (mk_DataFrame (index df) [(c, mask_assign m old new)])
      else if has_duplicates (labels (index rhs)) then Raise ValueError
      else
        Ok (mk_DataFrame (index df)
              [(c, mask_assign m old
                     (reindex_column (labels (index rhs)) new ax))])
  | _, _ => Raise ValueError
  end.

(** Unary minus of a table. *)
Definition neg (df : DataFrame A C) : DataFrame A C :=
  mk_DataFrame (index df) (map (λ p, (p.1, map F64.opp p.2)) (columns df)).

End Frames.

(** The reductions and the time-zone arithmetic of the numeric library.
    [col_sum] and [col_max] skip NaN cells; the order in which [col_sum]
    adds is the library's own, so it stays a parameter, and what is known
    of the two is stated as [TableLaws] below. *)
Class TableLib := {
  col_sum : list F64.t → F64.t;
  col_max : list F64.t → F64.t;
  tz_localize : string → list DateTime.Timestamp → Result (list DateTime.Timestamp);
  tz_convert : string → string → list DateTime.Timestamp → list DateTime.Timestamp
}.

(** The cells a reduction looks at: the ones that are not NaN. *)
Definition present (l : list F64.t) : list F64.t :=
  filter (λ x, F64.is_nan x = false) l.

(** [m] is the maximum of a column: one of its present cells, and none
    of them is above it; NaN when no cell is present. *)
Definition is_max (l : list F64.t) (m : F64.t) : Prop :=
  match present l with
  | [] => m = F64.nan
  | _ => m ∈ present l ∧ ∀ x, x ∈ present l → F64.leb x m = true
  end.

(** A way of adding cells up: the order and the grouping of the
    additions. *)
Inductive additions :=
  | term (x : F64.t)
  | plus (a b : additions).

Fixpoint total (a : additions) : F64.t :=
  match a with
  | term x => x
  | plus a b => F64.add (total a) (total b)
  end.

Fixpoint terms (a : additions) : list F64.t :=
  match a with
  | term x => [x]
  | plus a b => terms a ++ terms b
  end.

(** [s] is a sum of a column: the present cells, each once, and any
    number of zeros (the start of the sum, the cells that are missing)
    added up in some order and grouping. *)
Definition is_sum (l : list F64.t) (s : F64.t) : Prop :=
  ∃ a zs, total a = s ∧ Forall (λ z, z = F64.zero) zs
          ∧ terms a ≡ₚ zs ++ present l.

(** What the reductions of the library are known to do. *)
Class TableLaws (L : TableLib) : Prop := {
  col_sum_spec : ∀ l, is_sum l (col_sum l);
  col_max_spec : ∀ l, is_max l (col_max l)
}.

(** Time stamps join into their sorted union: every stamp once, in
    ascending order.  Within one zone the order of the wall-clock stamps
    is the order of the instants, except in the hour that daylight saving
    time repeats, which wall-clock stamps do not tell apart. *)
#[export] Instance Timestamp_RowAxis `{TableLib}
    : RowAxis DateTime.Timestamp := {|
  union_rows a b := merge_sort Z.le (remove_dups (a ++ b));
  to_utc tz := tz_convert tz "UTC"
|}.

(** One instance, used to run the model: sums from left to right,
    maximum by comparison, time zones without offsets. *)
Definition nansum (l : list F64.t) : F64.t :=
  foldl F64.add F64.zero (filter (λ x, F64.is_nan x = false) l).

Definition nanmax (l : list F64.t) : F64.t :=
  match filter (λ x, F64.is_nan x = false) l with
  | [] => F64.nan
  | x :: l' => foldl (λ m y, if F64.ltb m y then y else m) x l'
  end.

Definition plain_lib : TableLib := {|
  col_sum := nansum;
  col_max := nanmax;
  tz_localize := λ _ l, Ok l;
  tz_convert := λ _ _ l, l
|}.

End Table.

(** ** common/common.py and the label schema

    [structures/site_schema.py] is not part of the sources at hand: its
    labels are a parameter of the development. *)

Module Schema.

(** A two-level column label: (parameter, unit). *)
Definition Label : Type := string * string.

(** Row labels that are not time stamps join in order of first
    appearance, and have no zone. *)
#[export] Instance Label_RowAxis : Table.RowAxis Label := {|
  Table.union_rows a b := a ++ list_difference b a;
  Table.to_utc _ l := l
|}.

Class SiteSchema := {
  SiteData_INDEX : string;
  INIT_SITE_ELECTRICITY_DEMAND : Label;
  IMPORT_ELECTRICITY_DEMAND : Label;
  EXPORT_ELECTRICITY_DEMAND : Label;
  ELECTRICITY_GENERATION : Label;
  ADDITIONAL_ELECTRICITY_DEMAND : Label;
  SELF_CONSUMED_ELECTRICITY : Label;
  Results_INDEX : string;
  IMPORT_ELECTRICITY_PRICES : Label;
  EXPORT_ELECTRICITY_REVENUES : Label;
  GHG_INTENSITY_IMPORT_ELECTRICITY : Label;
  IMPORT_ELECTRICITY_COSTS : Label;
  GHG_EMISSIONS_IMPORT_ELECTRICITY : Label;
  SITE_GHG_EMISSIONS_DISPLACED : Label;
  TOTAL_GHG_EMISSIONS_DISPLACED : Label;
  ELECTRICITY_SAVINGS : Label;
  OPEX : Label;
  CAPEX : Label;
  CAPACITY_INSTALLED : Label;
  PEAK_ELECTRICITY_IMPORT : Label;
  PEAK_ELECTRICITY_EXPORT : Label
}.

Definition get_multiindex_multiple_columns (list_columns : list Label)
    : list Label := list_columns.

Definition get_multiindex_single_column (schema_column : Label)
    : list Label := get_multiindex_multiple_columns [schema_column].

(** Modelled from the spec: site_schema.py is missing; these are the
    labels of the specification's section 4.2 with units chosen here.
    They only serve to run the model on concrete tables. *)
Definition spec_schema : SiteSchema := {|
  SiteData_INDEX := "Datetime";
  INIT_SITE_ELECTRICITY_DEMAND := ("INIT_SITE_ELECTRICITY_DEMAND", "kWh");
  IMPORT_ELECTRICITY_DEMAND := ("IMPORT_ELECTRICITY_DEMAND", "kWh");
  EXPORT_ELECTRICITY_DEMAND := ("EXPORT_ELECTRICITY_DEMAND", "kWh");
  ELECTRICITY_GENERATION := ("ELECTRICITY_GENERATION", "kWh");
  ADDITIONAL_ELECTRICITY_DEMAND := ("ADDITIONAL_ELECTRICITY_DEMAND", "kWh");
  SELF_CONSUMED_ELECTRICITY := ("SELF_CONSUMED_ELECTRICITY", "kWh");
  Results_INDEX := "Datetime";
  IMPORT_ELECTRICITY_PRICES := ("IMPORT_ELECTRICITY_PRICES", "GBP/kWh");
  EXPORT_ELECTRICITY_REVENUES := ("EXPORT_ELECTRICITY_REVENUES", "GBP");
  GHG_INTENSITY_IMPORT_ELECTRICITY :=
    ("GHG_INTENSITY_IMPORT_ELECTRICITY", "kgCO2e/kWh");
  IMPORT_ELECTRICITY_COSTS := ("IMPORT_ELECTRICITY_COSTS", "GBP");
  GHG_EMISSIONS_IMPORT_ELECTRICITY :=
    ("GHG_EMISSIONS_IMPORT_ELECTRICITY", "kgCO2e");
  SITE_GHG_EMISSIONS_DISPLACED := ("SITE_GHG_EMISSIONS_DISPLACED", "kgCO2e");
  TOTAL_GHG_EMISSIONS_DISPLACED := ("TOTAL_GHG_EMISSIONS_DISPLACED", "kgCO2e");
  ELECTRICITY_SAVINGS := ("ELECTRICITY_SAVINGS", "GBP");
  OPEX := ("OPEX", "GBP");
  CAPEX := ("CAPEX", "GBP");
  CAPACITY_INSTALLED := ("CAPACITY_INSTALLED", "kW");
  PEAK_ELECTRICITY_IMPORT := ("PEAK_ELECTRICITY_IMPORT", "kW");
  PEAK_ELECTRICITY_EXPORT := ("PEAK_ELECTRICITY_EXPORT", "kW")
|}.

End Schema.

(** ** utillib/functions.py *)

Module Functions.
Import DateTime Enums Table.

Definition get_season (month : Z) : string :=
  if (3 <=? month) && (month <=? 5) then Season_name SPRING
  else if (6 <=? month) && (month <=? 8) then Season_name SUMMER
  else if (9 <=? month) && (month <=? 11) then Season_name AUTUMN
  else Season_name WINTER.

(** [season_dict[x]]: a name outside the dictionary is a [KeyError]. *)
Definition season_dict (x : string) : Result Z :=
  if decide (x = Season_name WINTER) then Ok 1
  else if decide (x = Season_name SPRING) then Ok 2
  else if decide (x = Season_name SUMMER) then Ok 3
  else if decide (x = Season_name AUTUMN) then Ok 4
  else Raise KeyError.

(** The calendar columns [add_time_features] appends, row by row. *)
Record TimeFeatures := mk_TimeFeatures {
  f_HOUR : Z;
  f_DAYOFWEEK : Z;
  f_DAYOFYEAR : Z;
  f_MONTH : Z;
  f_YEAR : Z;
  f_WEEKDAYFLAG : string;
  f_HALFHOUR : Z;
  f_DATE : Z * Z * Z;
  f_WEEK : Z;
  f_SEASON : string;
  f_SEASON_NUM : Z
}.

Definition row_features (t : Timestamp) : Result TimeFeatures :=
  let season := get_season (ts_month t) in
  num ← season_dict season;
  Ok {| f_HOUR := ts_hour t;
        f_DAYOFWEEK := ts_dayofweek t;
        f_DAYOFYEAR := ts_dayofyear t;
        f_MONTH := ts_month t;
        f_YEAR := ts_year t;
        f_WEEKDAYFLAG :=
          if ts_dayofweek t <? 5 then "weekday" else "weekend";
        f_HALFHOUR := ts_hour t * 2 + ts_minute t `div` 30;
        f_DATE := ts_date t;
        f_WEEK := ts_week t;
        f_SEASON := season;
        f_SEASON_NUM := num |}.

(** A table together with its calendar columns. *)
Record FeatureFrame (C : Type) := mk_FeatureFrame {
  ff_data : DataFrame Timestamp C;
  ff_features : list TimeFeatures
}.
Arguments mk_FeatureFrame {C} _ _.
Arguments ff_data {C} _.
Arguments ff_features {C} _.

Definition add_time_features {C} (dataf : DataFrame Timestamp C)
    : Result (FeatureFrame C) :=
  let new_dataf := dataf in
  fs ← mapR row_features (labels (index new_dataf));
  Ok (mk_FeatureFrame new_dataf fs).

(** [dataf[key]] on the calendar columns, for a comparison with
    integers: the text and date columns do not compare, and the keys
    [add_time_features] does not produce are missing. *)
Definition calendar_column (key : DateTimeSchema) (rows : list TimeFeatures)
    : Result (list Z) :=
  match key with
  | HOUR => Ok (map f_HOUR rows)
  | DAYOFWEEK => Ok (map f_DAYOFWEEK rows)
  | DAYOFYEAR => Ok (map f_DAYOFYEAR rows)
  | MONTH => Ok (map f_MONTH rows)
  | YEAR => Ok (map f_YEAR rows)
  | HALFHOUR => Ok (map f_HALFHOUR rows)
  | WEEK => Ok (map f_WEEK rows)
  | SEASON_NUM => Ok (map f_SEASON_NUM rows)
  | WEEKDAYFLAG | DATE | SEASON => Raise TypeError
  | MINUTES | SECONDS | DATETIME | TIME | WEEKEND => Raise KeyError
  end.

(** [remove_zero_values]: the cells that compare equal to 0 are
    overwritten with NaN.  The source writes into its argument and
    returns it; here the written table is the result.  As with the
    other boolean-array writes, the properties below are for one-column
    tables. *)
Definition remove_zero_values {A C} `{EqDecision A, EqDecision C}
    (dataf : DataFrame A C) : Result (DataFrame A C) :=
  let filt := values_test (λ x, F64.eqb x (F64.of_Z 0)) dataf in
  loc_set_mask_scalar dataf filt F64.nan.

End Functions.

(** ** site/schedule.py *)

Module Schedule.
Import DateTime Functions.

Definition OccupancyDict : Type := list (Z * list (Z * Z)).

Record OccupancySchedule := mk_OccupancySchedule {
  occupancy_dict : option OccupancyDict;
  timestep : DateTimeSchema
}.

Definition default_occupancy : OccupancyDict :=
  [(0, [(16, 34)]); (1, [(16, 34)]); (2, [(16, 34)]); (3, [(16, 34)]);
   (4, [(16, 34)]); (5, []); (6, [])].

Definition post_init (self : OccupancySchedule) : OccupancySchedule :=
  match occupancy_dict self with
  | None => mk_OccupancySchedule (Some default_occupancy) (timestep self)
  | Some _ => self
  end.

(** [OccupancySchedule()]: no map given, half-hour timestep. *)
Definition default_schedule : OccupancySchedule :=
  post_init (mk_OccupancySchedule None HALFHOUR).

Definition or_operator (list_1 list_2 : list bool) : list bool :=
  map (λ p, p.1 || p.2) (zip list_1 list_2).

Definition and_operator (list_1 list_2 : list bool) : list bool :=
  map (λ p, p.1 && p.2) (zip list_1 list_2).

Definition get_filter (self : OccupancySchedule) (dataf : list TimeFeatures)
    : Result (list bool) :=
  let temp_filt := replicate (length dataf) false in
  let time_col := timestep self in
  match occupancy_dict self with
  | None => Raise AssertionError
  | Some d =>
      foldR (λ temp_filt '(temp_day, temp_hours),
        days ← calendar_column DAYOFWEEK dataf;
        let temp_day_filt := map (λ x, x =? temp_day) days in
        temp_final_time_filt ←
          foldR (λ acc '(start_time, end_time),
            col ← calendar_column time_col dataf;
            let start_time_filt := map (λ x, start_time <=? x) col in
            let end_time_filt := map (λ x, x <=? end_time) col in
            let temp_time_filt := and_operator start_time_filt end_time_filt in
            Ok (or_operator acc temp_time_filt))
            temp_hours (replicate (length dataf) false);
        let temp_day_filt := and_operator temp_day_filt temp_final_time_filt in
        Ok (or_operator temp_filt temp_day_filt))
        d temp_filt
  end.

Definition filter_df (self : OccupancySchedule) (dataf : list TimeFeatures)
    (occupied : bool) : Result (list TimeFeatures) :=
  filt ← get_filter self dataf;
  if occupied then Ok (Table.mask_select filt dataf)
  else Ok (Table.mask_select (map negb filt) dataf).

(** Read row by row: whether an interval list holds a time index, and
    whether a row is occupied under a map on the half-hour column. *)
Definition in_hours (hours : list (Z * Z)) (x : Z) : bool :=
  existsb (λ p, (p.1 <=? x) && (x <=? p.2)) hours.

Definition occupied (d : OccupancyDict) (r : TimeFeatures) : bool :=
  existsb (λ p, (f_DAYOFWEEK r =? p.1) && in_hours p.2 (f_HALFHOUR r)) d.

End Schedule.

(** ** utillib/dummy_data.py *)

Module DummyData.
Import DateTime Table Schema.

(** [pd.date_range(start, end, freq)]: the stamps [start + k·freq] up to
    [end]. *)
Definition date_range (start end_ freq : Z) : list Timestamp :=
  map (λ k, start + k * freq) (seqZ 0 ((end_ - start) `div` freq + 1)).

Definition half_hour : Z := 30 * us_per_minute.

(** [datetime(year, ...)] accepts the years 1 to 9999; the table library
    may refuse more of them, as its nanosecond stamps span 1678 to 2261
    only. *)
Definition generate_annual_timesteps (year : Z) : Result (Index Timestamp) :=
  if (1 <=? year) && (year <=? 9999) then
    Ok (mk_Index
          (date_range (datetime year 1 1 0 0 0) (datetime year 12 31 23 59 59)
                      half_hour)
          (Some "UTC") None)
  else Raise ValueError.

Definition Band : Type := time * time * F64.t.

Definition dummy_duos_timetable (red amber green day night : F64.t)
    : list Band :=
  [(time_hms 16 0 0, time_hms 20 0 0, F64.add red day);
   (time_hms 6 0 0, time_hms 16 0 0, F64.add amber day);
   (time_hms 0 0 0, time_hms 6 0 0, F64.add green night);
   (time_hms 20 0 0, time_hms 23 59 59, F64.add green day)].

Definition red_default : F64.t := F64.dec 518 4.
Definition amber_default : F64.t := F64.dec 518 5.
Definition green_default : F64.t := F64.dec 51 5.
Definition day_default : F64.t := F64.dec 195 3.
Definition night_default : F64.t := F64.dec 143 3.

(** [dummy_duos_values()] with its default charges. *)
Definition dummy_duos_values : list Band :=
  dummy_duos_timetable red_default amber_default green_default day_default
    night_default.

(** The inner loop: the charge of the first band that holds the time of
    day, where the loop breaks. *)
Fixpoint scan_bands (bands : list Band) (time_of_day : time)
    : option F64.t :=
  match bands with
  | [] => None
  | (start_time, end_time, charge) :: rest =>
      if time_le start_time time_of_day && time_le time_of_day end_time
      then Some charge
      else scan_bands rest time_of_day
  end.

Definition generate_dummy_price_profile `{SiteSchema} (year : Z)
    : Result (DataFrame Timestamp Label) :=
  timesteps ← generate_annual_timesteps year;
  let column := IMPORT_ELECTRICITY_PRICES in
  let dummy_prices :=
    mk_DataFrame timesteps
      [(column, replicate (length (labels timesteps)) F64.nan)] in
  Ok (foldl (λ dummy_prices timestamp,
        let time_of_day := ts_time timestamp in
        match scan_bands dummy_duos_values time_of_day with
        | Some charge => loc_set_cell dummy_prices timestamp column charge
        | None => dummy_prices
        end) dummy_prices (labels timesteps)).

(** Whether a band's inclusive range holds a time of day. *)
Definition in_band (b : Band) (tod : time) : bool :=
  time_le b.1.1 tod && time_le tod b.1.2.

(** The price written at a stamp once the stamps [todo] are done, or
    what was there. *)
Definition priced_at (todo : list Timestamp) (a : Timestamp) (x : F64.t)
    : F64.t :=
  if bool_decide (a ∈ todo)
  then default x (scan_bands dummy_duos_values (ts_time a))
  else x.

End DummyData.

(** ** structures/protocols.py, analysis/location.py *)

Module Protocols.
Import DateTime Enums Table Schema.

(** [dict[TechnologyType, float]], in insertion order. *)
Definition TechDict : Type := list (TechnologyType * F64.t).

Definition TimeTable : Type := DataFrame Timestamp Label.

Record GeoLocation := mk_GeoLocation {
  geo_name : string;
  latitude : F64.t;
  longitude : F64.t;
  altitude : F64.t;
  geo_timezone : string
}.

(** What an asset aggregator reports. *)
Record AssetAggregator := mk_AssetAggregator {
  agg_name : string;
  agg_size_system : TechDict;
  agg_capital_cost : TechDict;
  agg_annual_maintenance_cost : TechDict;
  agg_lifetime : Z;
  agg_additional_demand : TimeTable;
  agg_onsite_generation : TimeTable
}.

(** The site-model interface a scenario is written against. *)
Class SiteModel (M : Type) := {
  size_system : M → TechDict;
  capital_cost : M → TechDict;
  annual_maintenance_cost : M → TechDict;
  export_results : M → Result TimeTable;
  timezone : M → string;
  add_asset_aggregator : M → AssetAggregator → M
}.

End Protocols.

(** ** analysis/site.py *)

Module SiteM.
Import DateTime Enums Table Schema Protocols.

(** [dict[k] = v] *)
Fixpoint dict_set (d : TechDict) (k : TechnologyType) (v : F64.t)
    : TechDict :=
  match d with
  | [] => [(k, v)]
  | (k', v') :: d' =>
      if decide (k' = k) then (k, v) :: d' else (k', v') :: dict_set d' k v
  end.

Definition dict_get (d : TechDict) (k : TechnologyType) : option F64.t :=
  snd <$> find (λ p, bool_decide (p.1 = k)) d.

(** [Counter.update(d)]: an empty counter takes the mapping as it is, a
    non-empty one adds the counts to what it holds. *)
Definition counter_update (counter d : TechDict) : TechDict :=
  match counter with
  | [] => foldl (λ c p, dict_set c p.1 p.2) [] d
  | _ =>
      foldl (λ c p,
        dict_set c p.1 (F64.add p.2 (default (F64.of_Z 0) (dict_get c p.1))))
        counter d
  end.

Definition sum_dict (list_dict : list TechDict) : TechDict :=
  foldl counter_update [] list_dict.

(** Read key by key: the keys of a dictionary after one more key is
    written, and the write of one entry of [Counter.update], which stores
    under the entry's key a value computed from what is held there. *)
Definition add_key (ks : list TechnologyType) (k : TechnologyType)
    : list TechnologyType :=
  if bool_decide (k ∈ ks) then ks else ks ++ [k].

Definition store (g : option F64.t → F64.t → F64.t) (c : TechDict)
    (p : TechnologyType * F64.t) : TechDict :=
  dict_set c p.1 (g (dict_get c p.1) p.2).

(** The figure under [k] once the dictionary [new] has been counted into
    [held]: the new figure plus the one held (plus 0 for a key not held;
    the new figure as it is when nothing at all was held), and the held
    figure for a key [new] does not have. *)
Definition counted (held new : TechDict) (k : TechnologyType)
    : option F64.t :=
  match dict_get new k with
  | Some v =>
      Some (match held with
            | [] => v
            | _ => F64.add v (default (F64.of_Z 0) (dict_get held k))
            end)
  | None => dict_get held k
  end.

(** A constructed site.  The constructor's formatting of the demand
    table (resampling to 30 minutes, gap filling, time zone) is the table
    library's work on the index and is not needed below; [saving_path]
    only names where results are stored. *)
Record Site := mk_Site {
  name : string;
  geolocation : GeoLocation;
  list_asset_aggregator : list AssetAggregator;
  site_electricity_demand : TimeTable
}.

Definition Site_timezone (self : Site) : string :=
  geo_timezone (geolocation self).

Definition Site_size_system (self : Site) : TechDict :=
  sum_dict (map agg_size_system (list_asset_aggregator self)).

Definition Site_capital_cost (self : Site) : TechDict :=
  sum_dict (map agg_capital_cost (list_asset_aggregator self)).

Definition Site_annual_maintenance_cost (self : Site) : TechDict :=
  sum_dict (map agg_annual_maintenance_cost (list_asset_aggregator self)).

Definition Site_add_asset_aggregator (self : Site)
    (asset_aggregator : AssetAggregator) : Site :=
  mk_Site (name self) (geolocation self)
    (list_asset_aggregator self ++ [asset_aggregator])
    (site_electricity_demand self).

Section Methods.
Context `{SiteSchema, TableLib}.

Definition get_import_and_export_demand (self : Site) (dataf : TimeTable)
    : Result (TimeTable * TimeTable) :=
  let import_dataf := copy dataf in
  let filt := values_test (λ x, F64.ltb x (F64.of_Z 0)) import_dataf in
  import_dataf ← loc_set_mask_scalar import_dataf filt (F64.of_Z 0);
  let export_dataf := copy dataf in
  let filt := values_test (λ x, F64.ltb (F64.of_Z 0) x) export_dataf in
  export_dataf ← loc_set_mask_scalar export_dataf filt (F64.of_Z 0);
  let export_dataf := neg export_dataf in
  import_dataf ← set_columns import_dataf
    (get_multiindex_single_column IMPORT_ELECTRICITY_DEMAND);
  export_dataf ← set_columns export_dataf
    (get_multiindex_single_column EXPORT_ELECTRICITY_DEMAND);
  Ok (import_dataf, export_dataf).

(** [pd.concat({name: table}, axis=1)] puts the aggregator's name in
    front of every column label. *)
Definition keyed (name : string) (df : TimeTable)
    : DataFrame Timestamp (string * Label) :=
  mk_DataFrame (index df) (map (λ p, ((name, p.1), p.2)) (columns df)).

Definition aggregators_table (get : AssetAggregator → TimeTable)
    (self : Site) : Result (DataFrame Timestamp (string * Label)) :=
  match list_asset_aggregator self with
  | [] => Ok empty_frame
  | aggs => concat_axis1 (map (λ a, keyed (agg_name a) (get a)) aggs)
  end.

Definition aggregators_additional_demand (self : Site) :=
  aggregators_table agg_additional_demand self.

Definition aggregators_onsite_generation (self : Site) :=
  aggregators_table agg_onsite_generation self.

(** [df.sum(axis=1)]: the cells of every row added up. *)
Definition sum_axis1 {C} (df : DataFrame Timestamp C) : list F64.t :=
  map (λ i, col_sum (map (λ vs, default F64.nan (vs !! i)) ((columns df).*2)))
      (seq 0 (len df)).

Definition total_of (col : Label)
    (systems : DataFrame Timestamp (string * Label)) (self : Site)
    : Result TimeTable :=
  let col_name := get_multiindex_single_column col in
  if decide (len systems = 0%nat) then
    let ix := index (site_electricity_demand self) in
    let fresh :=
      mk_DataFrame ix
        (map (λ c, (c, replicate (length (labels ix)) F64.nan)) col_name) in
    iloc_set_column0 fresh (F64.of_Z 0)
  else
    set_columns
      (mk_DataFrame (index systems) [(0%nat, sum_axis1 systems)]) col_name.

Definition total_additional_demand (self : Site) : Result TimeTable :=
  systems_demand ← aggregators_additional_demand self;
  total_of ADDITIONAL_ELECTRICITY_DEMAND systems_demand self.

Definition total_onsite_generation (self : Site) : Result TimeTable :=
  onsite_gen ← aggregators_onsite_generation self;
  total_of ELECTRICITY_GENERATION onsite_gen self.

Definition get_avoided_electricity_import (self : Site)
    (onsite_gen export_demand : TimeTable) : Result TimeTable :=
  let avoided_import := copy onsite_gen in
  let filt := values_test (λ x, F64.ltb (F64.of_Z 0) x) export_demand in
  rhs ← loc_get_mask (site_electricity_demand self) filt;
  avoided_import ← loc_set_mask_frame avoided_import filt rhs;
  set_columns avoided_import
    (get_multiindex_single_column SELF_CONSUMED_ELECTRICITY).

Definition Site_export_results (self : Site) : Result TimeTable :=
  additional_demand ← total_additional_demand self;
  on_site_gen ← total_onsite_generation self;
  let total_elec_demand := copy (site_electricity_demand self) in
  total_elec_demand ←
    broadcast_op F64.add total_elec_demand (values additional_demand);
  net_elec_demand ←
    broadcast_op F64.sub total_elec_demand (values on_site_gen);
  '(import_demand, export_demand) ←
    get_import_and_export_demand self net_elec_demand;
  avoided_import_electricity ←
    get_avoided_electricity_import self on_site_gen export_demand;
  concat_axis1
    [import_demand; export_demand; on_site_gen; additional_demand;
     site_electricity_demand self; avoided_import_electricity].

#[export] Instance Site_SiteModel : SiteModel Site := {|
  size_system := Site_size_system;
  capital_cost := Site_capital_cost;
  annual_maintenance_cost := Site_annual_maintenance_cost;
  export_results := Site_export_results;
  timezone := Site_timezone;
  add_asset_aggregator := Site_add_asset_aggregator
|}.

End Methods.

End SiteM.

(** ** analysis/scenario.py *)

Module ScenarioM.
Import DateTime Enums Table Schema Protocols.

(** The one-column annual report of a scenario: metric rows, one column
    named after the scenario. *)
Definition Summary : Type := DataFrame Label string.

Record Scenario (M : Type) := mk_Scenario {
  name : string;
  site_model : M;
  site_energy_demand : TimeTable;
  description : string;
  import_electricity_emission_factor : TimeTable;
  import_electricity_prices : TimeTable;
  export_electricity_prices : TimeTable;
  discount_rate : F64.t;
  summary_results : TimeTable;
  cashflow_data : TimeTable
}.
Arguments mk_Scenario {M} _ _ _ _ _ _ _ _ _ _.
Arguments name {M} _.
Arguments site_model {M} _.
Arguments site_energy_demand {M} _.
Arguments description {M} _.
Arguments import_electricity_emission_factor {M} _.
Arguments import_electricity_prices {M} _.
Arguments export_electricity_prices {M} _.
Arguments discount_rate {M} _.
Arguments summary_results {M} _.
Arguments cashflow_data {M} _.

Section Methods.
Context `{SiteSchema, TableLib} {M : Type} `{SiteModel M}.

Definition with_site_model (self : Scenario M) (m : M) : Scenario M :=
  mk_Scenario (name self) m (site_energy_demand self) (description self)
    (import_electricity_emission_factor self)
    (import_electricity_prices self) (export_electricity_prices self)
    (discount_rate self) (summary_results self) (cashflow_data self).

Definition with_site_energy_demand (self : Scenario M) (t : TimeTable)
    : Scenario M :=
  mk_Scenario (name self) (site_model self) t (description self)
    (import_electricity_emission_factor self)
    (import_electricity_prices self) (export_electricity_prices self)
    (discount_rate self) (summary_results self) (cashflow_data self).

Definition with_emission_factor (self : Scenario M) (t : TimeTable)
    : Scenario M :=
  mk_Scenario (name self) (site_model self) (site_energy_demand self)
    (description self) t
    (import_electricity_prices self) (export_electricity_prices self)
    (discount_rate self) (summary_results self) (cashflow_data self).

Definition with_import_prices (self : Scenario M) (t : TimeTable)
    : Scenario M :=
  mk_Scenario (name self) (site_model self) (site_energy_demand self)
    (description self) (import_electricity_emission_factor self)
    t (export_electricity_prices self)
    (discount_rate self) (summary_results self) (cashflow_data self).

Definition with_export_prices (self : Scenario M) (t : TimeTable)
    : Scenario M :=
  mk_Scenario (name self) (site_model self) (site_energy_demand self)
    (description self) (import_electricity_emission_factor self)
    (import_electricity_prices self) t
    (discount_rate self) (summary_results self) (cashflow_data self).

Definition with_summary_results (self : Scenario M) (t : TimeTable)
    : Scenario M :=
  mk_Scenario (name self) (site_model self) (site_energy_demand self)
    (description self) (import_electricity_emission_factor self)
    (import_electricity_prices self) (export_electricity_prices self)
    (discount_rate self) t (cashflow_data self).

Definition Scenario_add_asset_aggregator (self : Scenario M)
    (asset : AssetAggregator) : Scenario M :=
  with_site_model self (add_asset_aggregator (site_model self) asset).

Definition Scenario_timezone (self : Scenario M) : string :=
  timezone (site_model self).

Definition get_col_name (col : Label) : Result Label :=
  match get_multiindex_single_column col with
  | c :: _ => Ok c
  | [] => Raise IndexError
  end.

Definition format_site_import_electricity_prices (self : Scenario M)
    : Result (Scenario M) :=
  let prices := import_electricity_prices self in
  if decide (shape1 prices = 1%nat) then
    let price_datetimeindex := index prices in
    stamps ←
      match tzinfo price_datetimeindex with
      | None => tz_localize (Scenario_timezone self)
                  (labels price_datetimeindex)
      | Some tz => Ok (tz_convert tz (Scenario_timezone self)
                         (labels price_datetimeindex))
      end;
    let ix := mk_Index stamps (Some (Scenario_timezone self))
                (Some Results_INDEX) in
    prices ← set_columns (mk_DataFrame ix (columns prices))
      (get_multiindex_single_column IMPORT_ELECTRICITY_PRICES);
    Ok (with_import_prices self prices)
  else Ok self.

Definition set_default_export_electricity_prices (self : Scenario M)
    (value : F64.t) : Result (Scenario M) :=
  if decide (len (export_electricity_prices self) = 0%nat) then
    let prices := copy (import_electricity_prices self) in
    prices ← set_columns prices
      (get_multiindex_single_column EXPORT_ELECTRICITY_REVENUES);
    prices ← iloc_set_column0 prices value;
    Ok (with_export_prices self prices)
  else Ok self.

Definition set_default_import_electricity_emission_factor
    (self : Scenario M) (value : F64.t) : Result (Scenario M) :=
  if decide (len (import_electricity_emission_factor self) = 0%nat) then
    let factor := copy (import_electricity_prices self) in
    factor ← set_columns factor
      (get_multiindex_single_column GHG_INTENSITY_IMPORT_ELECTRICITY);
    factor ← iloc_set_column0 factor value;
    Ok (with_emission_factor self factor)
  else Ok self.

(** The default of [set_default_import_electricity_emission_factor]:
    0.150 kgCO2e/kWh. *)
Definition default_emission_factor : F64.t := F64.dec 150 3.

(** [self.site_energy_demand[col_name].to_frame().copy()] *)
Definition demand_column (self : Scenario M) (col_name : Label)
    : Result TimeTable :=
  vs ← getitem (site_energy_demand self) col_name;
  Ok (copy (to_frame (index (site_energy_demand self)) col_name vs)).

Definition export_demand (self : Scenario M) : Result TimeTable :=
  demand_column self EXPORT_ELECTRICITY_DEMAND.

Definition import_demand (self : Scenario M) : Result TimeTable :=
  demand_column self IMPORT_ELECTRICITY_DEMAND.

Definition avoided_import (self : Scenario M) : Result TimeTable :=
  demand_column self SELF_CONSUMED_ELECTRICITY.

Definition onsite_generation (self : Scenario M) : Result TimeTable :=
  demand_column self ELECTRICITY_GENERATION.

(** [quantity.mul(rate.values, axis=0)], relabelled. *)
Definition priced (quantity : Result TimeTable) (rate : TimeTable)
    (label : Label) : Result TimeTable :=
  q ← quantity;
  dataf ← flex_op_axis0 F64.mul q (values rate);
  set_columns dataf (get_multiindex_single_column label).

Definition calculate_electricity_import_operation_cost (self : Scenario M) :=
  priced (import_demand self) (import_electricity_prices self)
    IMPORT_ELECTRICITY_COSTS.

Definition calculate_electricity_export_operation_cost (self : Scenario M) :=
  priced (export_demand self) (export_electricity_prices self)
    EXPORT_ELECTRICITY_REVENUES.

Definition calculate_electricity_associated_emissions (self : Scenario M) :=
  priced (import_demand self) (import_electricity_emission_factor self)
    GHG_EMISSIONS_IMPORT_ELECTRICITY.

Definition calculate_site_electricity_avoided_emissions (self : Scenario M) :=
  priced (avoided_import self) (import_electricity_emission_factor self)
    SITE_GHG_EMISSIONS_DISPLACED.

Definition calculate_total_electricity_avoided_emissions (self : Scenario M) :=
  priced (onsite_generation self) (import_electricity_emission_factor self)
    TOTAL_GHG_EMISSIONS_DISPLACED.

Definition calculate_electricity_operation_cost (self : Scenario M)
    : Result TimeTable :=
  import_cost ← calculate_electricity_import_operation_cost self;
  export_cost ← calculate_electricity_export_operation_cost self;
  concat_axis1 [import_cost; export_cost].

Definition calculate_electricity_import_savings (self : Scenario M) :=
  priced (avoided_import self) (import_electricity_prices self)
    ELECTRICITY_SAVINGS.

Definition Scenario_export_results (self : Scenario M) : Result TimeTable :=
  current_cost ← calculate_electricity_operation_cost self;
  current_emissions ← calculate_electricity_associated_emissions self;
  site_avoided_emissions ←
    calculate_site_electricity_avoided_emissions self;
  total_avoided_emissions ←
    calculate_total_electricity_avoided_emissions self;
  current_cost_savings ← calculate_electricity_import_savings self;
  concat_axis1
    [site_energy_demand self; current_cost; current_cost_savings;
     current_emissions; site_avoided_emissions; total_avoided_emissions].

Definition update_results (self : Scenario M) : Result (Scenario M) :=
  demand ← export_results (site_model self);
  let self := with_site_energy_demand self demand in
  results ← Scenario_export_results self;
  Ok (with_summary_results self results).

Definition post_init (self : Scenario M) : Result (Scenario M) :=
  self ← format_site_import_electricity_prices self;
  self ← set_default_import_electricity_emission_factor self
           default_emission_factor;
  self ← set_default_export_electricity_prices self (F64.of_Z 0);
  update_results self.

(** Python's [sum] over the values of a dictionary: from 0, left to
    right. *)
Definition py_sum (vs : list F64.t) : F64.t := foldl F64.add (F64.of_Z 0) vs.

Definition calculate_total_opex (self : Scenario M) (summary : Summary)
    : Result Summary :=
  opex_col ← get_col_name OPEX;
  let summary :=
    loc_set_cell summary opex_col (name self)
      (py_sum ((annual_maintenance_cost (site_model self)).*2)) in
  import_costs ← get_col_name IMPORT_ELECTRICITY_COSTS;
  export_revenues ← get_col_name EXPORT_ELECTRICITY_REVENUES;
  a ← loc_get_cell summary opex_col (name self);
  b ← loc_get_cell summary import_costs (name self);
  c ← loc_get_cell summary export_revenues (name self);
  Ok (loc_set_cell summary opex_col (name self) (F64.sub (F64.add a b) c)).

(** The row label [f'{tech_name.name}_{col_name[0]}', col_name[1]]. *)
Definition tech_label (tech_name : TechnologyType) (col_name : Label)
    : Label :=
  (TechnologyType_name tech_name +:+ "_" +:+ col_name.1, col_name.2).

Definition overlay_by_technology (self : Scenario M) (d : TechDict)
    (col_name : Label) (summary : Summary) : Summary :=
  foldl (λ summary p,
    loc_set_cell summary (tech_label p.1 col_name) (name self) p.2)
    summary d.

Definition get_capex_by_technology (self : Scenario M) (summary : Summary)
    : Summary :=
  overlay_by_technology self (capital_cost (site_model self)) CAPEX summary.

Definition get_capacity_by_technology (self : Scenario M)
    (summary : Summary) : Summary :=
  overlay_by_technology self (size_system (site_model self))
    CAPACITY_INSTALLED summary.

(** [self.summary_results.sum().to_frame()] with its column renamed to
    the scenario. *)
Definition summed (self : Scenario M) : Summary :=
  let cols := columns (summary_results self) in
  mk_DataFrame (plain_index (cols.*1))
    [(name self, map (λ p, col_sum p.2) cols)].

(** [table.max().iloc[0] * 2] *)
Definition peak_of (table : TimeTable) : Result F64.t :=
  match columns table with
  | (_, vs) :: _ => Ok (F64.mul (col_max vs) (F64.of_Z 2))
  | [] => Raise IndexError
  end.

Definition get_summary_results (self : Scenario M) : Result Summary :=
  let summary := summed self in
  peak_import_col ← get_col_name PEAK_ELECTRICITY_IMPORT;
  demand ← import_demand self;
  peak ← peak_of demand;
  let summary := loc_set_cell summary peak_import_col (name self) peak in
  peak_export_col ← get_col_name PEAK_ELECTRICITY_EXPORT;
  demand ← export_demand self;
  peak ← peak_of demand;
  let summary := loc_set_cell summary peak_export_col (name self) peak in
  let summary := get_capex_by_technology self summary in
  summary ← calculate_total_opex self summary;
  let summary := get_capacity_by_technology self summary in
  Ok summary.

(** The rows [get_summary_results] writes by label: the two peaks,
    then one row per technology for CAPEX, OPEX, one row per
    technology for the installed capacity. *)
Definition tech_labels (d : TechDict) (col_name : Label) : list Label :=
  map (λ p, tech_label p.1 col_name) d.

Definition rows_after_peak_export (self : Scenario M) : list Label :=
  tech_labels (capital_cost (site_model self)) CAPEX
  ++ [OPEX]
  ++ tech_labels (size_system (site_model self)) CAPACITY_INSTALLED.

Definition overlay_rows (self : Scenario M) : list Label :=
  PEAK_ELECTRICITY_IMPORT :: PEAK_ELECTRICITY_EXPORT
  :: rows_after_peak_export self.

End Methods.

(** The rows of a one-column report, as label-value pairs. *)
Definition summary_rows (s : Summary) : list (Label * F64.t) :=
  match columns s with
  | [(_, vs)] => zip (labels (index s)) vs
  | _ => []
  end.

(** [rows[r] = v] on label-value pairs: every pair labelled [r] is
    rewritten, or a pair is appended when there is none. *)
Definition upsert (l : list (Label * F64.t)) (r : Label) (v : F64.t)
    : list (Label * F64.t) :=
  if bool_decide (r ∈ l.*1)
  then map (λ p, if decide (p.1 = r) then (p.1, v) else p) l
  else l ++ [(r, v)].

(** Every row labelled [r] holds [v], and there is such a row. *)
Definition row_value (l : list (Label * F64.t)) (r : Label) (v : F64.t)
    : Prop :=
  r ∈ l.*1 ∧ ∀ p, p ∈ l → p.1 = r → p.2 = v.

(** A report is one column named [n], as long as its index. *)
Definition one_column (n : string) (s : Summary) : Prop :=
  ∃ vs, columns s = [(n, vs)] ∧ length vs = length (labels (index s)).

End ScenarioM.

(** ** analysis/comparison.py *)

Module Comparison.
Import Table Schema Protocols ScenarioM.

(** [_summary_results] only holds what [summary_results] last computed
    and is written before it is read: it is left out. *)
Record ScenarioComparison (M : Type) := mk_ScenarioComparison {
  reference_scenario : Scenario M;
  list_scenarios : list (Scenario M)
}.
Arguments mk_ScenarioComparison {M} _ _.
Arguments reference_scenario {M} _.
Arguments list_scenarios {M} _.

(** [sorted] on column names: strings in code-point order. *)
Definition string_le (a b : string) : Prop := String.leb a b = true.

#[global] Instance string_le_dec : RelDecision string_le.
Proof. intros a b. unfold string_le. apply _. Defined.

Definition sorted (l : list string) : list string := merge_sort string_le l.

Section Methods.
Context `{SiteSchema, TableLib} {M : Type} `{SiteModel M}.

Definition Comparison_summary_results (self : ScenarioComparison M)
    : Result Summary :=
  frames ← mapR get_summary_results (list_scenarios self);
  table ← concat_axis1 frames;
  let sorted_cols := sorted (column_labels table) in
  select_columns table sorted_cols.

Definition comparison_results (self : ScenarioComparison M)
    : Result Summary :=
  ref_summary ← get_summary_results (reference_scenario self);
  table ← Comparison_summary_results self;
  diff ← broadcast_op F64.sub table (values ref_summary);
  broadcast_op F64.div diff (values ref_summary).

End Methods.

End Comparison.

(** ** Tables as shared objects

    The tables above are values.  In the interpreter a table is an object
    whose columns point to buffers, and selecting a column or calling
    [to_frame] hands out a new object on the _same_ buffer; only [copy]
    allocates.  This module keeps the objects in a store, so that what a
    caller can reach through a returned table is explicit. *)

Module Store.
Import DateTime Table Schema Protocols ScenarioM.

Definition loc : Type := positive.

Inductive obj :=
  | Buffer (cells : list F64.t)
  | Frame (ix : Index Timestamp) (cols : list (Label * loc))
  | SeriesObj (ix : Index Timestamp) (label : Label) (buf : loc).

Abbreviation heap := (gmap loc obj).

(** Computations on the store that may raise. *)
Definition St (A : Type) : Type := heap → Result (A * heap).

#[global] Instance St_ret : MRet St := λ A a h, Ok (a, h).
#[global] Instance St_bind : MBind St := λ A B f m h,
  match m h with
  | Ok (a, h') => f a h'
  | Raise e => Raise e
  end.

Definition raise {A} (e : PyError) : St A := λ _, Raise e.

Definition alloc (o : obj) : St loc := λ h,
  let l := fresh (dom h) in Ok (l, <[l := o]> h).

Definition get_frame (l : loc) : St (Index Timestamp * list (Label * loc)) :=
  λ h, match h !! l with
       | Some (Frame ix cols) => Ok ((ix, cols), h)
       | _ => Raise AttributeError
       end.

Definition get_buffer (l : loc) : St (list F64.t) :=
  λ h, match h !! l with
       | Some (Buffer cells) => Ok (cells, h)
       | _ => Raise AttributeError
       end.

(** [df[c]]: a series on the column's own buffer. *)
Definition getitem_ref (df : loc) (c : Label) : St loc :=
  '(ix, cols) ← get_frame df;
  match filter (λ p, p.1 = c) cols with
  | [] => raise KeyError
  | [(_, b)] => alloc (SeriesObj ix c b)
  | _ => raise AttributeError
  end.

(** [series.to_frame()]: a table on the series' buffer. *)
Definition to_frame_ref (s : loc) : St loc := λ h,
  match h !! s with
  | Some (SeriesObj ix c b) => alloc (Frame ix [(c, b)]) h
  | _ => Raise AttributeError
  end.

Fixpoint copy_columns (cols : list (Label * loc)) : St (list (Label * loc)) :=
  match cols with
  | [] => mret []
  | (c, b) :: rest =>
      cells ← get_buffer b;
      b' ← alloc (Buffer cells);
      rest' ← copy_columns rest;
      mret ((c, b') :: rest')
  end.

(** [df.copy()]: a new table on new buffers with the same cells. *)
Definition copy_ref (df : loc) : St loc :=
  '(ix, cols) ← get_frame df;
  cols' ← copy_columns cols;
  alloc (Frame ix cols').

(** A scenario whose tables live in the store. *)
Record ScenarioObj (M : Type) := mk_ScenarioObj {
  o_name : string;
  o_site_model : M;
  o_site_energy_demand : loc;
  o_description : string;
  o_import_electricity_emission_factor : loc;
  o_import_electricity_prices : loc;
  o_export_electricity_prices : loc;
  o_discount_rate : F64.t;
  o_summary_results : loc;
  o_cashflow_data : loc
}.
Arguments mk_ScenarioObj {M} _ _ _ _ _ _ _ _ _ _.
Arguments o_name {M} _.
Arguments o_site_model {M} _.
Arguments o_site_energy_demand {M} _.
Arguments o_description {M} _.
Arguments o_import_electricity_emission_factor {M} _.
Arguments o_import_electricity_prices {M} _.
Arguments o_export_electricity_prices {M} _.
Arguments o_discount_rate {M} _.
Arguments o_summary_results {M} _.
Arguments o_cashflow_data {M} _.

(** The table behind a location, as a value. *)
Definition read_column (h : heap) (p : Label * loc)
    : option (Label * list F64.t) :=
  match h !! p.2 with
  | Some (Buffer cells) => Some (p.1, cells)
  | _ => None
  end.

Definition read_frame (h : heap) (l : loc) : option TimeTable :=
  match h !! l with
  | Some (Frame ix cols) =>
      cols' ← mapM (read_column h) cols; Some (mk_DataFrame ix cols')
  | _ => None
  end.

(** The scenario as the metric calculations see it. *)
Definition load {M} (h : heap) (o : ScenarioObj M) : option (Scenario M) :=
  demand ← read_frame h (o_site_energy_demand o);
  factor ← read_frame h (o_import_electricity_emission_factor o);
  imports ← read_frame h (o_import_electricity_prices o);
  exports ← read_frame h (o_export_electricity_prices o);
  results ← read_frame h (o_summary_results o);
  cashflow ← read_frame h (o_cashflow_data o);
  Some (mk_Scenario (o_name o) (o_site_model o) demand (o_description o)
          factor imports exports (o_discount_rate o) results cashflow).

Section Accessors.
Context `{SiteSchema} {M : Type}.

(** [self.site_energy_demand[col_name].to_frame().copy()] *)
Definition demand_column_ref (self : ScenarioObj M) (col_name : Label)
    : St loc :=
  s ← getitem_ref (o_site_energy_demand self) col_name;
  f ← to_frame_ref s;
  copy_ref f.

Definition export_demand_ref (self : ScenarioObj M) : St loc :=
  demand_column_ref self EXPORT_ELECTRICITY_DEMAND.

Definition import_demand_ref (self : ScenarioObj M) : St loc :=
  demand_column_ref self IMPORT_ELECTRICITY_DEMAND.

Definition avoided_import_ref (self : ScenarioObj M) : St loc :=
  demand_column_ref self SELF_CONSUMED_ELECTRICITY.

Definition onsite_generation_ref (self : ScenarioObj M) : St loc :=
  demand_column_ref self ELECTRICITY_GENERATION.

(** The accessor without its final [copy], for comparison: the table
    it returns sits on the scenario's own buffer. *)
Definition demand_column_view (self : ScenarioObj M) (col_name : Label)
    : St loc :=
  s ← getitem_ref (o_site_energy_demand self) col_name;
  to_frame_ref s.

End Accessors.

(** What a caller can do to a table it holds. *)
Inductive mutation :=
  | SetCell (column row : nat) (v : F64.t)
  | SetColumns (new : list Label)
  | SetIndex (ix : Index Timestamp)
  | AddColumn (c : Label) (cells : list F64.t)
  | DelColumn (column : nat).

Definition mutate (r : loc) (h : heap) (m : mutation) : heap :=
  match h !! r with
  | Some (Frame ix cols) =>
      match m with
      | SetCell j i v =>
          match cols !! j with
          | Some (_, b) =>
              match h !! b with
              | Some (Buffer cells) => <[b := Buffer (<[i := v]> cells)]> h
              | _ => h
              end
          | None => h
          end
      | SetColumns new => <[r := Frame ix (zip new (cols.*2))]> h
      | SetIndex ix' => <[r := Frame ix' cols]> h
      | AddColumn c cells =>
          let b := fresh (dom h) in
          <[r := Frame ix (cols ++ [(c, b)])]> (<[b := Buffer cells]> h)
      | DelColumn j => <[r := Frame ix (delete j cols)]> h
      end
  | _ => h
  end.

Definition mutate_all (r : loc) (ms : list mutation) (h : heap) : heap :=
  foldl (mutate r) h ms.

(** Two stores that agree on the locations of the first. *)
Definition agree_on (h0 h : heap) : Prop :=
  ∀ l, l ∈ dom h0 → h !! l = h0 !! l.

(** What the mutations of a table [r] leave alone: the store [h0] that
    was there before [r] was made, while [r] and all its buffers lie
    outside of it. *)
Definition private (h0 : heap) (r : loc) (h : heap) : Prop :=
  agree_on h0 h ∧ (r ∉ dom h0) ∧
  (∀ ix cols, h !! r = Some (Frame ix cols) → ∀ p, p ∈ cols → p.2 ∉ dom h0).

(** An accessor on the store against the accessor on values: it raises
    when the other does, or returns a table that reads as the other's
    value and whose mutation leaves the scenario as it reads. *)
Definition returns_private_copy {M} (by_ref : ScenarioObj M → St loc)
    (by_value : Scenario M → Result TimeTable)
    (o : ScenarioObj M) (h : heap) (sc : Scenario M) : Prop :=
  match by_ref o h with
  | Ok (r, h') =>
      (∃ t, by_value sc = Ok t ∧ read_frame h' r = Some t) ∧
      ∀ ms, load (mutate_all r ms h') o = Some sc ∧
            read_frame (mutate_all r ms h') (o_site_energy_demand o)
            = Some (site_energy_demand sc)
  | Raise e => by_value sc = Raise e
  end.

End Store.

(** ** A small site, scenario and store to run the model on *)

Module Examples.
Import DateTime Enums Table Schema Protocols SiteM ScenarioM Comparison Store.
#[local] Existing Instance spec_schema.
#[local] Existing Instance plain_lib.

Definition three_rows : Index Timestamp :=
  mk_Index [0; DummyData.half_hour; 2 * DummyData.half_hour] None None.

Definition column_of (l : Label) (zs : list Z) : TimeTable :=
  mk_DataFrame three_rows [(l, map F64.of_Z zs)].

Definition here : GeoLocation :=
  mk_GeoLocation "site" F64.zero F64.zero F64.zero "UTC".

(** Photovoltaics producing 8, 2 and 0 kWh over the three half-hours. *)
Definition pv : AssetAggregator :=
  mk_AssetAggregator "pv" [(PV, F64.of_Z 3)] [(PV, F64.of_Z 1000)]
    [(PV, F64.of_Z 10)] 20
    (column_of ("demand", "kWh") [0; 0; 0])
    (column_of ("generation", "kWh") [8; 2; 0]).

(** A site drawing 3, 5 and 4 kWh. *)
Definition small_site : Site :=
  mk_Site "site" here [pv] (column_of INIT_SITE_ELECTRICITY_DEMAND [3; 5; 4]).

(** A site model that reports a table measured elsewhere: the
    interface a scenario is written against asks for no more. *)
Record Metered := mk_Metered {
  metered_timezone : string;
  metered_assets : list AssetAggregator;
  metered_results : TimeTable
}.

#[export] Instance Metered_SiteModel : SiteModel Metered := {|
  size_system m := sum_dict (map agg_size_system (metered_assets m));
  capital_cost m := sum_dict (map agg_capital_cost (metered_assets m));
  annual_maintenance_cost m :=
    sum_dict (map agg_annual_maintenance_cost (metered_assets m));
  export_results m := Ok (metered_results m);
  timezone := metered_timezone;
  add_asset_aggregator m a :=
    mk_Metered (metered_timezone m) (metered_assets m ++ [a])
      (metered_results m)
|}.

(** The six columns of a site's results over the three half-hours. *)
Definition results_of (import export generation additional demand own
    : list F64.t) : TimeTable :=
  mk_DataFrame three_rows
    [(IMPORT_ELECTRICITY_DEMAND, import);
     (EXPORT_ELECTRICITY_DEMAND, export);
     (ELECTRICITY_GENERATION, generation);
     (ADDITIONAL_ELECTRICITY_DEMAND, additional);
     (INIT_SITE_ELECTRICITY_DEMAND, demand);
     (SELF_CONSUMED_ELECTRICITY, own)].

Definition minus_zero : F64.t := F64.opp (F64.of_Z 0).

(** The small site as metered: 3, 5 and 4 kWh drawn, 8, 2 and 0 kWh
    produced, so 5 kWh fed back in the first half-hour and 3 and 4 kWh
    taken from the grid in the others. *)
Definition metered_site : Metered :=
  mk_Metered "UTC" [pv]
    (results_of (map F64.of_Z [0; 3; 4])
       [F64.of_Z 5; minus_zero; minus_zero]
       (map F64.of_Z [8; 2; 0]) (map F64.of_Z [0; 0; 0])
       (map F64.of_Z [3; 5; 4]) (map F64.of_Z [3; 2; 0])).

(** A scenario given import prices only. *)
Definition raw_scenario : Scenario Metered :=
  mk_Scenario "reference" metered_site empty_frame "" empty_frame
    (column_of ("price", "GBP/kWh") [1; 2; 3]) empty_frame F64.zero
    empty_frame empty_frame.

Definition small_scenario : Scenario Metered :=
  Eval vm_compute in
    match post_init raw_scenario with
    | Ok s => s
    | Raise _ => raw_scenario
    end.

Definition small_summary : Summary :=
  Eval vm_compute in
    match get_summary_results small_scenario with
    | Ok s => s
    | Raise _ => empty_frame
    end.

(** The scenario compared with itself. *)
Definition self_comparison : ScenarioComparison Metered :=
  mk_ScenarioComparison small_scenario [small_scenario].

Definition self_comparison_table : Summary :=
  Eval vm_compute in
    match comparison_results self_comparison with
    | Ok t => t
    | Raise _ => empty_frame
    end.

(** The same two technologies attached in either order: the reports
    have the same rows in a different order. *)
Definition ev : AssetAggregator :=
  mk_AssetAggregator "ev" [(EV, F64.of_Z 7)] [(EV, F64.of_Z 500)]
    [(EV, F64.of_Z 5)] 10
    (column_of ("demand", "kWh") [1; 1; 1])
    (column_of ("generation", "kWh") [0; 0; 0]).

Definition scenario_with (n : string) (site : Metered) (prices : list Z)
    : Scenario Metered :=
  match post_init
          (mk_Scenario n site empty_frame "" empty_frame
             (column_of ("price", "GBP/kWh") prices) empty_frame F64.zero
             empty_frame empty_frame) with
  | Ok s => s
  | Raise _ => raw_scenario
  end.

(** With the vehicles the site draws 1 kWh more in every half-hour. *)
Definition metered_with (aggs : list AssetAggregator) : Metered :=
  mk_Metered "UTC" aggs
    (results_of (map F64.of_Z [0; 4; 5])
       [F64.of_Z 4; minus_zero; minus_zero]
       (map F64.of_Z [8; 2; 0]) (map F64.of_Z [1; 1; 1])
       (map F64.of_Z [3; 5; 4]) (map F64.of_Z [3; 2; 0])).

Definition pv_then_ev : Scenario Metered :=
  Eval vm_compute in scenario_with "a" (metered_with [pv; ev]) [1; 2; 3].
Definition ev_then_pv : Scenario Metered :=
  Eval vm_compute in scenario_with "b" (metered_with [ev; pv]) [1; 2; 3].

(** Another scenario under the name of the small one, at twice the
    prices. *)
Definition pricier : Scenario Metered :=
  Eval vm_compute in scenario_with "reference" metered_site [2; 4; 6].

(** A store holding the small scenario: one buffer per column of its
    site energy demand, and one empty table for the tables that play no
    part. *)
Definition small_heap : heap :=
  list_to_map
    [(1%positive, Buffer (map F64.of_Z [0; 3; 4]));
     (2%positive, Buffer (map F64.of_Z [5; 0; 0]));
     (3%positive, Buffer (map F64.of_Z [8; 2; 0]));
     (4%positive, Buffer (map F64.of_Z [3; 2; 0]));
     (5%positive,
      Frame three_rows
        [(IMPORT_ELECTRICITY_DEMAND, 1%positive);
         (EXPORT_ELECTRICITY_DEMAND, 2%positive);
         (ELECTRICITY_GENERATION, 3%positive);
         (SELF_CONSUMED_ELECTRICITY, 4%positive)]);
     (6%positive, Frame (plain_index []) [])].

Definition small_object : ScenarioObj Metered :=
  mk_ScenarioObj "reference" metered_site 5%positive "" 6%positive 6%positive
    6%positive F64.zero 6%positive 6%positive.

Definition small_loaded : Scenario Metered :=
  Eval vm_compute in
    match load small_heap small_object with
    | Some s => s
    | None => raw_scenario
    end.


(** A scenario given no prices at all. *)
Definition unpriced_scenario : Scenario Metered :=
  mk_Scenario "unpriced" metered_site empty_frame "" empty_frame empty_frame
    empty_frame F64.zero empty_frame empty_frame.

(** The calendar rows of Monday 1 January 2024 at 08:00 and at 07:30, and
    of Saturday 6 January at 08:00. *)
Definition calendar_rows : list Functions.TimeFeatures :=
  Eval vm_compute in
    match mapR Functions.row_features
            [datetime 2024 1 1 8 0 0; datetime 2024 1 1 7 30 0;
             datetime 2024 1 6 8 0 0] with
    | Ok rows => rows
    | Raise _ => []
    end.

End Examples.

(** * Properties *)

(** ** Results *)

Lemma bind_Ok {A B} (m : Result A) (f : A → Result B) (b : B) :
  m ≫= f = Ok b → ∃ a, m = Ok a ∧ f a = Ok b.
Proof. destruct m as [a|e]; simpl; [eauto | discriminate]. Qed.

Section ResultFacts.
Context {A B : Type}.

Lemma mapR_total (f : A → Result B) (l : list A) :
  (∀ x, x ∈ l → ∃ y, f x = Ok y) → ∃ ys, mapR f l = Ok ys.
Proof.
  induction l as [|x l IH]; intros Hf; simpl; [eauto|].
  destruct (Hf x) as [y Hy]; [left|]. rewrite Hy. simpl.
  destruct IH as [ys Hys]; [intros z Hz; apply Hf; by right|].
  rewrite Hys. simpl. eauto.
Qed.

Lemma mapR_lookup (f : A → Result B) (l : list A) (ys : list B) :
  mapR f l = Ok ys →
  length ys = length l ∧
  ∀ i x, l !! i = Some x → ∃ y, ys !! i = Some y ∧ f x = Ok y.
Proof.
  revert ys. induction l as [|x l IH]; intros ys; simpl.
  - intros [= <-]. split; [done|]. intros i x Hx. by destruct i.
  - intros Hb. apply bind_Ok in Hb as (y & Hy & Hb).
    apply bind_Ok in Hb as (ys' & Hys & [= <-]).
    destruct (IH _ Hys) as [Hlen Hrow]. split; [simpl; lia|].
    intros [|i] z Hz; simpl in *.
    + injection Hz as <-. eauto.
    + eauto.
Qed.
End ResultFacts.

(** ** Enumerations *)

Section EnumFacts.
Import Enums.






Context {M : Type} (members : list M) (value : M → PyValue)
        (_missing_ : PyValue → option M).
Hypothesis value_scalar : ∀ m id, value m ≠ PyArray id.







End EnumFacts.

Import Enums.




(** The hook matters: [Destination] keeps the base class's and raises. *)
Example Destination_lookup_raises :
  Destination_call (Raw (PyInt 7)) = Raise ValueError ∧
  EnergyCarrier_call (Raw (PyInt 7)) = Ok NONE ∧
  EnergyCarrier_call (Raw (PyStr "gas")) = Ok NONE ∧
  EnergyCarrier_call (Raw (PyBool true)) = Ok ELECTRICITY ∧
  EnergyCarrier_call (Raw (PyFloat (F64.of_Z 2))) = Ok NATURALGAS ∧
  EnergyCarrier_call (Raw (PyFloat (F64.dec 25 1))) = Ok NONE ∧
  PhysicalQuantity_call (Raw PyNone) = Ok PQ_UNCATEGORIZED ∧
  PhysicalQuantity_call (Raw (PyObject 0)) = Ok PQ_UNCATEGORIZED ∧
  PhysicalQuantity_call (Raw (PyList 0)) = Ok PQ_UNCATEGORIZED.
Proof. repeat split; reflexivity. Qed.

(** ** Calendar features *)

Section CalendarFacts.
Import DateTime Table Functions.

Lemma ts_minute_range (t : Timestamp) : 0 ≤ ts_minute t < 60.
Proof. unfold ts_minute. apply Z.mod_pos_bound. lia. Qed.

Lemma row_features_total (t : Timestamp) :
  ∃ r, row_features t = Ok r ∧
       f_HALFHOUR r = ts_hour t * 2 + ts_minute t `div` 30.
Proof.
  unfold row_features, get_season.
  destruct (_ && _); [by eexists|].
  destruct (_ && _); [by eexists|].
  destruct (_ && _); by eexists.
Qed.

(** C9. [add_time_features] returns, keeps the table, and fills the
    half-hour column of every row with hour × 2 plus the truncated
    quotient of the minute by 30; at 13:30 this is 27. *)
Theorem add_time_features_halfhour {C} (dataf : DataFrame Timestamp C) :
  ∃ ff, add_time_features dataf = Ok ff ∧
    ff_data ff = dataf ∧
    length (ff_features ff) = len dataf ∧
    ∀ i t, labels (index dataf) !! i = Some t →
      ∃ r, ff_features ff !! i = Some r ∧
        f_HALFHOUR r = ts_hour t * 2 + ts_minute t `quot` 30 ∧
        (ts_hour t = 13 → ts_minute t = 30 → f_HALFHOUR r = 27).
Proof.
  unfold add_time_features.
  destruct (mapR_total row_features (labels (index dataf))) as [fs Hfs].
  { intros t _. destruct (row_features_total t) as (r & Hr & _). eauto. }
  rewrite Hfs. simpl. eexists. split; [done|]. simpl.
  destruct (mapR_lookup _ _ _ Hfs) as [Hlen Hrows].
  split; [done|]. split; [done|].
  intros i t Ht. destruct (Hrows _ _ Ht) as (r & Hr & Hrt).
  exists r. split; [done|].
  destruct (row_features_total t) as (r' & Hr' & Hhh).
  assert (r' = r) as -> by congruence.
  pose proof (ts_minute_range t) as Hmin.
  rewrite Z.quot_div_nonneg by lia. split; [done|].
  intros Hh Hm. rewrite Hhh, Hh, Hm. reflexivity.
Qed.

Example halfhour_at_13_30 :
  f_HALFHOUR <$> (match row_features (datetime 2023 6 15 13 30 0) with
                  | Ok r => Some r | Raise _ => None end) = Some 27.
Proof. vm_compute. reflexivity. Qed.

End CalendarFacts.

(** ** Occupancy schedule *)

Section ScheduleFacts.
Import DateTime Functions Schedule.

Lemma or_operator_map {A} (f g : A → bool) (l : list A) :
  or_operator (map f l) (map g l) = map (λ x, f x || g x) l.
Proof. unfold or_operator. induction l; simpl; congruence. Qed.

Lemma and_operator_map {A} (f g : A → bool) (l : list A) :
  and_operator (map f l) (map g l) = map (λ x, f x && g x) l.
Proof. unfold and_operator. induction l; simpl; congruence. Qed.

Lemma replicate_map {A B} (b : B) (l : list A) :
  replicate (length l) b = map (λ _, b) l.
Proof. induction l; simpl; congruence. Qed.

Lemma foldR_flags {A X} (F : list bool → X → Result (list bool))
    (g : X → A → bool) (l : list A) :
  (∀ acc x, F (map acc l) x = Ok (map (λ r, acc r || g x r) l)) →
  ∀ xs acc, foldR F xs (map acc l)
            = Ok (map (λ r, acc r || existsb (λ x, g x r) xs) l).
Proof.
  intros HF xs. induction xs as [|x xs IH]; intros acc; cbn [foldR].
  - f_equal. apply map_ext. intros r. simpl. by rewrite orb_false_r.
  - rewrite HF. cbn [mbind Result_bind]. rewrite IH.
    f_equal. apply map_ext. intros r. simpl. by rewrite orb_assoc.
Qed.

Lemma get_filter_halfhour (d : OccupancyDict) (dataf : list TimeFeatures) :
  get_filter (mk_OccupancySchedule (Some d) HALFHOUR) dataf
  = Ok (map (occupied d) dataf).
Proof.
  unfold get_filter. cbn [occupancy_dict timestep].
  rewrite replicate_map.
  rewrite (foldR_flags _
    (λ p r, (f_DAYOFWEEK r =? p.1) && in_hours p.2 (f_HALFHOUR r))).
  - f_equal.
  - intros acc [day hours]. cbn [calendar_column mbind Result_bind].
    rewrite (foldR_flags _
      (λ p x, (p.1 <=? f_HALFHOUR x) && (f_HALFHOUR x <=? p.2))).
    + cbn [mbind Result_bind]. rewrite map_map.
      rewrite and_operator_map, or_operator_map. f_equal.
    + intros acc' [s e]. cbn [mbind Result_bind]. rewrite !map_map.
      rewrite and_operator_map, or_operator_map. f_equal.
Qed.

(** C6. With the default map and the half-hour timestep, [get_filter]
    returns one flag per row: true on a Monday row at half-hour 20, false
    on a Monday row at half-hour 40, false on every Saturday or Sunday
    row. *)
Theorem default_schedule_filter (dataf : list TimeFeatures) :
  ∃ filt, get_filter default_schedule dataf = Ok filt ∧
    length filt = length dataf ∧
    ∀ i r, dataf !! i = Some r →
      (f_DAYOFWEEK r = 0 → f_HALFHOUR r = 20 → filt !! i = Some true) ∧
      (f_DAYOFWEEK r = 0 → f_HALFHOUR r = 40 → filt !! i = Some false) ∧
      (f_DAYOFWEEK r = 5 ∨ f_DAYOFWEEK r = 6 → filt !! i = Some false).
Proof.
  exists (map (occupied default_occupancy) dataf).
  split; [apply get_filter_halfhour|].
  split; [by rewrite length_map|].
  intros i r Hr. rewrite list_lookup_fmap, Hr. simpl.
  unfold occupied, default_occupancy, in_hours. simpl.
  repeat split.
  - intros -> ->. reflexivity.
  - intros -> ->. reflexivity.
  - intros [-> | ->]; reflexivity.
Qed.

Example default_schedule_rows :
  let row d hh := mk_TimeFeatures 0 d 1 1 2024 "" hh (2024, 1, 1) 1 "" 1 in
  get_filter default_schedule
    [row 0 20; row 0 40; row 5 20; row 6 16; row 4 34; row 4 35; row 2 15]
  = Ok [true; false; false; false; true; false; false].
Proof. reflexivity. Qed.

End ScheduleFacts.

(** ** Binary64 facts *)

Section FloatFacts.

Lemma of_Z_0 : F64.of_Z 0 = F64.zero.
Proof. reflexivity. Qed.

Lemma is_zero_of_Z_0 : F64.is_zero (F64.of_Z 0) = true.
Proof. reflexivity. Qed.

Lemma ltb_pos_not_neg (x : F64.t) :
  F64.ltb F64.zero x = true → F64.ltb x F64.zero = false.
Proof. destruct x as [s|[]| |[] m e]; simpl; done. Qed.

Lemma ltb_neg_not_pos (x : F64.t) :
  F64.ltb x F64.zero = true → F64.ltb F64.zero x = false.
Proof. destruct x as [s|[]| |[] m e]; simpl; done. Qed.

Lemma ltb_neg_opp_pos (x : F64.t) :
  F64.ltb x F64.zero = true → F64.ltb F64.zero (F64.opp x) = true.
Proof. destruct x as [s|[]| |[] m e]; simpl; done. Qed.

Lemma is_zero_not_lt (x : F64.t) :
  F64.is_zero x = true →
  F64.ltb x F64.zero = false ∧ F64.ltb F64.zero x = false.
Proof. destruct x as [s|[]| |[] m e]; simpl; done. Qed.

Lemma is_zero_opp (x : F64.t) :
  F64.is_zero x = true → F64.is_zero (F64.opp x) = true.
Proof. destruct x as [s|[]| |[] m e]; simpl; done. Qed.

(** [x - x] is zero for a finite [x], and a zero divided by a finite
    non-zero number is zero. *)
Lemma sub_diag_finite (x : F64.t) :
  F64.is_finite x = true → F64.is_zero (F64.sub x x) = true.
Proof.
  destruct x as [[]|s| |s m e]; simpl; try done. intros _.
  unfold F64.sub, SFsub. rewrite Z.sub_diag. reflexivity.
Qed.

Lemma own_delta_zero (x : F64.t) :
  F64.is_finite x = true → F64.is_zero x = false →
  F64.is_zero (F64.div (F64.sub x x) x) = true.
Proof.
  destruct x as [[]|s| |s m e]; simpl; try done. intros _ _.
  unfold F64.sub, SFsub. rewrite Z.sub_diag. reflexivity.
Qed.

Lemma own_delta_of_zero (x : F64.t) :
  F64.is_zero x = true → F64.div (F64.sub x x) x = F64.nan.
Proof. destruct x as [[]|[]| |[] m e]; simpl; done. Qed.

(** The order of the cells that are not NaN. *)
Ltac order_cases :=
  repeat match goal with
         | |- context [Z.compare ?a ?b] => destruct (Z.compare_spec a b)
         | |- context [Pos.compare_cont Eq ?a ?b] =>
             change (Pos.compare_cont Eq a b) with (Pos.compare a b);
             destruct (Pos.compare_spec a b)
         | H : context [Z.compare ?a ?b] |- _ =>
             destruct (Z.compare_spec a b)
         | H : context [Pos.compare_cont Eq ?a ?b] |- _ =>
             change (Pos.compare_cont Eq a b) with (Pos.compare a b) in H;
             destruct (Pos.compare_spec a b)
         end; simpl in *; try done; try lia.

Lemma leb_refl (x : F64.t) : F64.is_nan x = false → F64.leb x x = true.
Proof.
  destruct x as [[]|[]| |[] m e]; unfold F64.leb, SFleb; simpl; try done;
    intros _; order_cases.
Qed.

Lemma ltb_leb (x y : F64.t) : F64.ltb x y = true → F64.leb x y = true.
Proof.
  destruct x as [[]|[]| |[] m1 e1], y as [[]|[]| |[] m2 e2];
    unfold F64.leb, F64.ltb, SFleb, SFltb; simpl; try done; order_cases.
Qed.

Lemma ltb_false_leb (x y : F64.t) :
  F64.is_nan x = false → F64.is_nan y = false →
  F64.ltb x y = false → F64.leb y x = true.
Proof.
  destruct x as [[]|[]| |[] m1 e1], y as [[]|[]| |[] m2 e2];
    unfold F64.leb, F64.ltb, SFleb, SFltb; simpl; try done; intros _ _;
    order_cases.
Qed.

Lemma leb_trans (x y z : F64.t) :
  F64.leb x y = true → F64.leb y z = true → F64.leb x z = true.
Proof.
  destruct x as [[]|[]| |[] m1 e1], y as [[]|[]| |[] m2 e2],
    z as [[]|[]| |[] m3 e3];
    unfold F64.leb, SFleb; simpl; try done; order_cases.
Qed.

End FloatFacts.

(** ** The reductions of the running instance *)

Section Reductions.
Import Table.

Lemma present_not_nan (l : list F64.t) (x : F64.t) :
  x ∈ present l → F64.is_nan x = false.
Proof. unfold present. rewrite list_elem_of_filter. tauto. Qed.

(** Adding cells one after the other is one way of adding them up. *)
Lemma foldl_add_total (a : additions) (l : list F64.t) :
  ∃ b, total b = foldl F64.add (total a) l ∧ terms b = terms a ++ l.
Proof.
  revert a. induction l as [|x l IH]; intros a; simpl.
  - exists a. by rewrite app_nil_r.
  - destruct (IH (plus a (term x))) as (b & Hb & Ht).
    exists b. split; [done|]. rewrite Ht. simpl. by rewrite <- app_assoc.
Qed.

Lemma nansum_is_sum (l : list F64.t) : is_sum l (nansum l).
Proof.
  destruct (foldl_add_total (term F64.zero) (present l)) as (b & Hb & Ht).
  exists b, [F64.zero]. split; [exact Hb|]. split.
  - by constructor.
  - by rewrite Ht.
Qed.

(** The running maximum is one of the cells met and none of them is
    above it. *)
Lemma foldl_max (x : F64.t) (l : list F64.t) :
  F64.is_nan x = false → Forall (λ y, F64.is_nan y = false) l →
  let m := foldl (λ m y, if F64.ltb m y then y else m) x l in
  m ∈ x :: l ∧ ∀ y, y ∈ x :: l → F64.leb y m = true.
Proof.
  revert x. induction l as [|z l IH]; intros x Hx Hl; simpl.
  - split; [left|]. intros y Hy. apply list_elem_of_singleton in Hy as ->.
    by apply leb_refl.
  - apply Forall_cons in Hl as [Hz Hl].
    destruct (F64.ltb x z) eqn:Hlt.
    + destruct (IH z Hz Hl) as [Hin Hup]. split.
      * by right.
      * intros y Hy. apply elem_of_cons in Hy as [->|Hy]; [|by apply Hup].
        apply (leb_trans _ z); [by apply ltb_leb|]. apply Hup. left.
    + destruct (IH x Hx Hl) as [Hin Hup]. split.
      * apply elem_of_cons in Hin as [->|Hin]; [left|by do 2 right].
      * intros y Hy. apply elem_of_cons in Hy as [->|Hy]; [apply Hup; left|].
        apply elem_of_cons in Hy as [->|Hy]; [|apply Hup; by right].
        apply (leb_trans _ x); [by apply ltb_false_leb|]. apply Hup. left.
Qed.

Lemma nanmax_is_max (l : list F64.t) : is_max l (nanmax l).
Proof.
  unfold is_max, nanmax. fold (present l).
  destruct (present l) as [|x k] eqn:Hp; [done|].
  apply foldl_max.
  - apply (present_not_nan l). rewrite Hp. left.
  - apply Forall_forall. intros y Hy. apply (present_not_nan l).
    rewrite Hp. by right.
Qed.

Lemma plain_laws : TableLaws plain_lib.
Proof. split; [apply nansum_is_sum | apply nanmax_is_max]. Qed.

End Reductions.

(** ** Tables *)

Section TableFacts.
Import Table.

Lemma zip_with_flags {T} (f : T → bool) (v : T) (vs : list T) :
  zip_with (λ (b : bool) x, if b then v else x) (map f vs) vs
  = map (λ x, if f x then v else x) vs.
Proof. induction vs; simpl; congruence. Qed.

End TableFacts.

(** ** Site *)

Section SiteFacts.
Import DateTime Table Schema Protocols SiteM.
Context `{SiteSchema, TableLib}.

Lemma get_import_and_export_demand_column (self : Site)
    (ix : Index Timestamp) (c : Label) (vs : list F64.t) :
  get_import_and_export_demand self (mk_DataFrame ix [(c, vs)])
  = Ok (mk_DataFrame ix
          [(IMPORT_ELECTRICITY_DEMAND,
            map (λ x, if F64.ltb x (F64.of_Z 0) then F64.of_Z 0 else x) vs)],
        mk_DataFrame ix
          [(EXPORT_ELECTRICITY_DEMAND,
            map (λ x, F64.opp (if F64.ltb (F64.of_Z 0) x then F64.of_Z 0 else x))
                vs)]).
Proof.
  unfold get_import_and_export_demand, copy, loc_set_mask_scalar, same_shape,
    values_test, neg, set_columns, get_multiindex_single_column,
    get_multiindex_multiple_columns, shape1, len.
  cbn [columns index nd_rows nd_cols fmap list_fmap length map snd fst].
  rewrite !bool_decide_eq_true_2 by done.
  cbn [mbind Result_bind zip_with columns index fst snd].
  rewrite !zip_with_flags.
  cbn [shape1 columns length]. rewrite !decide_True by done.
  cbn [mbind Result_bind zip columns index fmap list_fmap snd zip_with map].
  by rewrite map_map.
Qed.

(** C3. On a one-column table of signed net demand,
    [get_import_and_export_demand] returns an import and an export table
    on the same rows; at a row with positive net demand, import is that
    demand and export is zero; at a row with negative net demand, import
    is zero and export is the negated (hence positive) demand; at a row
    with zero net demand both are zero. *)
Theorem import_export_split (self : Site) (ix : Index Timestamp)
    (c : Label) (vs : list F64.t) :
  ∃ imp exp,
    get_import_and_export_demand self (mk_DataFrame ix [(c, vs)])
    = Ok (mk_DataFrame ix [(IMPORT_ELECTRICITY_DEMAND, imp)],
          mk_DataFrame ix [(EXPORT_ELECTRICITY_DEMAND, exp)]) ∧
    length imp = length vs ∧ length exp = length vs ∧
    ∀ i x, vs !! i = Some x →
      ∃ a b, imp !! i = Some a ∧ exp !! i = Some b ∧
        (F64.ltb F64.zero x = true → a = x ∧ F64.is_zero b = true) ∧
        (F64.ltb x F64.zero = true →
           F64.is_zero a = true ∧ b = F64.opp x ∧
           F64.ltb F64.zero b = true) ∧
        (F64.is_zero x = true →
           F64.is_zero a = true ∧ F64.is_zero b = true).
Proof.
  do 2 eexists. split; [apply get_import_and_export_demand_column|].
  rewrite !length_map. split; [done|]. split; [done|].
  intros i x Hx. rewrite !list_lookup_fmap, Hx. simpl.
  do 2 eexists. split; [done|]. split; [done|].
  change (S754_zero false) with F64.zero.
  split; [|split].
  - intros Hp. rewrite (ltb_pos_not_neg _ Hp), Hp. done.
  - intros Hn. rewrite Hn, (ltb_neg_not_pos _ Hn).
    split; [done|]. split; [done|]. by apply ltb_neg_opp_pos.
  - intros Hz. destruct (is_zero_not_lt _ Hz) as [-> ->].
    split; [done|]. by apply is_zero_opp.
Qed.

End SiteFacts.

Section AvoidedImport.
Import DateTime Table Schema Protocols SiteM Examples.
Context `{SiteSchema, TableLib}.

Lemma loc_set_mask_frame_raises {A C} `{EqDecision A, EqDecision C}
    (df rhs : DataFrame A C) (mask : ndarray bool) :
  loc_set_mask_frame df mask rhs = Raise IndexError.
Proof. reflexivity. Qed.

Lemma get_avoided_electricity_import_raises (self : Site)
    (onsite_gen export_demand : TimeTable) :
  get_avoided_electricity_import self onsite_gen export_demand
  = Raise IndexError.
Proof.
  unfold get_avoided_electricity_import.
  destruct (loc_get_mask _ _) as [rhs|err] eqn:Hread.
  - cbn [mbind Result_bind]. by rewrite loc_set_mask_frame_raises.
  - unfold loc_get_mask, row_flags in Hread.
    repeat case_match; simplify_eq/=; done.
Qed.


End AvoidedImport.

(** ** Dummy price profile *)

Section PriceProfile.
Import DateTime Table Schema DummyData.
Context `{SiteSchema}.

Lemma scan_bands_first (pre post : list Band) (b : Band) (tod : time) :
  (∀ b', b' ∈ pre → in_band b' tod = false) →
  in_band b tod = true →
  scan_bands (pre ++ b :: post) tod = Some b.2.
Proof.
  induction pre as [|[[s e] c] pre IH]; intros Hpre Hb; simpl.
  - destruct b as [[s e] c]. unfold in_band in Hb. simpl in *. by rewrite Hb.
  - pose proof (Hpre (s, e, c)) as H0. unfold in_band in H0. simpl in H0.
    rewrite H0 by left. apply IH; [|done].
    intros b' Hb'. apply Hpre. by right.
Qed.

Lemma scan_bands_Some (bands : list Band) (tod : time) (c : F64.t) :
  scan_bands bands tod = Some c →
  ∃ pre b post, bands = pre ++ b :: post ∧ b.2 = c ∧
    in_band b tod = true ∧ ∀ b', b' ∈ pre → in_band b' tod = false.
Proof.
  induction bands as [|[[s e] ch] bands IH]; simpl; [done|].
  destruct (time_le s tod && time_le tod e) eqn:Hin.
  - intros [= <-]. exists [], (s, e, ch), bands. repeat split; try done.
    intros b' Hb'. by apply elem_of_nil in Hb'.
  - intros Hc. destruct (IH Hc) as (pre & b & post & -> & ? & ? & Hpre).
    exists ((s, e, ch) :: pre), b, post. repeat split; try done.
    intros b' [->|Hb']%elem_of_cons; [done|by apply Hpre].
Qed.

Lemma zip_with_zip_with {A B} (f g : A → B → B) (ls : list A) (vs : list B) :
  zip_with f ls (zip_with g ls vs) = zip_with (λ a x, f a (g a x)) ls vs.
Proof.
  revert vs. induction ls as [|a ls IH]; intros [|x vs]; simpl; try done.
  by rewrite IH.
Qed.

Lemma zip_with_ext_in {A B} (f g : A → B → B) (ls : list A) (vs : list B) :
  (∀ a x, a ∈ ls → f a x = g a x) → zip_with f ls vs = zip_with g ls vs.
Proof.
  revert vs. induction ls as [|a ls IH]; intros [|x vs] Hfg; simpl; try done.
  rewrite Hfg by left. f_equal. apply IH. intros. apply Hfg. by right.
Qed.

Lemma zip_with_id {A B} (ls : list A) (vs : list B) :
  length vs = length ls → zip_with (λ _ x, x) ls vs = vs.
Proof.
  revert vs. induction ls as [|a ls IH]; intros [|x vs]; simpl; try done.
  intros [=]. f_equal. by apply IH.
Qed.

Lemma loc_set_cell_row (ix : Index Timestamp) (c : Label) (vs : list F64.t)
    (r : Timestamp) (v : F64.t) :
  r ∈ labels ix →
  loc_set_cell (mk_DataFrame ix [(c, vs)]) r c v
  = mk_DataFrame ix
      [(c, zip_with (λ a x, if decide (a = r) then v else x) (labels ix) vs)].
Proof.
  intros Hr. unfold loc_set_cell, column_labels.
  cbn [columns index fmap list_fmap fst map].
  rewrite bool_decide_eq_true_2 by set_solver.
  rewrite bool_decide_eq_true_2 by set_solver.
  cbn [columns index map fst snd]. by rewrite decide_True.
Qed.

Lemma price_loop (ix : Index Timestamp) (c : Label)
    (todo : list Timestamp) (vs : list F64.t) :
  length vs = length (labels ix) →
  (∀ a, a ∈ todo → a ∈ labels ix) →
  foldl (λ dummy_prices timestamp,
      match scan_bands dummy_duos_values (ts_time timestamp) with
      | Some charge => loc_set_cell dummy_prices timestamp c charge
      | None => dummy_prices
      end) (mk_DataFrame ix [(c, vs)]) todo
  = mk_DataFrame ix [(c, zip_with (priced_at todo) (labels ix) vs)].
Proof.
  revert vs. induction todo as [|a todo IH]; intros vs Hlen Hin.
  - simpl. unfold priced_at. simpl. by rewrite zip_with_id.
  - cbn [foldl].
    destruct (scan_bands dummy_duos_values (ts_time a)) as [ch|] eqn:Hscan.
    + rewrite loc_set_cell_row by (apply Hin; left).
      rewrite IH.
      * rewrite zip_with_zip_with. do 3 f_equal.
        apply zip_with_ext_in. intros b x _. unfold priced_at.
        destruct (decide (b = a)) as [->|Hne].
        -- rewrite (bool_decide_eq_true_2 (a ∈ a :: todo)) by left.
           rewrite Hscan. simpl. by destruct (bool_decide _).
        -- destruct (bool_decide (b ∈ todo)) eqn:Hb.
           ++ apply bool_decide_eq_true in Hb.
              rewrite bool_decide_eq_true_2; [done|by right].
           ++ apply bool_decide_eq_false in Hb.
              rewrite bool_decide_eq_false_2; [done|].
              intros [?|?]%elem_of_cons; done.
      * rewrite length_zip_with. lia.
      * intros b Hb. apply Hin. by right.
    + rewrite IH; [|done|intros b Hb; apply Hin; by right].
      do 3 f_equal. apply zip_with_ext_in. intros b x _. unfold priced_at.
      destruct (decide (b = a)) as [->|Hne].
      * rewrite (bool_decide_eq_true_2 (a ∈ a :: todo)) by left.
        rewrite Hscan. simpl. by destruct (bool_decide _).
      * destruct (bool_decide (b ∈ todo)) eqn:Hb.
        -- apply bool_decide_eq_true in Hb.
           rewrite bool_decide_eq_true_2; [done|by right].
        -- apply bool_decide_eq_false in Hb.
           rewrite bool_decide_eq_false_2; [done|].
           intros [?|?]%elem_of_cons; done.
Qed.

Lemma zip_with_replicate_lookup {A B} (f : A → B → B) (ls : list A) (b : B)
    (i : nat) (a : A) :
  ls !! i = Some a →
  zip_with f ls (replicate (length ls) b) !! i = Some (f a b).
Proof.
  intros Ha. rewrite lookup_zip_with, Ha. simpl.
  rewrite lookup_replicate_2; [done|]. by eapply lookup_lt_Some.
Qed.

Lemma time_at_16 (d : Z) :
  ts_time (d * us_per_day + 16 * us_per_hour) = time_hms 16 0 0.
Proof.
  unfold ts_time, ts_hour, ts_minute, ts_second, ts_microsecond, ts_in_day,
    time_hms, us_per_day, us_per_hour, us_per_minute, us_per_second.
  f_equal; Z.div_mod_to_equations; lia.
Qed.

Lemma days_in_year_pos (y : Z) :
  days_from_civil y 1 1 < days_from_civil y 12 31.
Proof.
  unfold days_from_civil. simpl. Z.div_mod_to_equations. lia.
Qed.

Lemma annual_timesteps_Ok (year : Z) :
  1 ≤ year ≤ 9999 →
  ∃ ts, generate_annual_timesteps year = Ok ts ∧
    ∃ t, labels ts !! 32%nat = Some t ∧ ts_time t = time_hms 16 0 0.
Proof.
  intros Hy. unfold generate_annual_timesteps.
  assert ((1 <=? year) && (year <=? 9999) = true) as ->.
  { apply andb_true_iff. split; apply Z.leb_le; lia. }
  eexists. split; [done|]. cbn [labels]. unfold date_range.
  exists (days_from_civil year 1 1 * us_per_day + 16 * us_per_hour).
  split; [|apply time_at_16].
  rewrite list_lookup_fmap.
  pose proof (days_in_year_pos year) as Hd.
  rewrite (proj2 (lookup_seqZ 0 _ 32%nat 32)).
  - simpl. f_equal. unfold datetime, half_hour, us_per_hour, us_per_minute.
    lia.
  - split; [lia|].
    unfold datetime, half_hour, us_per_day, us_per_hour, us_per_minute,
      us_per_second.
    Z.div_mod_to_equations. lia.
Qed.

(** C8. Whenever the annual stamps of a year are produced,
    [generate_dummy_price_profile] returns one price per stamp; the price
    of a stamp is the rate of the first band, in declared order, whose
    inclusive range holds the stamp's time of day.  A stamp at 16:00:00
    gets the red rate (red + day), which differs from the amber rate.
    The stamps are produced for every year that nanosecond stamps cover
    (1678 to 2261), and the 33rd of them is at 16:00:00. *)
Theorem price_profile_first_band (year : Z) :
  (∀ ts, generate_annual_timesteps year = Ok ts →
     ∃ prices,
       generate_dummy_price_profile year
       = Ok (mk_DataFrame ts [(IMPORT_ELECTRICITY_PRICES, prices)]) ∧
       length prices = length (labels ts) ∧
       (∀ i t pre b post,
          labels ts !! i = Some t →
          dummy_duos_values = pre ++ b :: post →
          (∀ b', b' ∈ pre → in_band b' (ts_time t) = false) →
          in_band b (ts_time t) = true →
          prices !! i = Some b.2) ∧
       (∀ i t, labels ts !! i = Some t → ts_time t = time_hms 16 0 0 →
          prices !! i = Some (F64.add red_default day_default))) ∧
  (1678 ≤ year ≤ 2261 →
     ∃ ts t, generate_annual_timesteps year = Ok ts ∧
       labels ts !! 32%nat = Some t ∧ ts_time t = time_hms 16 0 0) ∧
  F64.add red_default day_default ≠ F64.add amber_default day_default.
Proof.
  split; [|split].
  - intros ts Hts. eexists.
    unfold generate_dummy_price_profile. rewrite Hts. cbn [mbind Result_bind].
    rewrite price_loop; [|by rewrite length_replicate|done].
    split; [done|].
    split; [rewrite length_zip_with, length_replicate; lia|].
    assert (∀ i t c, labels ts !! i = Some t →
              scan_bands dummy_duos_values (ts_time t) = Some c →
              zip_with (priced_at (labels ts)) (labels ts)
                (replicate (length (labels ts)) F64.nan) !! i = Some c) as Hrow.
    { intros i t c Ht Hscan. rewrite (zip_with_replicate_lookup _ _ _ _ _ Ht).
      unfold priced_at. rewrite bool_decide_eq_true_2.
      - by rewrite Hscan.
      - by eapply list_elem_of_lookup_2. }
    split.
    + intros i t pre b post Ht Hsplit Hpre Hb. apply (Hrow i t _ Ht).
      rewrite Hsplit. by apply scan_bands_first.
    + intros i t Ht H16'. apply (Hrow i t _ Ht). rewrite H16'. reflexivity.
  - intros Hy. destruct (annual_timesteps_Ok year) as (ts & Hts & t & H16).
    + lia.
    + by exists ts, t.
  - vm_compute. discriminate.
Qed.

End PriceProfile.

Section PriceExamples.
Import DateTime Table Schema DummyData.
#[local] Existing Instance spec_schema.

(** On 1 January 2023 the stamps at 15:30, 16:00, 20:00 and 20:30 are
    priced amber, red, red and green. *)
Example bands_around_the_red_period :
  map (λ hm, scan_bands dummy_duos_values (time_hms hm.1 hm.2 0))
      [(15, 30); (16, 0); (20, 0); (20, 30); (0, 0); (6, 0)]
  = [Some (F64.add amber_default day_default);
     Some (F64.add red_default day_default);
     Some (F64.add red_default day_default);
     Some (F64.add green_default day_default);
     Some (F64.add green_default night_default);
     Some (F64.add amber_default day_default)].
Proof. reflexivity. Qed.

(** A year has 48 stamps per day: 17520, or 17568 in a leap year; the
    calendar has no year 0. *)
Example annual_timesteps_count :
  map (λ y, (datetime y 12 31 23 59 59 - datetime y 1 1 0 0 0) `div` half_hour
            + 1) [2023; 2024]
  = [17520; 17568] ∧
  generate_annual_timesteps 0 = Raise ValueError.
Proof. split; reflexivity. Qed.

End PriceExamples.

(** ** Scenario: construction *)

Section ScenarioConstruction.
Import DateTime Table Schema Protocols ScenarioM.
Context `{SiteSchema, TableLib} {M : Type} `{SiteModel M}.

Lemma format_prices_keeps_factor (self s1 : Scenario M) :
  format_site_import_electricity_prices self = Ok s1 →
  import_electricity_emission_factor s1
  = import_electricity_emission_factor self.
Proof.
  unfold format_site_import_electricity_prices.
  destruct (decide _); [|by intros [= <-]].
  intros Hb. apply bind_Ok in Hb as (stamps & _ & Hb).
  apply bind_Ok in Hb as (prices & _ & [= <-]). done.
Qed.

Lemma default_factor_table (s1 s2 : Scenario M) (value : F64.t) :
  len (import_electricity_emission_factor s1) = 0%nat →
  set_default_import_electricity_emission_factor s1 value = Ok s2 →
  import_electricity_prices s2 = import_electricity_prices s1 ∧
  ∃ c vs, columns (import_electricity_prices s1) = [(c, vs)] ∧
    import_electricity_emission_factor s2
    = mk_DataFrame (index (import_electricity_prices s1))
        [(GHG_INTENSITY_IMPORT_ELECTRICITY,
          replicate (len (import_electricity_prices s1)) value)].
Proof.
  intros Hempty. unfold set_default_import_electricity_emission_factor.
  rewrite decide_True by done. unfold copy, set_columns, shape1.
  cbn [get_multiindex_single_column get_multiindex_multiple_columns length].
  destruct (columns (import_electricity_prices s1)) as [|[c vs] [|? ?]] eqn:Hc;
    simpl; try done.
  intros [= <-]. split; [done|]. by exists c, vs.
Qed.

Lemma default_export_keeps (s2 s3 : Scenario M) (value : F64.t) :
  set_default_export_electricity_prices s2 value = Ok s3 →
  import_electricity_prices s3 = import_electricity_prices s2 ∧
  import_electricity_emission_factor s3
  = import_electricity_emission_factor s2.
Proof.
  unfold set_default_export_electricity_prices.
  destruct (decide _); [|by intros [= <-]].
  intros Hb. apply bind_Ok in Hb as (p1 & _ & Hb).
  apply bind_Ok in Hb as (p2 & _ & [= <-]). done.
Qed.

Lemma update_results_keeps (s3 s4 : Scenario M) :
  update_results s3 = Ok s4 →
  import_electricity_prices s4 = import_electricity_prices s3 ∧
  import_electricity_emission_factor s4
  = import_electricity_emission_factor s3.
Proof.
  unfold update_results. intros Hb.
  apply bind_Ok in Hb as (d & _ & Hb).
  apply bind_Ok in Hb as (r & _ & [= <-]). done.
Qed.

(** The value of the default is the binary64 number nearest to 0.150. *)
Lemma default_emission_factor_value :
  default_emission_factor = S754_finite false 5404319552844595 (-55).
Proof. reflexivity. Qed.

(** C5. A scenario constructed with an empty emission-factor table ends
    up with one on the index of its formatted import-price table, with
    the same shape (one column, as many rows), and every value in it is
    0.150 whatever the prices are. *)
Theorem default_emission_factor_table (self s' : Scenario M) :
  post_init self = Ok s' →
  len (import_electricity_emission_factor self) = 0%nat →
  index (import_electricity_emission_factor s')
  = index (import_electricity_prices s') ∧
  len (import_electricity_emission_factor s')
  = len (import_electricity_prices s') ∧
  shape1 (import_electricity_emission_factor s') = 1%nat ∧
  shape1 (import_electricity_prices s') = 1%nat ∧
  columns (import_electricity_emission_factor s')
  = [(GHG_INTENSITY_IMPORT_ELECTRICITY,
      replicate (len (import_electricity_prices s'))
        (S754_finite false 5404319552844595 (-55)))].
Proof.
  unfold post_init. intros Hb Hempty.
  apply bind_Ok in Hb as (s1 & Hs1 & Hb).
  apply bind_Ok in Hb as (s2 & Hs2 & Hb).
  apply bind_Ok in Hb as (s3 & Hs3 & Hs4).
  apply format_prices_keeps_factor in Hs1.
  apply default_factor_table in Hs2 as (Hp2 & c & vs & Hc & Hf2);
    [|by rewrite Hs1].
  apply default_export_keeps in Hs3 as [Hp3 Hf3].
  apply update_results_keeps in Hs4 as [Hp4 Hf4].
  rewrite Hf4, Hf3, Hf2, Hp4, Hp3, Hp2. unfold shape1, len. rewrite Hc.
  by rewrite <- default_emission_factor_value.
Qed.

End ScenarioConstruction.

(** ** Summary tables: writing rows by label *)

Section Upsert.
Import Table Schema ScenarioM.

Lemma zip_with_update (ls : list Label) (vs : list F64.t) (r : Label)
    (v : F64.t) :
  zip ls (zip_with (λ a x, if decide (a = r) then v else x) ls vs)
  = map (λ p, if decide (p.1 = r) then (p.1, v) else p) (zip ls vs).
Proof.
  revert vs. induction ls as [|a ls IH]; intros [|x vs]; simpl; try done.
  rewrite IH. by destruct (decide (a = r)).
Qed.

Lemma fst_zip_labels (ls : list Label) (vs : list F64.t) :
  length vs = length ls → (zip ls vs).*1 = ls.
Proof. intros Hl. apply fst_zip. lia. Qed.

Lemma loc_set_cell_upsert (n : string) (s : Summary) (r : Label) (v : F64.t) :
  one_column n s →
  one_column n (loc_set_cell s r n v) ∧
  summary_rows (loc_set_cell s r n v) = upsert (summary_rows s) r v.
Proof.
  intros (vs & Hc & Hlen). unfold loc_set_cell, column_labels, summary_rows,
    upsert, one_column.
  rewrite Hc. cbn [fmap list_fmap fst map].
  rewrite (bool_decide_eq_true_2 (n ∈ [n])) by left.
  rewrite fst_zip_labels by done.
  destruct (bool_decide (r ∈ labels (index s))) eqn:Hr.
  - rewrite Hc. cbn [columns index map fst snd]. rewrite decide_True by done.
    split.
    + eexists. split; [done|]. rewrite length_zip_with. lia.
    + apply zip_with_update.
  - rewrite Hc. cbn [columns index map fst snd labels].
    rewrite decide_True by done. split.
    + eexists. split; [done|]. rewrite !length_app. simpl. lia.
    + rewrite zip_with_app by done. reflexivity.
Qed.

Lemma upsert_same (l : list (Label * F64.t)) (r : Label) (v : F64.t) :
  row_value (upsert l r v) r v.
Proof.
  unfold upsert, row_value. destruct (bool_decide (r ∈ l.*1)) eqn:Hr.
  - apply bool_decide_eq_true in Hr. split.
    + apply list_elem_of_fmap in Hr as (p & -> & Hp).
      apply list_elem_of_fmap. exists (p.1, v). split; [done|].
      apply list_elem_of_fmap. exists p. by rewrite decide_True.
    + intros p (q & -> & Hq)%list_elem_of_fmap.
      destruct (decide (q.1 = r)); simpl; done.
  - apply bool_decide_eq_false in Hr. split.
    + rewrite fmap_app. apply elem_of_app. right. by left.
    + intros p [Hp|Hp]%elem_of_app Hpr.
      * exfalso. apply Hr. apply list_elem_of_fmap. by exists p.
      * apply list_elem_of_singleton in Hp. by subst.
Qed.

Lemma upsert_other (l : list (Label * F64.t)) (r r' : Label) (v v' : F64.t) :
  r' ≠ r → row_value l r v → row_value (upsert l r' v') r v.
Proof.
  intros Hne [Hin Hval]. unfold upsert, row_value.
  destruct (bool_decide (r' ∈ l.*1)).
  - split.
    + apply list_elem_of_fmap in Hin as (p & -> & Hp).
      apply list_elem_of_fmap. exists p. split; [done|].
      apply list_elem_of_fmap. exists p. by rewrite decide_False.
    + intros p (q & -> & Hq)%list_elem_of_fmap.
      destruct (decide (q.1 = r')); simpl; [congruence|by apply Hval].
  - split.
    + rewrite fmap_app. apply elem_of_app. by left.
    + intros p [Hp|Hp]%elem_of_app Hpr; [by apply Hval|].
      apply list_elem_of_singleton in Hp. subst. done.
Qed.

Lemma upsert_lookup_other (l : list (Label * F64.t)) (r c : Label)
    (v x : F64.t) (j : nat) :
  c ≠ r → l !! j = Some (c, x) → upsert l r v !! j = Some (c, x).
Proof.
  intros Hne Hj. unfold upsert. destruct (bool_decide _).
  - rewrite list_lookup_fmap, Hj. simpl. by rewrite decide_False.
  - by apply lookup_app_l_Some.
Qed.

End Upsert.

(** ** Scenario: the annual summary *)

Section SummaryFacts.
Import DateTime Enums Table Schema Protocols ScenarioM.
Context `{SiteSchema, TableLib} {M : Type} `{SiteModel M}.

Lemma overlay_by_technology_rows (self : Scenario M) (d : TechDict)
    (col_name : Label) (s : Summary) :
  one_column (name self) s →
  one_column (name self) (overlay_by_technology self d col_name s) ∧
  (∀ r v, r ∉ tech_labels d col_name →
     row_value (summary_rows s) r v →
     row_value (summary_rows (overlay_by_technology self d col_name s)) r v) ∧
  (∀ j c x, c ∉ tech_labels d col_name →
     summary_rows s !! j = Some (c, x) →
     summary_rows (overlay_by_technology self d col_name s) !! j
     = Some (c, x)).
Proof.
  unfold overlay_by_technology. revert s.
  induction d as [|[t w] d IH]; intros s Hone; [done|]. cbn [foldl fst snd].
  destruct (loc_set_cell_upsert (name self) s (tech_label t col_name) w Hone)
    as [Hone' Hrows].
  destruct (IH _ Hone') as (Hone'' & Hval & Hpos). split; [done|]. split.
  - intros r v Hr Hrv. cbn [tech_labels map fst] in Hr.
    apply not_elem_of_cons in Hr as [Hne Hr]. apply Hval; [done|].
    rewrite Hrows. by apply upsert_other.
  - intros j c x Hc Hj. cbn [tech_labels map fst] in Hc.
    apply not_elem_of_cons in Hc as [Hne Hc]. apply Hpos; [done|].
    rewrite Hrows. by apply upsert_lookup_other.
Qed.

Lemma calculate_total_opex_rows (self : Scenario M) (s s' : Summary) :
  one_column (name self) s →
  calculate_total_opex self s = Ok s' →
  one_column (name self) s' ∧
  (∀ r v, r ≠ OPEX → row_value (summary_rows s) r v →
     row_value (summary_rows s') r v) ∧
  (∀ j c x, c ≠ OPEX → summary_rows s !! j = Some (c, x) →
     summary_rows s' !! j = Some (c, x)).
Proof.
  intros Hone. unfold calculate_total_opex, get_col_name.
  cbn [get_multiindex_single_column get_multiindex_multiple_columns
       mbind Result_bind].
  intros Hb. apply bind_Ok in Hb as (a & _ & Hb).
  apply bind_Ok in Hb as (b & _ & Hb).
  apply bind_Ok in Hb as (c & _ & [= <-]).
  destruct (loc_set_cell_upsert (name self) s OPEX
              (py_sum (annual_maintenance_cost (site_model self)).*2) Hone)
    as [Hone1 Hrows1].
  destruct (loc_set_cell_upsert (name self) _ OPEX
              (F64.sub (F64.add a b) c) Hone1) as [Hone2 Hrows2].
  split; [done|]. rewrite Hrows2, Hrows1. split.
  - intros r v Hr Hrv. by do 2 (apply upsert_other; [done|]).
  - intros j c' x Hc Hj. by do 2 (apply upsert_lookup_other; [done|]).
Qed.

Lemma zip_fst_map {A B C} (f : A * B → C) (l : list (A * B)) :
  zip (l.*1) (map f l) = map (λ p, (p.1, f p)) l.
Proof. induction l as [|p l IH]; [done|]. cbn. by rewrite IH. Qed.

Lemma summed_rows (self : Scenario M) :
  one_column (name self) (summed self) ∧
  summary_rows (summed self)
  = map (λ p, (p.1, col_sum p.2)) (columns (summary_results self)).
Proof.
  unfold summed, one_column, summary_rows. cbn [columns index labels plain_index].
  split.
  - eexists. split; [done|]. by rewrite length_map, length_fmap.
  - apply zip_fst_map.
Qed.

End SummaryFacts.

Section SummaryTheorem.
Import DateTime Enums Table Schema Protocols ScenarioM.
Context `{SiteSchema} {L : TableLib} {M : Type} `{SiteModel M}.

Lemma demand_peak (self : Scenario M) (col : Label) (peak : F64.t) :
  (demand_column self col ≫= peak_of) = Ok peak →
  ∃ vs, getitem (site_energy_demand self) col = Ok vs ∧
        peak = F64.mul (col_max vs) (F64.of_Z 2).
Proof.
  unfold demand_column. intros Hb.
  apply bind_Ok in Hb as (t & Ht & Hp).
  apply bind_Ok in Ht as (vs & Hvs & [= <-]).
  exists vs. split; [done|]. unfold peak_of, copy, to_frame in Hp.
  cbn [columns] in Hp. by injection Hp as <-.
Qed.

Context {laws : TableLaws L}.

(** C4. When [get_summary_results] returns, the report is one column
    named after the scenario; its peak-import row is 2 × the maximum of
    the import-demand column and its peak-export row is 2 × the maximum
    of the export-demand column (the maximum being one of the column's
    cells that are not NaN, with none of them above it; the labels of the
    rows written later being different ones); and every row that comes
    from a column of the cached per-timestep results, and is not one of
    the rows written by label, is a sum of that column: its cells that
    are not NaN added up. *)
Theorem summary_peaks_and_sums (self : Scenario M) (summary : Summary) :
  get_summary_results self = Ok summary →
  PEAK_ELECTRICITY_IMPORT
    ∉ PEAK_ELECTRICITY_EXPORT :: rows_after_peak_export self →
  PEAK_ELECTRICITY_EXPORT ∉ rows_after_peak_export self →
  ∃ imp exp max_imp max_exp,
    getitem (site_energy_demand self) IMPORT_ELECTRICITY_DEMAND = Ok imp ∧
    getitem (site_energy_demand self) EXPORT_ELECTRICITY_DEMAND = Ok exp ∧
    is_max imp max_imp ∧ is_max exp max_exp ∧
    one_column (name self) summary ∧
    row_value (summary_rows summary) PEAK_ELECTRICITY_IMPORT
      (F64.mul max_imp (F64.of_Z 2)) ∧
    row_value (summary_rows summary) PEAK_ELECTRICITY_EXPORT
      (F64.mul max_exp (F64.of_Z 2)) ∧
    ∀ j c cells,
      columns (summary_results self) !! j = Some (c, cells) →
      c ∉ overlay_rows self →
      ∃ s, is_sum cells s ∧ summary_rows summary !! j = Some (c, s).
Proof.
  unfold get_summary_results, get_col_name, import_demand, export_demand.
  cbn [get_multiindex_single_column get_multiindex_multiple_columns
       mbind Result_bind].
  intros Hb Hpi Hpe.
  apply bind_Ok in Hb as (ti & Hti & Hb).
  apply bind_Ok in Hb as (pi & Hpki & Hb).
  apply bind_Ok in Hb as (te & Hte & Hb).
  apply bind_Ok in Hb as (pe & Hpke & Hb).
  apply bind_Ok in Hb as (s4 & Hopex & [= <-]).
  destruct (demand_peak self IMPORT_ELECTRICITY_DEMAND pi) as (imp & Himp & ->).
  { by rewrite Hti. }
  destruct (demand_peak self EXPORT_ELECTRICITY_DEMAND pe) as (exp & Hexp & ->).
  { by rewrite Hte. }
  exists imp, exp, (col_max imp), (col_max exp).
  split; [done|]. split; [done|].
  split; [apply col_max_spec|]. split; [apply col_max_spec|].
  destruct (summed_rows self) as [Hone0 Hrows0].
  destruct (loc_set_cell_upsert (name self) _ PEAK_ELECTRICITY_IMPORT
              (F64.mul (col_max imp) (F64.of_Z 2)) Hone0) as [Hone1 Hrows1].
  destruct (loc_set_cell_upsert (name self) _ PEAK_ELECTRICITY_EXPORT
              (F64.mul (col_max exp) (F64.of_Z 2)) Hone1) as [Hone2 Hrows2].
  unfold get_capex_by_technology, get_capacity_by_technology in *.
  destruct (overlay_by_technology_rows self (capital_cost (site_model self))
              CAPEX _ Hone2) as (Hone3 & Hval3 & Hpos3).
  destruct (calculate_total_opex_rows self _ _ Hone3 Hopex)
    as (Hone4 & Hval4 & Hpos4).
  destruct (overlay_by_technology_rows self (size_system (site_model self))
              CAPACITY_INSTALLED _ Hone4) as (Hone5 & Hval5 & Hpos5).
  split; [done|].
  unfold rows_after_peak_export in Hpi, Hpe.
  apply not_elem_of_cons in Hpi as [Hpi0 Hpi].
  apply not_elem_of_app in Hpi as [Hpi1 Hpi].
  apply not_elem_of_cons in Hpi as [Hpi2 Hpi3].
  apply not_elem_of_app in Hpe as [Hpe1 Hpe].
  apply not_elem_of_cons in Hpe as [Hpe2 Hpe3].
  split; [|split].
  - apply Hval5; [done|]. apply Hval4; [done|]. apply Hval3; [done|].
    rewrite Hrows2. apply upsert_other; [done|].
    rewrite Hrows1. apply upsert_same.
  - apply Hval5; [done|]. apply Hval4; [done|]. apply Hval3; [done|].
    rewrite Hrows2. apply upsert_same.
  - intros j c cells Hj Hc. exists (col_sum cells).
    split; [apply col_sum_spec|].
    unfold overlay_rows, rows_after_peak_export in Hc.
    apply not_elem_of_cons in Hc as [Hc0 Hc].
    apply not_elem_of_cons in Hc as [Hc1 Hc].
    apply not_elem_of_app in Hc as [Hc2 Hc].
    apply not_elem_of_cons in Hc as [Hc3 Hc4].
    apply Hpos5; [done|]. apply Hpos4; [done|]. apply Hpos3; [done|].
    rewrite Hrows2. apply upsert_lookup_other; [done|].
    rewrite Hrows1. apply upsert_lookup_other; [done|].
    rewrite Hrows0, list_lookup_fmap, Hj. reflexivity.
Qed.

End SummaryTheorem.

(** ** Scenario comparison *)

Lemma elem_of_concat {T} (x : T) (ls : list (list T)) :
  x ∈ concat ls ↔ ∃ l, x ∈ l ∧ l ∈ ls.
Proof.
  rewrite list_elem_of_In, in_concat. split.
  - intros (l & Hl & Hx). exists l. by rewrite !list_elem_of_In.
  - intros (l & Hx & Hl). exists l. by rewrite <- !list_elem_of_In.
Qed.

Section TableAlgebra.
Import Table.
Context {A C : Type} `{EqDecision A, EqDecision C}.

Lemma broadcast_op_column (op : F64.t → F64.t → F64.t)
    (df : DataFrame A C) (n : nat) (ws : list F64.t) :
  n = len df →
  broadcast_op op df (mk_ndarray n [ws])
  = Ok (mk_DataFrame (index df)
          (map (λ p, (p.1, zip_with op p.2 ws)) (columns df))).
Proof.
  intros ->. unfold broadcast_op. cbn [nd_rows nd_cols length].
  destruct (decide (len df = len df ∧ 1%nat = shape1 df)) as [[_ Hk]|Hk].
  - unfold shape1 in Hk. destruct (columns df) as [|p [|q l]]; try done.
  - rewrite decide_True by done. reflexivity.
Qed.

Lemma flex_op_axis0_column (op : F64.t → F64.t → F64.t)
    (df : DataFrame A C) (n : nat) (ws : list F64.t) :
  n = len df →
  flex_op_axis0 op df (mk_ndarray n [ws])
  = Ok (mk_DataFrame (index df)
          (map (λ p, (p.1, zip_with op p.2 ws)) (columns df))).
Proof.
  intros ->. unfold flex_op_axis0. cbn [nd_rows nd_cols length].
  destruct (decide (len df = len df ∧ 1%nat = shape1 df)) as [[_ Hk]|Hk].
  - unfold shape1 in Hk. destruct (columns df) as [|p [|q l]]; try done.
  - rewrite decide_True by done. reflexivity.
Qed.

Lemma index_eq (i j : Index A) :
  labels i = labels j → tzinfo i = tzinfo j → iname i = iname j → i = j.
Proof. destruct i, j. simpl. by intros -> -> ->. Qed.

Lemma mapR_map {X Y} (f : X → Result Y) (g : X → Y) (l : list X) :
  (∀ x, x ∈ l → f x = Ok (g x)) → mapR f l = Ok (map g l).
Proof.
  induction l as [|x l IH]; intros Hf; simpl; [done|].
  rewrite Hf by left. simpl. rewrite IH; [done|].
  intros y Hy. apply Hf. by right.
Qed.

Lemma existsb_all {X} (p : X → bool) (b : bool) (x : X) (l : list X) :
  (∀ y, y ∈ x :: l → p y = b) → existsb p (x :: l) = b.
Proof.
  revert x. induction l as [|z l IH]; intros x Hp.
  - simpl. rewrite Hp by left. by destruct b.
  - change (existsb p (x :: z :: l)) with (p x || existsb p (z :: l)).
    rewrite Hp by left. rewrite IH; [by destruct b|].
    intros y Hy. apply Hp. by right.
Qed.

Context `{RowAxis A}.

Lemma index_union_same (a : list A) (ls : list (list A)) :
  (∀ b, b ∈ ls → b = a) → foldl index_union a ls = a.
Proof.
  induction ls as [|b ls IH]; intros Hall; simpl; [done|].
  rewrite (Hall b) by left. unfold index_union at 2.
  rewrite decide_True by by right. apply IH. intros c Hc. apply Hall.
  by right.
Qed.

(** Tables on one and the same index are put side by side. *)
Lemma concat_axis1_aligned (f : DataFrame A C) (fs : list (DataFrame A C)) :
  (∀ g, g ∈ fs → index g = index f) →
  concat_axis1 (f :: fs)
  = Ok (mk_DataFrame (index f) (concat (map columns (f :: fs)))).
Proof.
  intros Hall.
  assert (∀ g, g ∈ f :: fs → index g = index f) as Hall'.
  { intros g [->|Hg]%elem_of_cons; [done|by apply Hall]. }
  unfold concat_axis1.
  rewrite (existsb_all _ (naive (index f))),
    (existsb_all _ (negb (naive (index f)))).
  2:{ intros g Hg. by rewrite (Hall' g Hg). }
  2:{ intros g Hg. by rewrite (Hall' g Hg). }
  rewrite andb_negb_r. cbv zeta.
  assert (forallb (λ g, bool_decide (tzinfo (index g) = tzinfo (index f))) fs
          = true) as ->.
  { apply forallb_forall. intros g Hg%list_elem_of_In.
    apply bool_decide_eq_true. by rewrite (Hall g Hg). }
  assert (forallb (λ g, bool_decide (iname (index g) = iname (index f))) fs
          = true) as ->.
  { apply forallb_forall. intros g Hg%list_elem_of_In.
    apply bool_decide_eq_true. by rewrite (Hall g Hg). }
  assert (∀ g : DataFrame A C,
            match tzinfo (index g) with
            | Some _ => labels (index g)
            | None => labels (index g)
            end = labels (index g)) as Hstamps.
  { intros g. by destruct (tzinfo (index g)). }
  rewrite Hstamps.
  rewrite index_union_same.
  2:{ intros b (g & -> & Hg)%list_elem_of_fmap.
      rewrite Hstamps. by rewrite (Hall g Hg). }
  assert (mk_Index (labels (index f)) (tzinfo (index f)) (iname (index f))
          = index f) as -> by by destruct (index f).
  rewrite (mapR_map _ columns); [done|].
  intros g Hg. unfold same_index. rewrite (Hall' g Hg).
  by rewrite bool_decide_eq_true_2.
Qed.

Lemma select_columns_spec (df out : DataFrame A C) (cols : list C) :
  select_columns df cols = Ok out →
  index out = index df ∧
  (∀ p, p ∈ columns out → p ∈ columns df) ∧
  (∀ c, c ∈ cols → ∃ p, p ∈ columns out ∧ p.1 = c).
Proof.
  unfold select_columns. intros Hb.
  apply bind_Ok in Hb as (picked & Hp & [= <-]). cbn [index columns].
  split; [done|].
  destruct (mapR_lookup _ _ _ Hp) as [Hlen Hrow]. split.
  - intros p (ps & Hin & Hps)%elem_of_concat.
    apply list_elem_of_lookup in Hps as [i Hi].
    destruct (lookup_lt_is_Some_2 cols i) as [c Hc].
    { rewrite <- Hlen. by eapply lookup_lt_Some. }
    destruct (Hrow _ _ Hc) as (ps' & Hps' & Hf).
    assert (ps' = ps) as -> by congruence.
    destruct (filter _ (columns df)) as [|q qs] eqn:Hfil; [done|].
    injection Hf as <-. rewrite <- Hfil in Hin.
    by apply list_elem_of_filter in Hin as [_ ?].
  - intros c (i & Hc)%list_elem_of_lookup.
    destruct (Hrow _ _ Hc) as (ps & Hps & Hf).
    destruct (filter _ (columns df)) as [|q qs] eqn:Hfil; [done|].
    injection Hf as <-. exists q. split.
    + apply elem_of_concat. exists (q :: qs). split; [by left|].
      by eapply list_elem_of_lookup_2.
    + assert (q ∈ filter (λ p, p.1 = c) (columns df)) as Hq
        by (rewrite Hfil; left).
      by apply list_elem_of_filter in Hq as [? _].
Qed.

End TableAlgebra.

Section ComparisonFacts.
Import DateTime Enums Table Schema Protocols ScenarioM Comparison.
Context `{SiteSchema, TableLib} {M : Type} `{SiteModel M}.

Lemma get_summary_results_one_column (self : Scenario M) (s : Summary) :
  get_summary_results self = Ok s → one_column (name self) s.
Proof.
  unfold get_summary_results, get_col_name.
  cbn [get_multiindex_single_column get_multiindex_multiple_columns
       mbind Result_bind].
  intros Hb.
  apply bind_Ok in Hb as (ti & _ & Hb).
  apply bind_Ok in Hb as (pi & _ & Hb).
  apply bind_Ok in Hb as (te & _ & Hb).
  apply bind_Ok in Hb as (pe & _ & Hb).
  apply bind_Ok in Hb as (s4 & Hopex & [= <-]).
  destruct (summed_rows self) as [Hone0 _].
  destruct (loc_set_cell_upsert (name self) _ PEAK_ELECTRICITY_IMPORT pi Hone0)
    as [Hone1 _].
  destruct (loc_set_cell_upsert (name self) _ PEAK_ELECTRICITY_EXPORT pe Hone1)
    as [Hone2 _].
  unfold get_capex_by_technology, get_capacity_by_technology in *.
  destruct (overlay_by_technology_rows self (capital_cost (site_model self))
              CAPEX _ Hone2) as (Hone3 & _).
  destruct (calculate_total_opex_rows self _ _ Hone3 Hopex) as (Hone4 & _).
  by destruct (overlay_by_technology_rows self
                 (size_system (site_model self)) CAPACITY_INSTALLED _ Hone4)
    as (Hone5 & _).
Qed.

(** Writing cells leaves the zone and the name of the rows alone, and
    a report has neither. *)
Lemma loc_set_cell_axis (s : Summary) (r : Label) (c : string) (v : F64.t) :
  tzinfo (index (loc_set_cell s r c v)) = tzinfo (index s) ∧
  iname (index (loc_set_cell s r c v)) = iname (index s).
Proof. unfold loc_set_cell. by repeat case_bool_decide. Qed.

Lemma overlay_by_technology_axis (self : Scenario M) (d : TechDict)
    (col_name : Label) (s : Summary) :
  tzinfo (index (overlay_by_technology self d col_name s)) = tzinfo (index s) ∧
  iname (index (overlay_by_technology self d col_name s)) = iname (index s).
Proof.
  unfold overlay_by_technology. revert s.
  induction d as [|[t w] d IH]; intros s; [done|]. cbn [foldl fst snd].
  destruct (IH (loc_set_cell s (tech_label t col_name) (name self) w))
    as [-> ->].
  apply loc_set_cell_axis.
Qed.

Lemma get_summary_results_axis (self : Scenario M) (s : Summary) :
  get_summary_results self = Ok s →
  tzinfo (index s) = None ∧ iname (index s) = None.
Proof.
  unfold get_summary_results, get_col_name.
  cbn [get_multiindex_single_column get_multiindex_multiple_columns
       mbind Result_bind].
  intros Hb.
  apply bind_Ok in Hb as (ti & _ & Hb).
  apply bind_Ok in Hb as (pi & _ & Hb).
  apply bind_Ok in Hb as (te & _ & Hb).
  apply bind_Ok in Hb as (pe & _ & Hb).
  apply bind_Ok in Hb as (s4 & Hopex & [= <-]).
  unfold get_capacity_by_technology.
  destruct (overlay_by_technology_axis self (size_system (site_model self))
              CAPACITY_INSTALLED s4) as [-> ->].
  unfold calculate_total_opex, get_col_name in Hopex.
  cbn [get_multiindex_single_column get_multiindex_multiple_columns
       mbind Result_bind] in Hopex.
  apply bind_Ok in Hopex as (a & _ & Hopex).
  apply bind_Ok in Hopex as (b & _ & Hopex).
  apply bind_Ok in Hopex as (c & _ & [= <-]).
  repeat match goal with
         | |- context [index (loc_set_cell ?s ?r ?c ?v)] =>
             destruct (loc_set_cell_axis s r c v) as [-> ->]
         end.
  unfold get_capex_by_technology.
  destruct (overlay_by_technology_axis self (capital_cost (site_model self))
              CAPEX
              (loc_set_cell
                 (loc_set_cell (summed self) PEAK_ELECTRICITY_IMPORT
                    (name self) pi)
                 PEAK_ELECTRICITY_EXPORT (name self) pe)) as [-> ->].
  repeat match goal with
         | |- context [index (loc_set_cell ?s ?r ?c ?v)] =>
             destruct (loc_set_cell_axis s r c v) as [-> ->]
         end.
  done.
Qed.

Lemma sorted_elem (l : list string) (x : string) : x ∈ l → x ∈ sorted l.
Proof. intros Hx. unfold sorted. by rewrite merge_sort_Permutation. Qed.

(** C2, as the code has it.  Let the reference scenario be one of the
    compared scenarios, the only one under its name, and let every
    compared scenario report the metric rows of the reference, in the
    same order.  Then, when [comparison_results] returns, there is a
    column under the reference's name, and every such column is zero at
    each row where the reference's own figure is finite and not zero; at
    a row where that figure is zero the column holds NaN. *)
Theorem own_delta_column (cmp : ScenarioComparison M) (t : Summary) :
  reference_scenario cmp ∈ list_scenarios cmp →
  (∀ s, s ∈ list_scenarios cmp →
        name s = name (reference_scenario cmp) → s = reference_scenario cmp) →
  (∀ s f g, s ∈ list_scenarios cmp →
            get_summary_results s = Ok f →
            get_summary_results (reference_scenario cmp) = Ok g →
            labels (index f) = labels (index g)) →
  comparison_results cmp = Ok t →
  ∃ ref_summary,
    get_summary_results (reference_scenario cmp) = Ok ref_summary ∧
    (∃ vs, (name (reference_scenario cmp), vs) ∈ columns t) ∧
    ∀ vs, (name (reference_scenario cmp), vs) ∈ columns t →
      ∀ i r x, summary_rows ref_summary !! i = Some (r, x) →
        ∃ v, vs !! i = Some v ∧
          (F64.is_finite x = true → F64.is_zero x = false →
             F64.is_zero v = true) ∧
          (F64.is_zero x = true → v = F64.nan).
Proof.
  intros Href Hnames Hrows. unfold comparison_results, Summary in *.
  intros Hb. apply bind_Ok in Hb as (g & Hg & Hb).
  apply bind_Ok in Hb as (table & Htab & Hb).
  exists g. split; [done|].
  pose proof (get_summary_results_one_column _ _ Hg) as (ws & Hws & Hwlen).
  assert (values g = mk_ndarray (len g) [ws]) as Hval.
  { unfold values. by rewrite Hws. }
  unfold Comparison_summary_results in Htab.
  apply bind_Ok in Htab as (frames & Hframes & Htab).
  apply bind_Ok in Htab as (cat & Hcat & Hsel).
  destruct (mapR_lookup _ _ _ Hframes) as [Hflen Hfrow].
  (* every frame is the report of a listed scenario *)
  assert (∀ f, f ∈ frames → ∃ s, s ∈ list_scenarios cmp ∧
                                  get_summary_results s = Ok f) as Hfrom.
  { intros f (i & Hi)%list_elem_of_lookup.
    destruct (lookup_lt_is_Some_2 (list_scenarios cmp) i) as [s Hs].
    { rewrite <- Hflen. by eapply lookup_lt_Some. }
    destruct (Hfrow _ _ Hs) as (f' & Hf' & Hsf).
    assert (Some f' = Some f) as [= ->]
      by (etrans; [symmetry; exact Hf'|exact Hi]).
    exists s. split; [by eapply list_elem_of_lookup_2|done]. }
  assert (∃ f0 fs, frames = f0 :: fs) as (f0 & fs & ->).
  { destruct frames as [|f0 fs]; [|by eauto].
    apply list_elem_of_lookup in Href as [i Hi].
    apply lookup_lt_Some in Hi. simpl in Hflen. lia. }
  assert (∀ f, f ∈ f0 :: fs → labels (index f) = labels (index g)) as Hlab.
  { intros f (s & Hs & Hsf)%Hfrom. by eapply Hrows. }
  assert (∀ f, f ∈ f0 :: fs → index f = index g) as Hsame.
  { intros f Hf. destruct (Hfrom f Hf) as (s & _ & Hsf).
    destruct (get_summary_results_axis _ _ Hsf) as [Htz Hnm].
    destruct (get_summary_results_axis _ _ Hg) as [Htz' Hnm'].
    apply index_eq; [by apply Hlab|congruence..]. }
  rewrite concat_axis1_aligned in Hcat.
  2:{ intros f Hf. rewrite (Hsame f), (Hsame f0); [done|by left|by right]. }
  injection Hcat as <-.
  destruct (select_columns_spec _ _ _ Hsel) as (Hix & Hsub & Hhas).
  cbn [index columns] in Hix, Hsub.
  change (columns f0 ++ concat (map columns fs))
    with (concat (map columns (f0 :: fs))) in *.
  assert (len table = len g) as Hlen.
  { unfold len. rewrite Hix. by rewrite (Hlab f0) by left. }
  (* a column under the reference's name is the reference's own *)
  assert (∀ p, p ∈ columns table → p.1 = name (reference_scenario cmp) →
               p.2 = ws) as Hown.
  { intros p Hp Hname. apply Hsub in Hp.
    apply elem_of_concat in Hp as (cols & Hp & Hcols).
    apply list_elem_of_fmap in Hcols as (f & -> & Hf).
    destruct (Hfrom f Hf) as (s & Hs & Hsf).
    destruct (get_summary_results_one_column _ _ Hsf) as (vs & Hvs & _).
    rewrite Hvs in Hp. apply list_elem_of_singleton in Hp. subst p.
    simpl in Hname. rewrite (Hnames s Hs Hname) in Hsf.
    assert (Ok f = Ok g) as [= ->]
      by (etrans; [symmetry; exact Hsf|exact Hg]).
    simpl. assert ([(name s, vs)] = [(name (reference_scenario cmp), ws)])
      as [= _ ->] by (etrans; [symmetry; exact Hvs|exact Hws]).
    done. }
  rewrite Hval in Hb.
  rewrite broadcast_op_column in Hb by done. cbn [mbind Result_bind] in Hb.
  rewrite broadcast_op_column in Hb by done. injection Hb as <-.
  cbn [columns]. rewrite map_map. cbn [fst snd]. split.
  - (* the reference's column exists *)
    destruct (Hhas (name (reference_scenario cmp))) as (p & Hp & Hpn).
    { apply sorted_elem. unfold column_labels. cbn [columns].
      apply list_elem_of_fmap. exists (name (reference_scenario cmp), ws).
      split; [done|]. apply elem_of_concat. exists [(name (reference_scenario cmp), ws)].
      split; [by left|]. apply list_elem_of_fmap. exists g.
      split; [done|].
      apply list_elem_of_lookup in Href as [i Hi].
      destruct (Hfrow _ _ Hi) as (f & Hf & Hsf).
      assert (Ok f = Ok g) as [= ->]
        by (etrans; [symmetry; exact Hsf|exact Hg]).
      by eapply list_elem_of_lookup_2. }
    eexists. apply list_elem_of_fmap. exists p. split; [|done].
    by rewrite Hpn.
  - intros vs (p & [= Hpn ->] & Hp)%list_elem_of_fmap i r x Hi.
    rewrite (Hown p Hp) by done.
    unfold summary_rows in Hi. rewrite Hws in Hi.
    apply lookup_zip_with_Some in Hi as (r' & x' & [= <- <-] & _ & Hx).
    exists (F64.div (F64.sub x x) x). split.
    + rewrite !lookup_zip_with, Hx. reflexivity.
    + split; [apply own_delta_zero|apply own_delta_of_zero].
Qed.

End ComparisonFacts.

(** ** Tables as shared objects: what a returned copy can reach *)

Section StoreFacts.
Import DateTime Table Schema Protocols ScenarioM Store.

Lemma fresh_not_in (h : heap) : h !! fresh (dom h) = None.
Proof. apply not_elem_of_dom. apply is_fresh. Qed.

Lemma agree_on_refl (h : heap) : agree_on h h.
Proof. by intros l _. Qed.

Lemma agree_on_insert (h0 h : heap) (l : loc) (o : obj) :
  l ∉ dom h0 → agree_on h0 h → agree_on h0 (<[l := o]> h).
Proof.
  intros Hl Hag l' Hl'. rewrite lookup_insert_ne; [by apply Hag|].
  intros ->. done.
Qed.

Lemma agree_on_dom (h0 h : heap) : agree_on h0 h → dom h0 ⊆ dom h.
Proof.
  intros Hag l Hl. apply elem_of_dom. rewrite (Hag l Hl).
  by apply elem_of_dom.
Qed.

Lemma agree_on_fresh (h0 h : heap) :
  agree_on h0 h → fresh (dom h) ∉ dom h0.
Proof.
  intros Hag Hin. apply (is_fresh (dom h)). by apply (agree_on_dom h0 h).
Qed.

Lemma read_column_agree (h0 h : heap) (p q : Label * loc → Prop)
    (x : Label * loc) (y : Label * list F64.t) :
  agree_on h0 h → read_column h0 x = Some y → read_column h x = Some y.
Proof.
  unfold read_column. intros Hag.
  destruct (h0 !! x.2) as [o|] eqn:Hx; [|done].
  rewrite (Hag x.2); [by rewrite Hx|]. apply elem_of_dom. by eexists.
Qed.

Lemma read_frame_agree (h0 h : heap) (l : loc) (t : TimeTable) :
  agree_on h0 h → read_frame h0 l = Some t → read_frame h l = Some t.
Proof.
  unfold read_frame. intros Hag.
  destruct (h0 !! l) as [[cells|ix cols|ix c b]|] eqn:Hl; try done.
  rewrite (Hag l) by (apply elem_of_dom; by eexists). rewrite Hl.
  destruct (mapM (read_column h0) cols) as [cols'|] eqn:Hm; [|done].
  intros [= <-].
  assert (mapM (read_column h) cols = Some cols') as ->; [|done].
  apply mapM_Some. apply mapM_Some in Hm.
  eapply Forall2_impl; [exact Hm|]. intros x y.
  by apply (read_column_agree h0 h (λ _, True) (λ _, True)).
Qed.

Lemma load_agree {M} (h0 h : heap) (o : ScenarioObj M) (sc : Scenario M) :
  agree_on h0 h → load h0 o = Some sc → load h o = Some sc.
Proof.
  unfold load. intros Hag Hload.
  repeat match type of Hload with
  | context [read_frame h0 ?l] =>
      let t := fresh "t" in let Ht := fresh "Ht" in
      destruct (read_frame h0 l) as [t|] eqn:Ht; [|done];
      rewrite (read_frame_agree h0 h l t Hag Ht); simpl in Hload |- *
  end.
  done.
Qed.

Lemma mutate_private (h0 h : heap) (r : loc) (m : mutation) :
  private h0 r h → private h0 r (mutate r h m).
Proof.
  intros Hp. pose proof Hp as (Hag & Hr & Hbufs). unfold mutate.
  destruct (h !! r) as [[cells|ix cols|ix c b]|] eqn:Hhr; try done.
  specialize (Hbufs ix cols eq_refl).
  destruct m as [j i v|new|ix'|c cells|j].
  - destruct (cols !! j) as [[c b]|] eqn:Hj; [|done].
    destruct (h !! b) as [[cells|?|?]|] eqn:Hb; try done.
    assert (b ∉ dom h0) as Hb0.
    { apply (Hbufs (c, b)). by eapply list_elem_of_lookup_2. }
    split; [by apply agree_on_insert|]. split; [done|].
    intros ix' cols'. destruct (decide (b = r)) as [->|Hne].
    + rewrite lookup_insert_eq. done.
    + rewrite lookup_insert_ne, Hhr by done. by intros [= <- <-].
  - split; [by apply agree_on_insert|]. split; [done|].
    intros ix' cols'. rewrite lookup_insert_eq. intros [= <- <-] [c b] Hq.
    apply elem_of_zip_r in Hq.
    apply list_elem_of_fmap in Hq as (q & -> & Hq). simpl. by apply Hbufs.
  - split; [by apply agree_on_insert|]. split; [done|].
    intros ix'' cols'. rewrite lookup_insert_eq. by intros [= <- <-].
  - assert (fresh (dom h) ∉ dom h0) as Hf by (by apply agree_on_fresh).
    split; [by do 2 (apply agree_on_insert; [done|])|]. split; [done|].
    intros ix' cols'. rewrite lookup_insert_eq. intros [= <- <-] p.
    intros [Hq|Hq]%elem_of_app; [by apply Hbufs|].
    apply list_elem_of_singleton in Hq. by subst.
  - split; [by apply agree_on_insert|]. split; [done|].
    intros ix' cols'. rewrite lookup_insert_eq. intros [= <- <-] p Hq.
    apply Hbufs. eapply elem_of_sublist; [done|apply sublist_delete].
Qed.

Lemma mutate_all_private (h0 h : heap) (r : loc) (ms : list mutation) :
  private h0 r h → private h0 r (mutate_all r ms h).
Proof.
  unfold mutate_all. revert h. induction ms as [|m ms IH]; intros h Hp;
    [done|]. simpl. apply IH. by apply mutate_private.
Qed.

End StoreFacts.

Section AccessorFacts.
Import DateTime Table Schema Protocols ScenarioM Store.
Context `{SiteSchema} {M : Type}.

Lemma read_column_label (h : heap) (x : Label * loc) (y : Label * list F64.t) :
  read_column h x = Some y → y.1 = x.1 ∧ h !! x.2 = Some (Buffer y.2).
Proof.
  unfold read_column. destruct (h !! x.2) as [[cells| |]|]; try done.
  by intros [= <-].
Qed.

Lemma filter_read_columns (h : heap) (c : Label) (cols : list (Label * loc))
    (cols' : list (Label * list F64.t)) :
  Forall2 (λ x y, read_column h x = Some y) cols cols' →
  Forall2 (λ x y, read_column h x = Some y)
    (filter (λ p, p.1 = c) cols) (filter (λ p, p.1 = c) cols').
Proof.
  induction 1 as [|x y cols cols' Hxy _ IH]; [constructor|].
  destruct (read_column_label _ _ _ Hxy) as [Hl _].
  rewrite !filter_cons. destruct (decide (x.1 = c)) as [Hx|Hx].
  - rewrite decide_True by congruence. by constructor.
  - rewrite decide_False by congruence. done.
Qed.

Lemma demand_column_ref_spec (o : ScenarioObj M) (h : heap)
    (sc : Scenario M) (col : Label) :
  load h o = Some sc →
  match demand_column_ref o col h with
  | Ok (r, h') =>
      ∃ t, demand_column sc col = Ok t ∧ read_frame h' r = Some t ∧
           private h r h'
  | Raise e => demand_column sc col = Raise e
  end.
Proof.
  intros Hload.
  assert (read_frame h (o_site_energy_demand o)
          = Some (site_energy_demand sc)) as Hsed.
  { unfold load in Hload.
    destruct (read_frame h (o_site_energy_demand o)); [|done].
    simpl in Hload.
    repeat match type of Hload with
    | context [read_frame h ?l] =>
        destruct (read_frame h l); [|done]; simpl in Hload
    end.
    by injection Hload as <-. }
  unfold read_frame in Hsed.
  destruct (h !! o_site_energy_demand o) as [[?|ix cols|? ? ?]|] eqn:Hfr;
    try done.
  destruct (mapM (read_column h) cols) as [cols'|] eqn:Hm; [|done].
  injection Hsed as Hsed. apply mapM_Some in Hm.
  pose proof (filter_read_columns h col _ _ Hm) as Hfil.
  unfold demand_column_ref, demand_column, getitem_ref, getitem.
  rewrite <- Hsed. cbn [columns index].
  unfold mbind at 1 2 3, St_bind, get_frame. rewrite Hfr.
  destruct (filter (λ p, p.1 = col) cols) as [|[c0 b] [|q qs]].
  - apply Forall2_nil_inv_l in Hfil as ->. done.
  - apply Forall2_cons_inv_l in Hfil as ([c1 cells] & k & Hr & Hk & ->).
    apply Forall2_nil_inv_l in Hk as ->.
    apply read_column_label in Hr as [_ Hb]. simpl in Hb.
    unfold alloc, to_frame_ref.
    set (l1 := fresh (dom h)).
    set (h1 := <[l1 := SeriesObj ix col b]> h).
    assert (h1 !! l1 = Some (SeriesObj ix col b)) as ->
      by apply lookup_insert_eq.
    unfold alloc.
    set (l2 := fresh (dom h1)).
    set (h2 := <[l2 := Frame ix [(col, b)]]> h1).
    unfold copy_ref, mbind, St_bind, get_frame.
    assert (h2 !! l2 = Some (Frame ix [(col, b)])) as ->
      by apply lookup_insert_eq.
    cbn [copy_columns]. unfold mbind, St_bind, get_buffer, alloc, mret, St_ret.
    assert (agree_on h h1) as Hag1.
    { apply agree_on_insert; [apply is_fresh|apply agree_on_refl]. }
    assert (agree_on h h2) as Hag2.
    { apply agree_on_insert; [by apply agree_on_fresh|done]. }
    rewrite (Hag2 b) by (apply elem_of_dom; by eexists). rewrite Hb.
    set (l3 := fresh (dom h2)).
    set (h3 := <[l3 := Buffer cells]> h2).
    set (l4 := fresh (dom h3)).
    assert (agree_on h h3) as Hag3.
    { apply agree_on_insert; [by apply agree_on_fresh|done]. }
    assert (l3 ≠ l4) as Hne.
    { intros Heq. apply (is_fresh (dom h3)). fold l4. rewrite <- Heq.
      apply elem_of_dom. unfold h3. rewrite lookup_insert_eq. by eexists. }
    eexists. split; [done|]. split.
    + unfold read_frame. rewrite lookup_insert_eq. cbn [mapM].
      unfold read_column. cbn [snd fst].
      rewrite lookup_insert_ne by done. unfold h3.
      rewrite lookup_insert_eq. reflexivity.
    + split; [|split].
      * apply agree_on_insert; [by apply agree_on_fresh|done].
      * by apply agree_on_fresh.
      * intros ix' cols''. rewrite lookup_insert_eq. intros [= <- <-] p Hp.
        apply list_elem_of_singleton in Hp. subst p. simpl.
        by apply agree_on_fresh.
  - apply Forall2_cons_inv_l in Hfil as (y & k & _ & Hk & ->).
    apply Forall2_cons_inv_l in Hk as (y' & k' & _ & _ & ->).
    destruct y as [c1 cells]. done.
Qed.

(** C10. On a scenario whose tables are in the store, each of the four
    accessors either raises exactly when the value-level accessor does,
    or returns a new table that reads as the accessor's value and after
    whose mutation, in any way and any number of times, the scenario
    still reads as it did: its site energy demand, and every table a
    metric is computed from, is unchanged. *)
Theorem accessors_return_private_copies (o : ScenarioObj M) (h : heap)
    (sc : Scenario M) :
  load h o = Some sc →
  returns_private_copy import_demand_ref import_demand o h sc ∧
  returns_private_copy export_demand_ref export_demand o h sc ∧
  returns_private_copy avoided_import_ref avoided_import o h sc ∧
  returns_private_copy onsite_generation_ref onsite_generation o h sc.
Proof.
  intros Hload.
  assert (∀ col, returns_private_copy (λ o, demand_column_ref o col)
                   (λ sc, demand_column sc col) o h sc) as Hcol.
  { intros col. unfold returns_private_copy.
    pose proof (demand_column_ref_spec o h sc col Hload) as Hspec.
    destruct (demand_column_ref o col h) as [[r h']|e]; [|done].
    destruct Hspec as (t & Ht & Hr & Hpriv). split; [by exists t|].
    intros ms. destruct (mutate_all_private h h' r ms Hpriv) as (Hag & _).
    pose proof (load_agree _ _ _ _ Hag Hload) as Hload'. split; [done|].
    unfold load in Hload'.
    destruct (read_frame _ (o_site_energy_demand o)); [|done].
    simpl in Hload'.
    repeat match type of Hload' with
    | context [read_frame ?g ?l] =>
        destruct (read_frame g l); [|done]; simpl in Hload'
    end.
    by injection Hload' as <-. }
  repeat split; apply Hcol.
Qed.

End AccessorFacts.

(** ** The properties on the small site *)

Section Instances.
Import DateTime Enums Table Schema Protocols SiteM ScenarioM Comparison
  Store Examples.
#[local] Existing Instance spec_schema.
#[local] Existing Instance plain_lib.



(** The net demand [-5, 0, 5] splits into import [0, 0, 5] and export
    [5, 0, 0]; the export zeros are negative zeros. *)
Example import_export_small :
  get_import_and_export_demand small_site (column_of ("net", "kWh") [-5; 0; 5])
  = Ok (column_of IMPORT_ELECTRICITY_DEMAND [0; 0; 5],
        mk_DataFrame three_rows
          [(EXPORT_ELECTRICITY_DEMAND,
            [F64.of_Z 5; F64.opp F64.zero; F64.opp F64.zero])]).
Proof. reflexivity. Qed.

Lemma default_emission_factor_table_witness :
  index (import_electricity_emission_factor small_scenario)
  = index (import_electricity_prices small_scenario) ∧
  len (import_electricity_emission_factor small_scenario)
  = len (import_electricity_prices small_scenario) ∧
  shape1 (import_electricity_emission_factor small_scenario) = 1%nat ∧
  shape1 (import_electricity_prices small_scenario) = 1%nat ∧
  columns (import_electricity_emission_factor small_scenario)
  = [(GHG_INTENSITY_IMPORT_ELECTRICITY,
      replicate (len (import_electricity_prices small_scenario))
        (S754_finite false 5404319552844595 (-55)))].
Proof.
  apply (default_emission_factor_table raw_scenario small_scenario).
  - vm_compute. reflexivity.
  - reflexivity.
Defined.

Lemma summary_peaks_and_sums_witness :
  ∃ imp exp max_imp max_exp,
    getitem (site_energy_demand small_scenario) IMPORT_ELECTRICITY_DEMAND
    = Ok imp ∧
    getitem (site_energy_demand small_scenario) EXPORT_ELECTRICITY_DEMAND
    = Ok exp ∧
    is_max imp max_imp ∧ is_max exp max_exp ∧
    one_column (name small_scenario) small_summary ∧
    row_value (summary_rows small_summary) PEAK_ELECTRICITY_IMPORT
      (F64.mul max_imp (F64.of_Z 2)) ∧
    row_value (summary_rows small_summary) PEAK_ELECTRICITY_EXPORT
      (F64.mul max_exp (F64.of_Z 2)) ∧
    ∀ j c cells,
      columns (summary_results small_scenario) !! j = Some (c, cells) →
      c ∉ overlay_rows small_scenario →
      ∃ s, is_sum cells s ∧ summary_rows small_summary !! j = Some (c, s).
Proof.
  apply (summary_peaks_and_sums (laws := plain_laws)
           small_scenario small_summary).
  - vm_compute. reflexivity.
  - apply (bool_decide_unpack _). vm_compute. exact I.
  - apply (bool_decide_unpack _). vm_compute. exact I.
Defined.

(** A largest half-hourly import of 5 kWh is reported as a peak of 10. *)
Example peak_of_five :
  peak_of (column_of IMPORT_ELECTRICITY_DEMAND [2; 5; 3]) = Ok (F64.of_Z 10).
Proof. reflexivity. Qed.

Example small_summary_peaks :
  map (λ r, loc_get_cell small_summary r "reference")
    [PEAK_ELECTRICITY_IMPORT; PEAK_ELECTRICITY_EXPORT;
     IMPORT_ELECTRICITY_DEMAND; OPEX]
  = [Ok (F64.of_Z 8); Ok (F64.of_Z 10); Ok (F64.of_Z 7); Ok (F64.of_Z 28)].
Proof. vm_compute. reflexivity. Qed.

(** C2 fails as stated: compared with itself, the small scenario has
    NaN, not zero, in its own column wherever its own figure is zero (no
    additional demand, no export revenue). *)
Lemma own_delta_counterexample :
  reference_scenario self_comparison ∈ list_scenarios self_comparison ∧
  ∃ t vs v,
    comparison_results self_comparison = Ok t ∧
    (name (reference_scenario self_comparison), vs) ∈ columns t ∧
    v ∈ vs ∧ F64.is_zero v = false.
Proof.
  split; [left|].
  exists self_comparison_table. eexists. exists F64.nan.
  split; [vm_compute; reflexivity|].
  split; [left|]. split; [|reflexivity].
  do 3 right. left.
Qed.

Lemma own_delta_column_witness :
  ∃ ref_summary,
    get_summary_results (reference_scenario self_comparison)
    = Ok ref_summary ∧
    (∃ vs, (name (reference_scenario self_comparison), vs)
           ∈ columns self_comparison_table) ∧
    ∀ vs, (name (reference_scenario self_comparison), vs)
          ∈ columns self_comparison_table →
      ∀ i r x, summary_rows ref_summary !! i = Some (r, x) →
        ∃ v, vs !! i = Some v ∧
          (F64.is_finite x = true → F64.is_zero x = false →
             F64.is_zero v = true) ∧
          (F64.is_zero x = true → v = F64.nan).
Proof.
  apply (own_delta_column self_comparison self_comparison_table).
  - left.
  - intros s Hs _. by apply list_elem_of_singleton in Hs.
  - intros s f g Hs Hf Hg. apply list_elem_of_singleton in Hs. subst s.
    assert (Ok f = Ok g) as [= ->] by (etrans; [symmetry; exact Hf|exact Hg]).
    reflexivity.
  - vm_compute. reflexivity.
Defined.

(** The conditions on the compared scenarios matter.  With the same two
    technologies attached in a different order, the reference's rows are
    read against another scenario's row order and its own column is not
    zero; with different technologies the comparison raises. *)
Example comparison_row_order :
  (t ← comparison_results
         (mk_ScenarioComparison ev_then_pv [pv_then_ev; ev_then_pv]);
   Ok (drop 14 (labels (index t)), (λ p, (p.1, drop 14 p.2)) <$> columns t))
  = Ok ([("PV_CAPEX", "GBP"); ("EV_CAPEX", "GBP"); ("OPEX", "GBP");
         ("PV_CAPACITY_INSTALLED", "kW"); ("EV_CAPACITY_INSTALLED", "kW")],
        [("a", [F64.of_Z 1; F64.dec (-5) 1; F64.zero;
                F64.div (F64.of_Z (-4)) (F64.of_Z 7);
                F64.div (F64.of_Z 4) (F64.of_Z 3)]);
         ("b", [F64.of_Z 1; F64.dec (-5) 1; F64.zero;
                F64.div (F64.of_Z (-4)) (F64.of_Z 7);
                F64.div (F64.of_Z 4) (F64.of_Z 3)])]) ∧
  comparison_results
    (mk_ScenarioComparison small_scenario [pv_then_ev; small_scenario])
  = Raise ValueError.
Proof. split; vm_compute; reflexivity. Qed.

(** Two compared scenarios under the reference's name: the columns under
    that name are those of both, and the other's is not zero (row 6 is
    the import cost, doubled by the doubled prices). *)
Example comparison_shared_name :
  (t ← comparison_results
         (mk_ScenarioComparison small_scenario [small_scenario; pricier]);
   Ok ((λ p, (p.1, p.2 !! 6%nat)) <$> columns t))
  = Ok [("reference", Some F64.zero); ("reference", Some (F64.of_Z 1));
        ("reference", Some F64.zero); ("reference", Some (F64.of_Z 1))].
Proof. vm_compute. reflexivity. Qed.

(** The site's own results are not reached: the write of the avoided
    import raises. *)
Example small_site_results :
  Site_export_results small_site = Raise IndexError.
Proof. vm_compute. reflexivity. Qed.

Lemma accessors_return_private_copies_witness :
  returns_private_copy import_demand_ref import_demand
    small_object small_heap small_loaded ∧
  returns_private_copy export_demand_ref export_demand
    small_object small_heap small_loaded ∧
  returns_private_copy avoided_import_ref avoided_import
    small_object small_heap small_loaded ∧
  returns_private_copy onsite_generation_ref onsite_generation
    small_object small_heap small_loaded.
Proof.
  apply (accessors_return_private_copies small_object small_heap small_loaded).
  vm_compute. reflexivity.
Defined.

(** Writing through the returned copy leaves the scenario's table as it
    was; the same write through the uncopied view does not. *)
Example copy_against_view :
  let write r h := mutate r h (SetCell 0 0 (F64.of_Z 9)) in
  let demand h :=
    t ← read_frame h (o_site_energy_demand small_object);
    head (columns t) in
  (match import_demand_ref small_object small_heap with
   | Ok (r, h) => demand (write r h)
   | Raise _ => None
   end = Some (IMPORT_ELECTRICITY_DEMAND, map F64.of_Z [0; 3; 4])) ∧
  (match demand_column_view small_object IMPORT_ELECTRICITY_DEMAND small_heap with
   | Ok (r, h) => demand (write r h)
   | Raise _ => None
   end = Some (IMPORT_ELECTRICITY_DEMAND, map F64.of_Z [9; 3; 4])).
Proof. split; vm_compute; reflexivity. Qed.

End Instances.

(** * Further properties *)

(** ** Occupancy schedule: the operators, any map, both halves *)

Section ScheduleMore.
Import DateTime Table Functions Schedule.

Lemma or_operator_length (list_1 list_2 : list bool) :
  length (or_operator list_1 list_2)
  = Nat.min (length list_1) (length list_2).
Proof. unfold or_operator. by rewrite length_map, length_zip_with. Qed.

Lemma and_operator_length (list_1 list_2 : list bool) :
  length (and_operator list_1 list_2)
  = Nat.min (length list_1) (length list_2).
Proof. unfold and_operator. by rewrite length_map, length_zip_with. Qed.

(** X1. [or_operator] and [and_operator] pair their arguments position
    by position and stop at the end of the shorter one. *)
Theorem operators_pairwise (list_1 list_2 : list bool) :
  length (or_operator list_1 list_2)
  = Nat.min (length list_1) (length list_2) ∧
  length (and_operator list_1 list_2)
  = Nat.min (length list_1) (length list_2) ∧
  ∀ i, or_operator list_1 list_2 !! i
       = (a ← list_1 !! i; b ← list_2 !! i; Some (a || b)) ∧
       and_operator list_1 list_2 !! i
       = (a ← list_1 !! i; b ← list_2 !! i; Some (a && b)).
Proof.
  unfold or_operator, and_operator.
  rewrite !length_map, !length_zip_with. do 2 (split; [done|]).
  intros i. rewrite !list_lookup_fmap, !lookup_zip_with.
  destruct (list_1 !! i) as [a|]; [|done].
  destruct (list_2 !! i) as [b|]; done.
Qed.

Lemma or_operator_false {A} (f : A → bool) (l : list A) :
  or_operator (map f l) (and_operator (map (λ _, true) l) (map (λ _, false) l))
  = map f l.
Proof.
  rewrite and_operator_map, or_operator_map. apply map_ext. intros a.
  by rewrite orb_false_r.
Qed.

Lemma get_filter_field (d : OccupancyDict) (key : DateTimeSchema)
    (fld : TimeFeatures → Z) (dataf : list TimeFeatures) :
  calendar_column key dataf = Ok (map fld dataf) →
  get_filter (mk_OccupancySchedule (Some d) key) dataf
  = Ok (map (λ r, existsb (λ p, (f_DAYOFWEEK r =? p.1)
                                && in_hours p.2 (fld r)) d) dataf).
Proof.
  intros Hcol. unfold get_filter. cbn [occupancy_dict timestep].
  rewrite replicate_map, Hcol.
  rewrite (foldR_flags _
    (λ p r, (f_DAYOFWEEK r =? p.1) && in_hours p.2 (fld r))).
  - f_equal.
  - intros acc [day hours]. cbn [calendar_column mbind Result_bind].
    rewrite (foldR_flags _ (λ p x, (p.1 <=? fld x) && (fld x <=? p.2))).
    + cbn [mbind Result_bind]. rewrite map_map.
      rewrite and_operator_map, or_operator_map. f_equal.
    + intros acc' [s e]. cbn [mbind Result_bind]. rewrite !map_map.
      rewrite and_operator_map, or_operator_map. f_equal.
Qed.

Lemma calendar_column_field (key : DateTimeSchema)
    (dataf : list TimeFeatures) (times : list Z) :
  calendar_column key dataf = Ok times →
  ∃ fld, times = map fld dataf ∧
         ∀ rows, calendar_column key rows = Ok (map fld rows).
Proof.
  destruct key; simpl; try discriminate; intros [= <-]; by eexists.
Qed.

(** X2. For any occupancy map and any timestep column that holds
    integers, [get_filter] returns one flag per row, and a row is flagged
    exactly when one of the map's entries for the row's day of week has
    an interval that holds, bounds included, the row's time index. *)
Theorem get_filter_rows (d : OccupancyDict) (key : DateTimeSchema)
    (dataf : list TimeFeatures) (times : list Z) :
  calendar_column key dataf = Ok times →
  ∃ filt,
    get_filter (mk_OccupancySchedule (Some d) key) dataf = Ok filt ∧
    length filt = length dataf ∧
    ∀ i r x, dataf !! i = Some r → times !! i = Some x →
      ∃ b, filt !! i = Some b ∧
           (b = true ↔
            ∃ day hours s e, (day, hours) ∈ d ∧ (s, e) ∈ hours ∧
              f_DAYOFWEEK r = day ∧ s ≤ x ≤ e).
Proof.
  intros Hcol.
  destruct (calendar_column_field _ _ _ Hcol) as (fld & -> & Hfld).
  eexists. split; [by apply get_filter_field|].
  split; [by rewrite length_map|].
  intros i r x Hr Hx. change (map fld dataf) with (fld <$> dataf) in Hx.
  rewrite list_lookup_fmap, Hr in Hx. rewrite list_lookup_fmap, Hr.
  injection Hx as <-. simpl. eexists. split; [done|].
  rewrite existsb_exists. split.
  - intros ([day hours] & Hin & Hp). apply andb_true_iff in Hp as [Hd Hh].
    apply Z.eqb_eq in Hd. unfold in_hours in Hh.
    apply existsb_exists in Hh as ([s e] & Hse & Hb).
    apply andb_true_iff in Hb as [Hs He].
    apply Z.leb_le in Hs, He. simpl in *.
    exists day, hours, s, e. by rewrite !list_elem_of_In.
  - intros (day & hours & s & e & Hin & Hse & Hd & Hx).
    exists (day, hours). rewrite <- list_elem_of_In. split; [done|].
    apply andb_true_iff. split; [by apply Z.eqb_eq|].
    unfold in_hours. apply existsb_exists. exists (s, e).
    rewrite <- list_elem_of_In. split; [done|]. simpl.
    apply andb_true_iff. split; apply Z.leb_le; lia.
Qed.

Lemma foldR_invariant {A S} (P : S → Prop) (F : S → A → Result S)
    (l : list A) (s r : S) :
  (∀ s x s', P s → F s x = Ok s' → P s') →
  P s → foldR F l s = Ok r → P r.
Proof.
  intros HF. revert s. induction l as [|x l IH]; intros s Hs; simpl.
  - by intros [= <-].
  - destruct (F s x) as [s'|e] eqn:E; simpl; [|done]. eauto.
Qed.

Lemma calendar_column_length (key : DateTimeSchema)
    (dataf : list TimeFeatures) (times : list Z) :
  calendar_column key dataf = Ok times → length times = length dataf.
Proof.
  intros Hc. destruct (calendar_column_field _ _ _ Hc) as (fld & -> & _).
  by rewrite length_map.
Qed.

Lemma get_filter_length (self : OccupancySchedule)
    (dataf : list TimeFeatures) (filt : list bool) :
  get_filter self dataf = Ok filt → length filt = length dataf.
Proof.
  unfold get_filter. destruct (occupancy_dict self) as [d|]; [|done].
  apply (foldR_invariant (λ l, length l = length dataf)).
  - intros acc [day hours] acc' Hacc.
    destruct (calendar_column DAYOFWEEK dataf) as [days|] eqn:Ed; [|done].
    cbn [mbind Result_bind].
    destruct (foldR _ hours _) as [tf|] eqn:Et; [|done].
    cbn [mbind Result_bind]. intros [= <-].
    assert (length tf = length dataf) as Htf.
    { revert Et. apply (foldR_invariant (λ l, length l = length dataf)).
      - intros a [s e] a' Ha.
        destruct (calendar_column (timestep self) dataf) as [col|] eqn:Ec;
          [|done].
        cbn [mbind Result_bind]. intros [= <-].
        apply calendar_column_length in Ec.
        rewrite or_operator_length, and_operator_length, !length_map. lia.
      - by rewrite length_replicate. }
    apply calendar_column_length in Ed.
    rewrite or_operator_length, and_operator_length, !length_map. lia.
  - by rewrite length_replicate.
Qed.

Lemma mask_select_halves {T} (m : list bool) (l : list T) :
  length m = length l →
  mask_select m l ++ mask_select (map negb m) l ≡ₚ l ∧
  mask_select m l `sublist_of` l ∧
  mask_select (map negb m) l `sublist_of` l.
Proof.
  revert l. induction m as [|b m IH]; intros [|x l] Hl; try done.
  simpl in Hl. destruct (IH l) as (Hp & H1 & H2); [lia|].
  destruct b; simpl.
  - split; [by rewrite Hp|]. split; by constructor.
  - split; [by rewrite <- Permutation_middle, Hp|]. split; by constructor.
Qed.

(** X3. [filter_df] with [occupied=True] and with [occupied=False] split
    the rows of the table: each result keeps the table's row order, and
    together they hold every row once.  When the filter cannot be
    computed both calls raise its error. *)
Theorem filter_df_halves (self : OccupancySchedule)
    (dataf : list TimeFeatures) :
  match get_filter self dataf with
  | Ok _ =>
      ∃ occ unocc,
        filter_df self dataf true = Ok occ ∧
        filter_df self dataf false = Ok unocc ∧
        occ ++ unocc ≡ₚ dataf ∧
        occ `sublist_of` dataf ∧ unocc `sublist_of` dataf
  | Raise e =>
      filter_df self dataf true = Raise e ∧
      filter_df self dataf false = Raise e
  end.
Proof.
  unfold filter_df.
  destruct (get_filter self dataf) as [filt|e] eqn:E; [|done].
  apply get_filter_length in E. cbn [mbind Result_bind].
  do 2 eexists. do 2 (split; [reflexivity|]).
  by apply mask_select_halves.
Qed.

End ScheduleMore.

(** ** Calendar columns: ranges and seasons *)

Section CalendarMore.
Import DateTime Enums Table Functions.

Lemma ts_in_day_range (t : Timestamp) : 0 ≤ ts_in_day t < us_per_day.
Proof. unfold ts_in_day. apply Z.mod_pos_bound. reflexivity. Qed.

Lemma ts_hour_range (t : Timestamp) : 0 ≤ ts_hour t ≤ 23.
Proof.
  unfold ts_hour. pose proof (ts_in_day_range t) as Hd.
  change us_per_day with (24 * us_per_hour) in Hd.
  assert (0 < us_per_hour) as Hh by reflexivity.
  split.
  - apply Z.div_pos; lia.
  - apply Z.lt_succ_r. apply Z.div_lt_upper_bound; lia.
Qed.

Lemma get_season_number (month : Z) :
  season_dict (get_season month)
  = Ok (if (3 <=? month) && (month <=? 5) then 2
        else if (6 <=? month) && (month <=? 8) then 3
        else if (9 <=? month) && (month <=? 11) then 4
        else 1).
Proof.
  unfold get_season.
  destruct (_ && _); [done|]. destruct (_ && _); [done|].
  destruct (_ && _); done.
Qed.

(** X4. [add_time_features] never fails on the season lookup, and in
    every row it appends: the hour lies in 0..23, the day of week in
    0..6, the half-hour index in 0..47; the day flag is "weekday" for the
    days 0..4 and "weekend" for 5 and 6; the season is SPRING (number 2)
    for the months 3..5, SUMMER (3) for 6..8, AUTUMN (4) for 9..11 and
    WINTER (1) for every other month. *)
Theorem add_time_features_rows {C} (dataf : DataFrame Timestamp C) :
  ∃ fs, add_time_features dataf = Ok (mk_FeatureFrame dataf fs) ∧
    ∀ i t, labels (index dataf) !! i = Some t →
      ∃ r, fs !! i = Some r ∧
        0 ≤ f_HOUR r ≤ 23 ∧ 0 ≤ f_DAYOFWEEK r ≤ 6 ∧
        0 ≤ f_HALFHOUR r ≤ 47 ∧
        f_WEEKDAYFLAG r
        = (if bool_decide (f_DAYOFWEEK r ≤ 4) then "weekday"
           else "weekend") ∧
        f_MONTH r = ts_month t ∧
        (f_SEASON r, f_SEASON_NUM r)
        = (if bool_decide (3 ≤ f_MONTH r ≤ 5) then ("SPRING", 2)
           else if bool_decide (6 ≤ f_MONTH r ≤ 8) then ("SUMMER", 3)
           else if bool_decide (9 ≤ f_MONTH r ≤ 11) then ("AUTUMN", 4)
           else ("WINTER", 1)).
Proof.
  unfold add_time_features.
  destruct (mapR_total row_features (labels (index dataf))) as [fs Hfs].
  { intros t _. destruct (row_features_total t) as (r & Hr & _). eauto. }
  rewrite Hfs. cbn [mbind Result_bind]. exists fs. split; [done|].
  destruct (mapR_lookup _ _ _ Hfs) as [_ Hrows].
  intros i t Ht. destruct (Hrows _ _ Ht) as (r & Hr & Hrt).
  exists r. split; [done|].
  unfold row_features in Hrt. rewrite get_season_number in Hrt.
  cbn [mbind Result_bind] in Hrt. injection Hrt as <-.
  cbn [f_HOUR f_DAYOFWEEK f_HALFHOUR f_WEEKDAYFLAG f_MONTH f_SEASON
       f_SEASON_NUM].
  pose proof (ts_hour_range t) as Hh.
  pose proof (ts_minute_range t) as Hm.
  assert (0 ≤ ts_dayofweek t < 7) as Hd.
  { unfold ts_dayofweek. apply Z.mod_pos_bound. lia. }
  assert (0 ≤ ts_minute t `div` 30 ≤ 1) as Hq.
  { split; [apply Z.div_pos; lia|].
    apply Z.lt_succ_r. apply Z.div_lt_upper_bound; lia. }
  split; [done|]. split; [lia|]. split; [lia|]. split.
  { destruct (Z.ltb_spec (ts_dayofweek t) 5).
    - by rewrite bool_decide_eq_true_2 by lia.
    - by rewrite bool_decide_eq_false_2 by lia. }
  split; [done|]. unfold get_season.
  generalize (ts_month t). intros m.
  repeat case_bool_decide;
    repeat match goal with
           | |- context [?a <=? ?b] => destruct (Z.leb_spec a b)
           end; simpl; try done; lia.
Qed.

(** ** remove_zero_values *)

Lemma eqb_nan_zero : F64.eqb F64.nan (F64.of_Z 0) = false.
Proof. reflexivity. Qed.

Lemma blank_zero_twice (x : F64.t) :
  F64.eqb (if F64.eqb x (F64.of_Z 0) then F64.nan else x) (F64.of_Z 0)
  = false.
Proof.
  destruct (F64.eqb x (F64.of_Z 0)) eqn:E; [apply eqb_nan_zero|done].
Qed.

Lemma zip_with_flags_same {T} (f : T → bool) (g : T → T) (vs : list T) :
  zip_with (λ (b : bool) x, if b then g x else x) (map f vs) vs
  = map (λ x, if f x then g x else x) vs.
Proof. induction vs; simpl; congruence. Qed.

Lemma remove_zero_values_columns {A C} `{EqDecision A, EqDecision C}
    (dataf : DataFrame A C) :
  remove_zero_values dataf
  = Ok (mk_DataFrame (index dataf)
          (map (λ p, (p.1, map (λ x, if F64.eqb x (F64.of_Z 0)
                                     then F64.nan else x) p.2))
               (columns dataf))).
Proof.
  unfold remove_zero_values, loc_set_mask_scalar, same_shape, values_test,
    shape1. cbn [nd_rows nd_cols].
  rewrite bool_decide_eq_true_2
    by (by rewrite length_map, length_fmap).
  do 2 f_equal. induction (columns dataf) as [|[c vs] l IH]; [done|].
  cbn [fmap list_fmap map zip_with fst snd] in *. rewrite IH. do 2 f_equal.
  apply (zip_with_flags (λ x, F64.eqb x (F64.of_Z 0)) F64.nan).
Qed.

(** X5. On a one-column table, [remove_zero_values] returns a table on
    the same rows under the same label in which no cell compares equal
    to zero: a cell that was zero (of either sign) holds NaN, every
    other cell, NaN cells included, is kept.  Applying it again changes
    nothing. *)
Theorem remove_zero_values_blanks {A C} `{EqDecision A, EqDecision C}
    (ix : Index A) (c : C) (vs : list F64.t) :
  ∃ ws,
    remove_zero_values (mk_DataFrame ix [(c, vs)])
    = Ok (mk_DataFrame ix [(c, ws)]) ∧
    length ws = length vs ∧
    (∀ i x, vs !! i = Some x →
       ∃ y, ws !! i = Some y ∧
         F64.eqb y (F64.of_Z 0) = false ∧
         (F64.is_zero x = true → y = F64.nan) ∧
         (F64.is_zero x = false → y = x)) ∧
    remove_zero_values (mk_DataFrame ix [(c, ws)])
    = Ok (mk_DataFrame ix [(c, ws)]).
Proof.
  exists (map (λ x, if F64.eqb x (F64.of_Z 0) then F64.nan else x) vs).
  split; [by rewrite remove_zero_values_columns|].
  split; [by rewrite length_map|].
  split.
  - intros i x Hx. eexists.
    change (map ?f vs) with (f <$> vs).
    rewrite list_lookup_fmap, Hx. split; [reflexivity|].
    split; [apply blank_zero_twice|].
    unfold F64.is_zero. change (F64.of_Z 0) with F64.zero.
    split; intros ->; done.
  - rewrite remove_zero_values_columns. cbn [index columns map fst snd].
    do 4 f_equal. rewrite map_map. apply map_ext. intros x.
    by rewrite blank_zero_twice.
Qed.

End CalendarMore.

(** ** Enumerations: looking a member up by its value *)

Section EnumsMore.
Import Enums.





End EnumsMore.

(** ** Site: dictionaries per technology *)

Section DictFacts.
Import Enums Table Protocols SiteM.

Lemma dict_set_keys (d : TechDict) (k : TechnologyType) (v : F64.t) :
  (dict_set d k v).*1 = add_key (d.*1) k.
Proof.
  unfold add_key. induction d as [|[k' v'] d IH]; [done|].
  cbn [dict_set fmap list_fmap fst]. destruct (decide (k' = k)) as [->|Hne].
  - by rewrite bool_decide_eq_true_2 by left.
  - cbn [fmap list_fmap fst]. rewrite IH.
    destruct (bool_decide (k ∈ d.*1)) eqn:E.
    + apply bool_decide_eq_true in E.
      by rewrite bool_decide_eq_true_2 by (by right).
    + apply bool_decide_eq_false in E.
      rewrite bool_decide_eq_false_2; [done|].
      intros [?|?]%elem_of_cons; congruence.
Qed.

Lemma dict_get_set (d : TechDict) (k k' : TechnologyType) (v : F64.t) :
  dict_get (dict_set d k v) k'
  = if decide (k' = k) then Some v else dict_get d k'.
Proof.
  unfold dict_get. induction d as [|[k0 v0] d IH]; cbn [dict_set find fst].
  - destruct (decide (k' = k)) as [->|Hne].
    + by rewrite bool_decide_eq_true_2.
    + by rewrite bool_decide_eq_false_2.
  - destruct (decide (k0 = k)) as [->|Hne0]; cbn [find fst].
    + destruct (decide (k' = k)) as [->|Hne].
      * by rewrite bool_decide_eq_true_2.
      * by rewrite !bool_decide_eq_false_2.
    + destruct (decide (k0 = k')) as [->|Hne1].
      * rewrite bool_decide_eq_true_2 by done.
        by rewrite decide_False.
      * rewrite bool_decide_eq_false_2 by done. apply IH.
Qed.

Lemma add_key_fold (ks l : list TechnologyType) :
  NoDup ks →
  NoDup (foldl add_key ks l) ∧
  ∀ k, k ∈ foldl add_key ks l ↔ k ∈ ks ∨ k ∈ l.
Proof.
  revert ks. induction l as [|x l IH]; intros ks Hnd; cbn [foldl].
  - split; [done|]. intros k. rewrite elem_of_nil. tauto.
  - assert (NoDup (add_key ks x) ∧ ∀ k, k ∈ add_key ks x ↔ k ∈ ks ∨ k = x)
      as [Hnd' Hin'].
    { unfold add_key. case_bool_decide as Hx.
      - split; [done|]. intros k. split; [tauto|]. by intros [?| ->].
      - split.
        + apply NoDup_app. split; [done|]. split; [|apply NoDup_singleton].
          intros k Hk ->%list_elem_of_singleton. done.
        + intros k. rewrite elem_of_app, list_elem_of_singleton. tauto. }
    destruct (IH _ Hnd') as [Hnd'' Hin'']. split; [done|].
    intros k. rewrite Hin'', Hin', elem_of_cons. tauto.
Qed.

Lemma store_fold_keys g (c d : TechDict) :
  (foldl (store g) c d).*1 = foldl add_key (c.*1) (d.*1).
Proof.
  revert c. induction d as [|p d IH]; intros c; [done|].
  cbn [foldl fmap list_fmap]. rewrite IH. unfold store.
  by rewrite dict_set_keys.
Qed.

Lemma dict_get_None (d : TechDict) (k : TechnologyType) :
  k ∉ d.*1 → dict_get d k = None.
Proof.
  unfold dict_get. induction d as [|[k0 v0] d IH]; [done|].
  cbn [fmap list_fmap fst find]. intros Hk.
  apply not_elem_of_cons in Hk as [Hne Hk].
  rewrite bool_decide_eq_false_2 by done. by apply IH.
Qed.

Lemma store_fold_get g (c d : TechDict) (k : TechnologyType) :
  NoDup (d.*1) →
  dict_get (foldl (store g) c d) k
  = match dict_get d k with
    | Some v => Some (g (dict_get c k) v)
    | None => dict_get c k
    end.
Proof.
  revert c. induction d as [|[k0 v0] d IH]; intros c Hnd; [done|].
  cbn [fmap list_fmap fst] in Hnd. apply NoDup_cons in Hnd as [Hk0 Hnd].
  cbn [foldl]. rewrite (IH _ Hnd).
  replace (dict_get (store g c (k0, v0)) k)
    with (if decide (k = k0) then Some (g (dict_get c k0) v0)
          else dict_get c k)
    by (unfold store; cbn [fst snd]; by rewrite dict_get_set).
  replace (dict_get ((k0, v0) :: d) k)
    with (if decide (k = k0) then Some v0 else dict_get d k).
  2:{ unfold dict_get. cbn [find fst].
      destruct (decide (k = k0)) as [->|Hne].
      - by rewrite bool_decide_eq_true_2.
      - by rewrite bool_decide_eq_false_2. }
  destruct (decide (k = k0)) as [->|Hne]; [|done].
  by rewrite (dict_get_None d k0 Hk0).
Qed.

Lemma counter_update_store (counter d : TechDict) :
  counter_update counter d
  = foldl (store (λ o v, match counter with
                         | [] => v
                         | _ => F64.add v (default (F64.of_Z 0) o)
                         end)) counter d.
Proof. by destruct counter. Qed.

Lemma counter_update_keys (counter d : TechDict) :
  (counter_update counter d).*1 = foldl add_key (counter.*1) (d.*1).
Proof. rewrite counter_update_store. apply store_fold_keys. Qed.

Lemma sum_dict_from (c : TechDict) (list_dict : list TechDict) :
  NoDup (c.*1) →
  NoDup ((foldl counter_update c list_dict).*1) ∧
  ∀ k, k ∈ (foldl counter_update c list_dict).*1
       ↔ k ∈ c.*1 ∨ ∃ d, d ∈ list_dict ∧ k ∈ d.*1.
Proof.
  revert c. induction list_dict as [|d l IH]; intros c Hnd; cbn [foldl].
  - split; [done|]. intros k. split; [tauto|].
    intros [?|(d & Hd & _)]; [done|]. by apply elem_of_nil in Hd.
  - destruct (add_key_fold (c.*1) (d.*1) Hnd) as [Hnd' Hin'].
    rewrite <- counter_update_keys in Hnd', Hin'.
    destruct (IH _ Hnd') as [Hnd'' Hin'']. split; [done|].
    intros k. rewrite Hin'', Hin'. split.
    + intros [[?|?]|(d' & Hd' & ?)]; [by left|right..].
      * exists d. split; [left|done].
      * exists d'. split; [by right|done].
    + intros [?|(d' & [->|Hd']%elem_of_cons & ?)]; [tauto|tauto|].
      right. by exists d'.
Qed.

(** X7. [sum_dict] returns a dictionary whose keys are exactly the
    technologies that are a key of one of the given dictionaries, each
    once; a single dictionary is returned as it is. *)
Theorem sum_dict_keys (list_dict : list TechDict) :
  NoDup ((sum_dict list_dict).*1) ∧
  (∀ k, k ∈ (sum_dict list_dict).*1
        ↔ ∃ d, d ∈ list_dict ∧ k ∈ d.*1) ∧
  (∀ d k, NoDup (d.*1) → dict_get (sum_dict [d]) k = dict_get d k).
Proof.
  unfold sum_dict.
  destruct (sum_dict_from [] list_dict) as [Hnd Hin]; [constructor|].
  split; [done|]. split.
  - intros k. rewrite Hin. split; [|by right].
    intros [Hk|?]; [|done]. by apply elem_of_nil in Hk.
  - intros d k Hd. cbn [foldl]. rewrite counter_update_store.
    rewrite store_fold_get by done. by destruct (dict_get d k).
Qed.

Lemma sum_dict_snoc (l : list TechDict) (d : TechDict) :
  sum_dict (l ++ [d]) = counter_update (sum_dict l) d.
Proof. unfold sum_dict. by rewrite foldl_app. Qed.

Lemma counter_update_get (held new : TechDict) (k : TechnologyType) :
  NoDup (new.*1) →
  dict_get (counter_update held new) k = counted held new k.
Proof.
  intros Hnd. rewrite counter_update_store, store_fold_get by done.
  unfold counted. destruct (dict_get new k); [|done]. by destruct held.
Qed.

Lemma add_asset_aggregator_sum (get : AssetAggregator → TechDict)
    (self : Site) (asset_aggregator : AssetAggregator) :
  sum_dict (map get (list_asset_aggregator
                       (Site_add_asset_aggregator self asset_aggregator)))
  = counter_update (sum_dict (map get (list_asset_aggregator self)))
      (get asset_aggregator).
Proof.
  unfold Site_add_asset_aggregator. cbn [list_asset_aggregator].
  rewrite map_app. cbn [map]. apply sum_dict_snoc.
Qed.

(** X8. Adding an asset aggregator to a site counts its dictionaries
    into the site's [size_system], [capital_cost] and
    [annual_maintenance_cost]: under every technology of the aggregator
    the new figure is the aggregator's plus the one held before (plus 0
    when the technology is new; the aggregator's own figure as it is
    when the site held none at all), and every other technology keeps
    its figure. *)
Theorem add_asset_aggregator_totals (self : Site)
    (asset_aggregator : AssetAggregator) (k : TechnologyType) :
  NoDup ((agg_size_system asset_aggregator).*1) →
  NoDup ((agg_capital_cost asset_aggregator).*1) →
  NoDup ((agg_annual_maintenance_cost asset_aggregator).*1) →
  let site := Site_add_asset_aggregator self asset_aggregator in
  dict_get (Site_size_system site) k
  = counted (Site_size_system self) (agg_size_system asset_aggregator) k ∧
  dict_get (Site_capital_cost site) k
  = counted (Site_capital_cost self) (agg_capital_cost asset_aggregator) k ∧
  dict_get (Site_annual_maintenance_cost site) k
  = counted (Site_annual_maintenance_cost self)
      (agg_annual_maintenance_cost asset_aggregator) k.
Proof.
  intros Hs Hc Hm site. unfold site, Site_size_system, Site_capital_cost,
    Site_annual_maintenance_cost.
  rewrite !add_asset_aggregator_sum.
  by rewrite !counter_update_get.
Qed.

End DictFacts.

(** ** Site: import and export recombined *)

Section SiteMore.
Import DateTime Table Schema Protocols SiteM.
Context `{SiteSchema, TableLib}.

Lemma split_recombines (x : F64.t) :
  let a := if F64.ltb x (F64.of_Z 0) then F64.of_Z 0 else x in
  let b := F64.opp (if F64.ltb (F64.of_Z 0) x then F64.of_Z 0 else x) in
  F64.sub a b = x ∧
  F64.ltb a F64.zero = false ∧ F64.ltb b F64.zero = false ∧
  (F64.ltb F64.zero a && F64.ltb F64.zero b = false).
Proof.
  destruct x as [[]|[]| |[] m e]; vm_compute; done.
Qed.

(** X9. The import and export tables of [get_import_and_export_demand]
    recombine to the net demand they were split from: at every row,
    import minus export is the net demand again, bit for bit (a missing
    value stays missing, an infinite one infinite); neither figure is
    negative, and they are never both positive. *)
Theorem import_minus_export (self : Site) (ix : Index Timestamp)
    (c : Label) (vs : list F64.t) :
  ∃ imp exp,
    get_import_and_export_demand self (mk_DataFrame ix [(c, vs)])
    = Ok (mk_DataFrame ix [(IMPORT_ELECTRICITY_DEMAND, imp)],
          mk_DataFrame ix [(EXPORT_ELECTRICITY_DEMAND, exp)]) ∧
    zip_with F64.sub imp exp = vs ∧
    ∀ i a b, imp !! i = Some a → exp !! i = Some b →
      F64.ltb a F64.zero = false ∧ F64.ltb b F64.zero = false ∧
      (F64.ltb F64.zero a && F64.ltb F64.zero b = false).
Proof.
  do 2 eexists. split; [apply get_import_and_export_demand_column|]. split.
  - induction vs as [|x vs IH]; [done|]. cbn [map zip_with].
    rewrite IH. f_equal. apply split_recombines.
  - intros i a b. rewrite !list_lookup_fmap.
    destruct (vs !! i) as [x|]; [|done]. cbn [fmap option_fmap option_map].
    intros [= <-] [= <-]. apply split_recombines.
Qed.


(** [export_results] comes to the avoided import with whatever it has
    computed, and ends there. *)
Lemma export_results_raises (self : Site) :
  ∃ e, Site_export_results self = Raise e.
Proof.
  unfold Site_export_results.
  destruct (total_additional_demand self) as [add|]; [|by eauto].
  destruct (total_onsite_generation self) as [gen|]; [|by eauto].
  cbn [mbind Result_bind].
  destruct (broadcast_op F64.add _ _) as [total|]; [|by eauto].
  cbn [mbind Result_bind].
  destruct (broadcast_op F64.sub _ _) as [net|]; [|by eauto].
  cbn [mbind Result_bind].
  destruct (get_import_and_export_demand self net) as [[imp exp]|];
    [|by eauto].
  cbn [mbind Result_bind].
  rewrite get_avoided_electricity_import_raises. by eauto.
Qed.


End SiteMore.

(** ** Column labels through the table operations *)

Section Labels.
Import Table.
Context {A C : Type} `{EqDecision A, EqDecision C}.

Lemma zip_with_labels {X Y} (f : C * X → Y → X) (l : list (C * X))
    (l' : list Y) :
  length l' = length l →
  (zip_with (λ p w, (p.1, f p w)) l l').*1 = l.*1.
Proof.
  revert l'. induction l as [|p l IH]; intros [|w l'] Hl; try done.
  cbn. f_equal. apply IH. simpl in Hl. lia.
Qed.

Lemma broadcast_op_labels (op : F64.t → F64.t → F64.t)
    (df out : DataFrame A C) (arr : ndarray F64.t) :
  broadcast_op op df arr = Ok out →
  index out = index df ∧ column_labels out = column_labels df.
Proof.
  unfold broadcast_op, column_labels, shape1.
  destruct (decide _) as [[_ Hk]|_].
  { intros [= <-]. split; [done|]. cbn [columns].
    by apply (zip_with_labels (λ p ws, zip_with op p.2 ws)). }
  destruct (decide _) as [_|_].
  { destruct (nd_cols arr) as [|ws l]; [done|]. intros [= <-].
    split; [done|]. cbn [columns].
    induction (columns df) as [|p l' IH]; [done|]. cbn. by rewrite IH. }
  destruct (decide _) as [[Hk _]|_]; [|done].
  intros [= <-]. split; [done|]. cbn [columns].
  by apply (zip_with_labels
              (λ p ws, map (λ x, op x (default F64.nan (head ws))) p.2)).
Qed.

Lemma set_columns_one {C'} (df : DataFrame A C) (out : DataFrame A C')
    (c : C') :
  set_columns df [c] = Ok out →
  shape1 df = 1%nat ∧ index out = index df ∧
  ∃ vs, columns out = [(c, vs)].
Proof.
  unfold set_columns, shape1. destruct (decide _) as [Hk|]; [|done].
  intros [= <-]. split; [done|]. split; [done|]. cbn [columns].
  destruct (columns df) as [|[c0 vs] [|q l]]; try done. by exists vs.
Qed.

Lemma mapR_labels {X} (F : X → Result (list (C * list F64.t)))
    (L : X → list C) (l : list X) (cols : list (list (C * list F64.t))) :
  (∀ x c, F x = Ok c → c.*1 = L x) →
  mapR F l = Ok cols → (concat cols).*1 = concat (map L l).
Proof.
  intros HF. revert cols. induction l as [|x l IH]; intros cols; simpl.
  - by intros [= <-].
  - intros Hb. apply bind_Ok in Hb as (c & Hc & Hb).
    apply bind_Ok in Hb as (cs & Hcs & [= <-]).
    cbn [concat]. by rewrite fmap_app, (HF _ _ Hc), (IH _ Hcs).
Qed.

Lemma concat_axis1_labels `{RowAxis A} (frames : list (DataFrame A C))
    (out : DataFrame A C) :
  concat_axis1 frames = Ok out →
  column_labels out = concat (map column_labels frames).
Proof.
  unfold concat_axis1, column_labels.
  destruct frames as [|f fs]; [discriminate|].
  destruct (_ && _); [discriminate|]. cbv zeta. intros Hb.
  apply bind_Ok in Hb as (cols & Hcols & [= <-]). cbn [columns].
  eapply mapR_labels; [|exact Hcols].
  intros g c Hc. cbv beta in Hc.
  destruct (same_index _ _); [by injection Hc as <-|].
  destruct (has_duplicates _); [discriminate|]. injection Hc as <-.
  induction (columns g) as [|p l' IH']; [done|]. cbn. by rewrite IH'.
Qed.

End Labels.

(** ** Scenario: the columns of the result tables *)

Section ScenarioColumns.
Import DateTime Table Schema Protocols ScenarioM.
Context `{SiteSchema, TableLib} {M : Type} `{SiteModel M}.

Lemma priced_one_column (quantity : Result TimeTable) (rate : TimeTable)
    (label : Label) (out : TimeTable) :
  priced quantity rate label = Ok out → column_labels out = [label].
Proof.
  unfold priced. intros Hb.
  apply bind_Ok in Hb as (q & _ & Hb).
  apply bind_Ok in Hb as (dataf & _ & Hb).
  apply set_columns_one in Hb as (_ & _ & vs & Hvs).
  unfold column_labels. by rewrite Hvs.
Qed.

(** X12. When [update_results] returns, the scenario's
    [site_energy_demand] is what the site model's [export_results] gave,
    and the columns of [summary_results] are the columns of that table
    followed by import costs, export revenues, import savings, import
    emissions, site emissions displaced and total emissions displaced,
    in this order; the scenario's name, site model, prices and emission
    factor are left as they were. *)
Theorem update_results_columns (self updated : Scenario M) :
  update_results self = Ok updated →
  export_results (site_model self) = Ok (site_energy_demand updated) ∧
  column_labels (summary_results updated)
  = column_labels (site_energy_demand updated)
    ++ [IMPORT_ELECTRICITY_COSTS; EXPORT_ELECTRICITY_REVENUES;
        ELECTRICITY_SAVINGS; GHG_EMISSIONS_IMPORT_ELECTRICITY;
        SITE_GHG_EMISSIONS_DISPLACED; TOTAL_GHG_EMISSIONS_DISPLACED] ∧
  name updated = name self ∧
  site_model updated = site_model self ∧
  import_electricity_prices updated = import_electricity_prices self ∧
  export_electricity_prices updated = export_electricity_prices self ∧
  import_electricity_emission_factor updated
  = import_electricity_emission_factor self.
Proof.
  unfold update_results. intros Hb.
  apply bind_Ok in Hb as (demand & Hdemand & Hb).
  apply bind_Ok in Hb as (results & Hres & [= <-]).
  cbn [with_summary_results with_site_energy_demand site_energy_demand
       summary_results name site_model import_electricity_prices
       export_electricity_prices import_electricity_emission_factor].
  split; [done|]. split; [|done].
  unfold Scenario_export_results in Hres.
  apply bind_Ok in Hres as (cost & Hcost & Hres).
  apply bind_Ok in Hres as (em & Hem & Hres).
  apply bind_Ok in Hres as (sav_em & Hsav_em & Hres).
  apply bind_Ok in Hres as (tot_em & Htot_em & Hres).
  apply bind_Ok in Hres as (sav & Hsav & Hres).
  unfold calculate_electricity_operation_cost in Hcost.
  apply bind_Ok in Hcost as (ic & Hic & Hcost).
  apply bind_Ok in Hcost as (ec & Hec & Hcost).
  apply priced_one_column in Hic, Hec, Hem, Hsav_em, Htot_em, Hsav.
  apply concat_axis1_labels in Hcost, Hres.
  cbn [map concat] in Hcost, Hres.
  rewrite Hic, Hec in Hcost.
  rewrite Hcost, Hsav, Hem, Hsav_em, Htot_em in Hres.
  cbn [with_site_energy_demand site_energy_demand] in Hres.
  rewrite Hres. reflexivity.
Qed.

End ScenarioColumns.

(** ** Scenario: what the constructor needs and leaves *)

Section ScenarioInit.
Import DateTime Table Schema Protocols ScenarioM.
Context `{SiteSchema, TableLib} {M : Type} `{SiteModel M}.

Lemma flex_op_axis0_one_column (op : F64.t → F64.t → F64.t)
    (q : TimeTable) (arr : ndarray F64.t) :
  shape1 q = 1%nat → length (nd_cols arr) ≠ 1%nat →
  flex_op_axis0 op q arr = Raise ValueError.
Proof.
  intros Hq Harr. unfold flex_op_axis0. rewrite Hq.
  rewrite decide_False by (intros [_ ?]; done).
  rewrite decide_False by (intros [_ ?]; done).
  by rewrite decide_False by (intros [? _]; done).
Qed.

Lemma priced_needs_one_column (self : Scenario M) (col label : Label)
    (rate : TimeTable) :
  shape1 rate ≠ 1%nat →
  ∃ e, priced (demand_column self col) rate label = Raise e.
Proof.
  intros Hrate. unfold priced, demand_column.
  destruct (getitem _ col) as [vs|e]; [|by exists e].
  cbn [mbind Result_bind]. rewrite flex_op_axis0_one_column.
  - by eexists.
  - done.
  - unfold values. cbn [nd_cols]. by rewrite length_fmap.
Qed.

Lemma format_prices_other (self s1 : Scenario M) :
  format_site_import_electricity_prices self = Ok s1 →
  export_electricity_prices s1 = export_electricity_prices self ∧
  shape1 (import_electricity_prices s1)
  = shape1 (import_electricity_prices self).
Proof.
  unfold format_site_import_electricity_prices.
  destruct (decide _) as [Hk|]; [|by intros [= <-]].
  intros Hb. apply bind_Ok in Hb as (stamps & _ & Hb).
  apply bind_Ok in Hb as (prices & Hp & [= <-]).
  cbn [with_import_prices export_electricity_prices
       import_electricity_prices]. split; [done|].
  apply set_columns_one in Hp as (_ & _ & vs & Hvs).
  unfold shape1 in *. by rewrite Hvs, Hk.
Qed.

Lemma default_factor_other (s1 s2 : Scenario M) (value : F64.t) :
  set_default_import_electricity_emission_factor s1 value = Ok s2 →
  export_electricity_prices s2 = export_electricity_prices s1 ∧
  import_electricity_prices s2 = import_electricity_prices s1 ∧
  (len (import_electricity_emission_factor s1) ≠ 0%nat →
   import_electricity_emission_factor s2
   = import_electricity_emission_factor s1).
Proof.
  unfold set_default_import_electricity_emission_factor.
  destruct (decide _) as [Hk|]; [|by intros [= <-]].
  intros Hb. apply bind_Ok in Hb as (f1 & _ & Hb).
  apply bind_Ok in Hb as (f2 & _ & [= <-]). done.
Qed.

Lemma update_results_other (s3 s4 : Scenario M) :
  update_results s3 = Ok s4 →
  export_electricity_prices s4 = export_electricity_prices s3.
Proof.
  unfold update_results. intros Hb.
  apply bind_Ok in Hb as (d & _ & Hb).
  apply bind_Ok in Hb as (r & _ & [= <-]). done.
Qed.

(** X13. A scenario whose import-price table does not have exactly one
    column (the default empty table, or a table with several columns)
    cannot be constructed: the constructor only prints a warning in
    [format_site_import_electricity_prices], but then raises, at the
    latest in [update_results] when the import demand is multiplied by
    the prices. *)
Theorem post_init_needs_one_price_column (self : Scenario M) :
  shape1 (import_electricity_prices self) ≠ 1%nat →
  ∃ e, post_init self = Raise e.
Proof.
  intros Hk. unfold post_init.
  destruct (format_site_import_electricity_prices self) as [s1|e] eqn:E1;
    [|by exists e].
  apply format_prices_other in E1 as [_ Hk1]. rewrite <- Hk1 in Hk.
  cbn [mbind Result_bind].
  destruct (set_default_import_electricity_emission_factor s1 _)
    as [s2|e] eqn:E2; [|by exists e].
  apply default_factor_other in E2 as (_ & Hp2 & _). rewrite <- Hp2 in Hk.
  cbn [mbind Result_bind].
  destruct (set_default_export_electricity_prices s2 _) as [s3|e] eqn:E3;
    [|by exists e].
  apply default_export_keeps in E3 as [Hp3 _]. rewrite <- Hp3 in Hk.
  cbn [mbind Result_bind]. unfold update_results.
  destruct (export_results (site_model s3)) as [demand|e]; [|by exists e].
  cbn [mbind Result_bind].
  unfold Scenario_export_results, calculate_electricity_operation_cost,
    calculate_electricity_import_operation_cost, import_demand.
  destruct (priced_needs_one_column (with_site_energy_demand s3 demand)
              IMPORT_ELECTRICITY_DEMAND IMPORT_ELECTRICITY_COSTS
              (import_electricity_prices s3) Hk) as [e He].
  cbn [with_site_energy_demand import_electricity_prices] in *.
  rewrite He. by exists e.
Qed.

(** X14. After construction, a scenario that was given no export prices
    holds a one-column export-price table on the rows of its import
    prices with 0 in every row; export prices and emission factors that
    were given (a table with at least one row) are kept exactly as
    given: unlike the import prices they are neither relabelled nor
    moved to the site's time zone. *)
Theorem export_prices_after_init (self s' : Scenario M) :
  post_init self = Ok s' →
  (len (export_electricity_prices self) = 0%nat →
   export_electricity_prices s'
   = mk_DataFrame (index (import_electricity_prices s'))
       [(EXPORT_ELECTRICITY_REVENUES,
         replicate (len (import_electricity_prices s')) (F64.of_Z 0))]) ∧
  (len (export_electricity_prices self) ≠ 0%nat →
   export_electricity_prices s' = export_electricity_prices self) ∧
  (len (import_electricity_emission_factor self) ≠ 0%nat →
   import_electricity_emission_factor s'
   = import_electricity_emission_factor self).
Proof.
  unfold post_init. intros Hb.
  apply bind_Ok in Hb as (s1 & Hs1 & Hb).
  apply bind_Ok in Hb as (s2 & Hs2 & Hb).
  apply bind_Ok in Hb as (s3 & Hs3 & Hs4).
  pose proof (format_prices_keeps_factor _ _ Hs1) as Hf1.
  apply format_prices_other in Hs1 as [He1 _].
  apply default_factor_other in Hs2 as (He2 & Hp2 & Hf2).
  pose proof (update_results_keeps _ _ Hs4) as [Hp4 Hf4].
  apply update_results_other in Hs4 as He4.
  pose proof (default_export_keeps _ _ _ Hs3) as [Hp3 Hf3].
  rewrite He4, Hp4, Hp3, Hf4, Hf3.
  unfold set_default_export_electricity_prices in Hs3.
  split; [|split].
  - intros Hempty. rewrite decide_True in Hs3 by (by rewrite He2, He1).
    unfold copy, set_columns, shape1 in Hs3.
    cbn [get_multiindex_single_column get_multiindex_multiple_columns
         length] in Hs3.
    destruct (columns (import_electricity_prices s2))
      as [|[c vs] [|? ?]] eqn:Hc; simpl in Hs3; try done.
    by injection Hs3 as <-.
  - intros Hgiven. rewrite decide_False in Hs3 by (by rewrite He2, He1).
    injection Hs3 as <-. by rewrite He2, He1.
  - intros Hgiven. rewrite Hf2, Hf1; [done|]. by rewrite Hf1.
Qed.

End ScenarioInit.

(** ** Scenario: costs and emissions row by row *)

Section ScenarioRows.
Import DateTime Enums Table Schema Protocols ScenarioM.
Context `{SiteSchema, TableLib} {M : Type} `{SiteModel M}.

Lemma priced_rows (self : Scenario M) (col label c : Label)
    (rate : TimeTable) (vs ws : list F64.t) :
  getitem (site_energy_demand self) col = Ok vs →
  columns rate = [(c, ws)] →
  len rate = len (site_energy_demand self) →
  priced (demand_column self col) rate label
  = Ok (mk_DataFrame (index (site_energy_demand self))
          [(label, zip_with F64.mul vs ws)]).
Proof.
  intros Hget Hrate Hlen. unfold priced, demand_column.
  rewrite Hget. cbn [mbind Result_bind]. unfold copy, to_frame, values.
  rewrite Hrate. cbn [fmap list_fmap snd].
  rewrite flex_op_axis0_column by done.
  cbn [mbind Result_bind index columns map fst snd].
  reflexivity.
Qed.

(** X15. [Scenario.export_results], on a demand table that has the
    import, export, self-consumption and generation columns and with
    one-column price and emission-factor tables of as many rows, returns
    the demand table followed by six columns computed row by row, by
    position (the timestamps of the price and factor tables are not
    consulted): import × import price, export × export price,
    self-consumption × import price, import × factor,
    self-consumption × factor, generation × factor. *)
Theorem scenario_export_results_rows (self : Scenario M)
    (imp exp own gen pi pe pf : list F64.t) (ci ce cf : Label) :
  getitem (site_energy_demand self) IMPORT_ELECTRICITY_DEMAND = Ok imp →
  getitem (site_energy_demand self) EXPORT_ELECTRICITY_DEMAND = Ok exp →
  getitem (site_energy_demand self) SELF_CONSUMED_ELECTRICITY = Ok own →
  getitem (site_energy_demand self) ELECTRICITY_GENERATION = Ok gen →
  columns (import_electricity_prices self) = [(ci, pi)] →
  columns (export_electricity_prices self) = [(ce, pe)] →
  columns (import_electricity_emission_factor self) = [(cf, pf)] →
  len (import_electricity_prices self) = len (site_energy_demand self) →
  len (export_electricity_prices self) = len (site_energy_demand self) →
  len (import_electricity_emission_factor self)
  = len (site_energy_demand self) →
  Scenario_export_results self
  = Ok (mk_DataFrame (index (site_energy_demand self))
          (columns (site_energy_demand self)
           ++ [(IMPORT_ELECTRICITY_COSTS, zip_with F64.mul imp pi);
               (EXPORT_ELECTRICITY_REVENUES, zip_with F64.mul exp pe);
               (ELECTRICITY_SAVINGS, zip_with F64.mul own pi);
               (GHG_EMISSIONS_IMPORT_ELECTRICITY, zip_with F64.mul imp pf);
               (SITE_GHG_EMISSIONS_DISPLACED, zip_with F64.mul own pf);
               (TOTAL_GHG_EMISSIONS_DISPLACED, zip_with F64.mul gen pf)])).
Proof.
  intros Himp Hexp Hown Hgen Hpi Hpe Hpf Hli Hle Hlf.
  unfold Scenario_export_results, calculate_electricity_operation_cost,
    calculate_electricity_import_operation_cost,
    calculate_electricity_export_operation_cost,
    calculate_electricity_associated_emissions,
    calculate_site_electricity_avoided_emissions,
    calculate_total_electricity_avoided_emissions,
    calculate_electricity_import_savings,
    import_demand, export_demand, avoided_import, onsite_generation.
  rewrite (priced_rows self _ _ ci _ imp pi Himp Hpi Hli).
  rewrite (priced_rows self _ _ ce _ exp pe Hexp Hpe Hle).
  rewrite (priced_rows self _ _ cf _ imp pf Himp Hpf Hlf).
  rewrite (priced_rows self _ _ cf _ own pf Hown Hpf Hlf).
  rewrite (priced_rows self _ _ cf _ gen pf Hgen Hpf Hlf).
  rewrite (priced_rows self _ _ ci _ own pi Hown Hpi Hli).
  cbn [mbind Result_bind].
  rewrite concat_axis1_aligned.
  2:{ intros g Hg. repeat (apply elem_of_cons in Hg as [->|Hg]); try done.
      by apply elem_of_nil in Hg. }
  cbn [mbind Result_bind].
  etrans; [apply concat_axis1_aligned|reflexivity].
  intros g Hg. repeat (apply elem_of_cons in Hg as [->|Hg]); try done.
  by apply elem_of_nil in Hg.
Qed.

End ScenarioRows.

(** ** Scenario: the rows written by label *)

Section RowsByLabel.
Import Table Schema ScenarioM.

Lemma filter_no_key (l : list (Label * F64.t)) (r : Label) :
  r ∉ l.*1 → filter (λ p, p.1 = r) l = [].
Proof.
  induction l as [|[k x] l IH]; [done|]. cbn [fmap list_fmap fst].
  intros [Hne Hr]%not_elem_of_cons.
  rewrite filter_cons_False by (simpl; congruence). by apply IH.
Qed.

Lemma filter_unique_key (l : list (Label * F64.t)) (r : Label) (v : F64.t) :
  NoDup (l.*1) → (r, v) ∈ l → filter (λ p, p.1 = r) l = [(r, v)].
Proof.
  induction l as [|[k x] l IH]; intros Hnd Hin.
  - by apply elem_of_nil in Hin.
  - cbn [fmap list_fmap fst] in Hnd. apply NoDup_cons in Hnd as [Hk Hnd].
    apply elem_of_cons in Hin as [[= <- <-]|Hin].
    + rewrite filter_cons_True by done. f_equal. by apply filter_no_key.
    + rewrite filter_cons_False; [by apply IH|].
      simpl. intros ->. apply Hk. apply list_elem_of_fmap. by exists (r, v).
Qed.

Lemma upsert_keys (l : list (Label * F64.t)) (r : Label) (v : F64.t) :
  (upsert l r v).*1 = if bool_decide (r ∈ l.*1) then l.*1 else l.*1 ++ [r].
Proof.
  unfold upsert. destruct (bool_decide _).
  - induction l as [|p l IH]; [done|]. cbn [map fmap list_fmap].
    rewrite IH. by destruct (decide (p.1 = r)).
  - by rewrite fmap_app.
Qed.

Lemma upsert_NoDup (l : list (Label * F64.t)) (r : Label) (v : F64.t) :
  NoDup (l.*1) → NoDup ((upsert l r v).*1).
Proof.
  intros Hnd. rewrite upsert_keys. case_bool_decide as Hr; [done|].
  apply NoDup_app. split; [done|]. split; [|apply NoDup_singleton].
  intros k Hk ->%list_elem_of_singleton. done.
Qed.

Lemma upsert_elem_other (l : list (Label * F64.t)) (r c : Label)
    (v x : F64.t) :
  c ≠ r → (c, x) ∈ l → (c, x) ∈ upsert l r v.
Proof.
  intros Hne (j & Hj)%list_elem_of_lookup.
  apply list_elem_of_lookup. exists j. by apply upsert_lookup_other.
Qed.

Lemma upsert_elem_same (l : list (Label * F64.t)) (r : Label) (v : F64.t) :
  (r, v) ∈ upsert l r v.
Proof.
  destruct (upsert_same l r v) as [Hin Hval].
  apply list_elem_of_fmap in Hin as ([k x] & Hk & Hp).
  simpl in Hk. subst k. pose proof (Hval _ Hp eq_refl) as Hx.
  simpl in Hx. by subst x.
Qed.

Lemma summary_rows_keys (n : string) (s : Summary) :
  one_column n s → (summary_rows s).*1 = labels (index s).
Proof.
  intros (vs & Hc & Hlen). unfold summary_rows. rewrite Hc.
  by apply fst_zip_labels.
Qed.

Lemma loc_get_cell_row (n : string) (s : Summary) (r : Label) (v : F64.t) :
  one_column n s → NoDup (labels (index s)) →
  (r, v) ∈ summary_rows s →
  loc_get_cell s r n = Ok v.
Proof.
  intros Hone Hnd Hin. rewrite <- (summary_rows_keys n s Hone) in Hnd.
  destruct Hone as (vs & Hc & Hlen). unfold summary_rows in *.
  rewrite Hc in *. unfold loc_get_cell, getitem. rewrite Hc.
  rewrite filter_cons_True by done. rewrite filter_nil.
  cbn [mbind Result_bind]. by rewrite (filter_unique_key _ r v).
Qed.

Lemma loc_get_cell_missing (n : string) (s : Summary) (r : Label) :
  one_column n s → r ∉ labels (index s) →
  loc_get_cell s r n = Raise KeyError.
Proof.
  intros Hone Hr. rewrite <- (summary_rows_keys n s Hone) in Hr.
  destruct Hone as (vs & Hc & Hlen). unfold summary_rows in *.
  rewrite Hc in *. unfold loc_get_cell, getitem. rewrite Hc.
  rewrite filter_cons_True by done. rewrite filter_nil.
  cbn [mbind Result_bind]. by rewrite filter_no_key.
Qed.

End RowsByLabel.

Section Opex.
Import DateTime Enums Table Schema Protocols ScenarioM.
Context `{SiteSchema, TableLib} {M : Type} `{SiteModel M}.

(** X16. [calculate_total_opex] on a one-column report without
    repeated row labels: the OPEX row (added when the report has none)
    becomes the sum of the site model's annual maintenance costs, plus
    the report's import-cost row, minus its export-revenue row, and
    every other row keeps its figure; when the report has no
    import-cost row the call raises [KeyError]. *)
Theorem total_opex_row (self : Scenario M) (summary : Summary) :
  one_column (name self) summary →
  NoDup (labels (index summary)) →
  OPEX ≠ IMPORT_ELECTRICITY_COSTS →
  OPEX ≠ EXPORT_ELECTRICITY_REVENUES →
  (∀ b c,
     (IMPORT_ELECTRICITY_COSTS, b) ∈ summary_rows summary →
     (EXPORT_ELECTRICITY_REVENUES, c) ∈ summary_rows summary →
     ∃ out, calculate_total_opex self summary = Ok out ∧
       row_value (summary_rows out) OPEX
         (F64.sub
            (F64.add
               (py_sum ((annual_maintenance_cost (site_model self)).*2)) b)
            c) ∧
       ∀ r v, r ≠ OPEX → row_value (summary_rows summary) r v →
              row_value (summary_rows out) r v) ∧
  (IMPORT_ELECTRICITY_COSTS ∉ labels (index summary) →
   calculate_total_opex self summary = Raise KeyError).
Proof.
  intros Hone Hnd Hic Her.
  set (v0 := py_sum ((annual_maintenance_cost (site_model self)).*2)).
  destruct (loc_set_cell_upsert (name self) summary OPEX v0 Hone)
    as [Hone1 Hrows1].
  assert (NoDup (labels (index (loc_set_cell summary OPEX (name self) v0))))
    as Hnd1.
  { rewrite <- (summary_rows_keys _ _ Hone1), Hrows1.
    apply upsert_NoDup. by rewrite (summary_rows_keys _ _ Hone). }
  assert (loc_get_cell (loc_set_cell summary OPEX (name self) v0) OPEX
            (name self) = Ok v0) as Ha.
  { apply loc_get_cell_row; [done..|]. rewrite Hrows1.
    apply upsert_elem_same. }
  split.
  - intros b c Hb Hc.
    assert (loc_get_cell (loc_set_cell summary OPEX (name self) v0)
              IMPORT_ELECTRICITY_COSTS (name self) = Ok b) as Hb'.
    { apply loc_get_cell_row; [done..|]. rewrite Hrows1.
      by apply upsert_elem_other. }
    assert (loc_get_cell (loc_set_cell summary OPEX (name self) v0)
              EXPORT_ELECTRICITY_REVENUES (name self) = Ok c) as Hc'.
    { apply loc_get_cell_row; [done..|]. rewrite Hrows1.
      by apply upsert_elem_other. }
    assert (calculate_total_opex self summary
            = Ok (loc_set_cell (loc_set_cell summary OPEX (name self) v0)
                    OPEX (name self) (F64.sub (F64.add v0 b) c))) as Hout.
    { unfold calculate_total_opex, get_col_name.
      cbn [get_multiindex_single_column get_multiindex_multiple_columns
           mbind Result_bind]. fold v0.
      rewrite Ha. cbn [mbind Result_bind].
      rewrite Hb'. cbn [mbind Result_bind].
      rewrite Hc'. reflexivity. }
    eexists. split; [exact Hout|].
    destruct (loc_set_cell_upsert (name self) _ OPEX
                (F64.sub (F64.add v0 b) c) Hone1) as [_ Hrows2].
    split.
    + rewrite Hrows2. apply upsert_same.
    + by apply (calculate_total_opex_rows self summary _ Hone Hout).
  - intros Hmissing.
    assert (loc_get_cell (loc_set_cell summary OPEX (name self) v0)
              IMPORT_ELECTRICITY_COSTS (name self) = Raise KeyError) as Hb'.
    { apply loc_get_cell_missing; [done|].
      rewrite <- (summary_rows_keys _ _ Hone1), Hrows1, upsert_keys.
      rewrite (summary_rows_keys _ _ Hone).
      case_bool_decide; [done|].
      intros [?|?%list_elem_of_singleton]%elem_of_app; done. }
    unfold calculate_total_opex, get_col_name.
    cbn [get_multiindex_single_column get_multiindex_multiple_columns
         mbind Result_bind]. fold v0.
    rewrite Ha. cbn [mbind Result_bind]. by rewrite Hb'.
Qed.

End Opex.

Section TechnologyRows.
Import DateTime Enums Table Schema Protocols ScenarioM.
Context `{SiteSchema, TableLib} {M : Type} `{SiteModel M}.

Lemma tech_label_inj (t t' : TechnologyType) (col_name : Label) :
  tech_label t col_name = tech_label t' col_name → t = t'.
Proof.
  unfold tech_label. intros [= Heq].
  destruct t, t'; first [done | discriminate Heq].
Qed.

Lemma tech_label_fresh (t : TechnologyType) (d : TechDict)
    (col_name : Label) :
  t ∉ d.*1 → tech_label t col_name ∉ tech_labels d col_name.
Proof.
  intros Ht Hin. apply Ht. unfold tech_labels in Hin.
  apply list_elem_of_In, in_map_iff in Hin as (p & Heq & Hp).
  apply tech_label_inj in Heq. subst t.
  apply list_elem_of_fmap. exists p. split; [done|].
  by apply list_elem_of_In.
Qed.

Lemma overlay_by_technology_values (self : Scenario M) (d : TechDict)
    (col_name : Label) (s : Summary) (t : TechnologyType) (v : F64.t) :
  one_column (name self) s → NoDup (d.*1) → (t, v) ∈ d →
  row_value (summary_rows (overlay_by_technology self d col_name s))
    (tech_label t col_name) v.
Proof.
  revert s. induction d as [|[t0 w0] d IH]; intros s Hone Hnd Hin.
  - by apply elem_of_nil in Hin.
  - cbn [fmap list_fmap fst] in Hnd. apply NoDup_cons in Hnd as [Ht0 Hnd].
    destruct (loc_set_cell_upsert (name self) s (tech_label t0 col_name)
                w0 Hone) as [Hone1 Hrows1].
    change (overlay_by_technology self ((t0, w0) :: d) col_name s)
      with (overlay_by_technology self d col_name
              (loc_set_cell s (tech_label t0 col_name) (name self) w0)).
    apply elem_of_cons in Hin as [[= -> ->]|Hin].
    + destruct (overlay_by_technology_rows self d col_name _ Hone1)
        as (_ & Hval & _).
      apply Hval; [by apply tech_label_fresh|].
      rewrite Hrows1. apply upsert_same.
    + by apply IH.
Qed.

(** X17. After [get_capex_by_technology], the report has, for every
    technology of the site model's [capital_cost], a row labelled with
    the technology's name, an underscore and the CAPEX label, holding
    that technology's capital cost; [get_capacity_by_technology] does
    the same with [size_system] under the capacity label.  Rows under
    other labels keep their figures. *)
Theorem technology_rows (self : Scenario M) (summary : Summary) :
  one_column (name self) summary →
  NoDup ((capital_cost (site_model self)).*1) →
  NoDup ((size_system (site_model self)).*1) →
  (∀ t v, (t, v) ∈ capital_cost (site_model self) →
     row_value (summary_rows (get_capex_by_technology self summary))
       (TechnologyType_name t +:+ "_" +:+ CAPEX.1, CAPEX.2) v) ∧
  (∀ t v, (t, v) ∈ size_system (site_model self) →
     row_value (summary_rows (get_capacity_by_technology self summary))
       (TechnologyType_name t +:+ "_" +:+ CAPACITY_INSTALLED.1,
        CAPACITY_INSTALLED.2) v) ∧
  (∀ r v, r ∉ tech_labels (capital_cost (site_model self)) CAPEX →
     row_value (summary_rows summary) r v →
     row_value (summary_rows (get_capex_by_technology self summary)) r v) ∧
  (∀ r v,
     r ∉ tech_labels (size_system (site_model self)) CAPACITY_INSTALLED →
     row_value (summary_rows summary) r v →
     row_value (summary_rows (get_capacity_by_technology self summary))
       r v).
Proof.
  intros Hone Hc Hs. unfold get_capex_by_technology,
    get_capacity_by_technology.
  split; [|split; [|split]].
  - intros t v Hin.
    by apply (overlay_by_technology_values self _ CAPEX summary t v).
  - intros t v Hin.
    by apply (overlay_by_technology_values self _ CAPACITY_INSTALLED
                summary t v).
  - by destruct (overlay_by_technology_rows self
                   (capital_cost (site_model self)) CAPEX _ Hone)
      as (_ & Hval & _).
  - by destruct (overlay_by_technology_rows self
                   (size_system (site_model self)) CAPACITY_INSTALLED _
                   Hone) as (_ & Hval & _).
Qed.

End TechnologyRows.

Section SummaryReturns.
Import DateTime Enums Table Schema Protocols ScenarioM.
Context `{SiteSchema, TableLib} {M : Type} `{SiteModel M}.

(** A report in good shape: one column under the scenario's name, no
    row label twice. *)
Lemma loc_set_cell_keeps (n : string) (s : Summary) (r : Label)
    (v : F64.t) :
  one_column n s ∧ NoDup (labels (index s)) →
  (one_column n (loc_set_cell s r n v) ∧
   NoDup (labels (index (loc_set_cell s r n v)))) ∧
  r ∈ labels (index (loc_set_cell s r n v)) ∧
  ∀ k, k ∈ labels (index s) → k ∈ labels (index (loc_set_cell s r n v)).
Proof.
  intros [Hone Hnd].
  destruct (loc_set_cell_upsert n s r v Hone) as [Hone1 Hrows1].
  rewrite <- (summary_rows_keys _ _ Hone1), Hrows1.
  rewrite <- (summary_rows_keys _ _ Hone) in Hnd |- *.
  split; [split; [done|by apply upsert_NoDup]|].
  rewrite upsert_keys. case_bool_decide as Hr.
  - split; [done|]. done.
  - split; [apply elem_of_app; right; by left|].
    intros k Hk. apply elem_of_app. by left.
Qed.

Lemma overlay_by_technology_keeps (self : Scenario M) (d : TechDict)
    (col_name : Label) (s : Summary) :
  one_column (name self) s ∧ NoDup (labels (index s)) →
  (one_column (name self) (overlay_by_technology self d col_name s) ∧
   NoDup (labels (index (overlay_by_technology self d col_name s)))) ∧
  ∀ k, k ∈ labels (index s) →
       k ∈ labels (index (overlay_by_technology self d col_name s)).
Proof.
  revert s. induction d as [|[t w] d IH]; intros s Hs; [done|].
  change (overlay_by_technology self ((t, w) :: d) col_name s)
    with (overlay_by_technology self d col_name
            (loc_set_cell s (tech_label t col_name) (name self) w)).
  destruct (loc_set_cell_keeps (name self) s (tech_label t col_name) w Hs)
    as (Hs1 & _ & Hsub1).
  destruct (IH _ Hs1) as [Hs2 Hsub2]. split; [done|]. auto.
Qed.

Lemma loc_get_cell_present (n : string) (s : Summary) (r : Label) :
  one_column n s ∧ NoDup (labels (index s)) →
  r ∈ labels (index s) → ∃ v, loc_get_cell s r n = Ok v.
Proof.
  intros [Hone Hnd] Hr.
  rewrite <- (summary_rows_keys _ _ Hone) in Hr.
  apply list_elem_of_fmap in Hr as ([k v] & -> & Hin).
  exists v. by apply loc_get_cell_row.
Qed.

Lemma calculate_total_opex_returns (self : Scenario M) (s : Summary) :
  one_column (name self) s ∧ NoDup (labels (index s)) →
  IMPORT_ELECTRICITY_COSTS ∈ labels (index s) →
  EXPORT_ELECTRICITY_REVENUES ∈ labels (index s) →
  ∃ out, calculate_total_opex self s = Ok out ∧
    (one_column (name self) out ∧ NoDup (labels (index out))) ∧
    OPEX ∈ labels (index out) ∧
    ∀ k, k ∈ labels (index s) → k ∈ labels (index out).
Proof.
  intros Hs Hic Her.
  set (v0 := py_sum ((annual_maintenance_cost (site_model self)).*2)).
  destruct (loc_set_cell_keeps (name self) s OPEX v0 Hs)
    as (Hs1 & Hopex & Hsub1).
  destruct (loc_get_cell_present _ _ OPEX Hs1 Hopex) as [a Ha].
  destruct (loc_get_cell_present _ _ IMPORT_ELECTRICITY_COSTS Hs1
              (Hsub1 _ Hic)) as [b Hb].
  destruct (loc_get_cell_present _ _ EXPORT_ELECTRICITY_REVENUES Hs1
              (Hsub1 _ Her)) as [c Hc].
  destruct (loc_set_cell_keeps (name self) _ OPEX
              (F64.sub (F64.add a b) c) Hs1) as (Hs2 & Hopex2 & Hsub2).
  eexists. split; [|split; [exact Hs2|split; [exact Hopex2|auto]]].
  unfold calculate_total_opex, get_col_name.
  cbn [get_multiindex_single_column get_multiindex_multiple_columns
       mbind Result_bind]. fold v0.
  rewrite Ha. cbn [mbind Result_bind].
  rewrite Hb. cbn [mbind Result_bind].
  rewrite Hc. reflexivity.
Qed.

(** X23. [get_summary_results] returns whenever the scenario's cached
    demand has one import and one export column and its per-timestep
    results have no column label twice and include the import-cost and
    export-revenue columns.  The report then is one column named after
    the scenario, without repeated row labels, with a row for each
    column of the per-timestep results and the rows for the two peaks
    and for OPEX. *)
Theorem get_summary_results_returns (self : Scenario M)
    (imp exp : list F64.t) :
  getitem (site_energy_demand self) IMPORT_ELECTRICITY_DEMAND = Ok imp →
  getitem (site_energy_demand self) EXPORT_ELECTRICITY_DEMAND = Ok exp →
  NoDup (column_labels (summary_results self)) →
  IMPORT_ELECTRICITY_COSTS ∈ column_labels (summary_results self) →
  EXPORT_ELECTRICITY_REVENUES ∈ column_labels (summary_results self) →
  ∃ summary,
    get_summary_results self = Ok summary ∧
    one_column (name self) summary ∧
    NoDup (labels (index summary)) ∧
    (∀ k, k ∈ column_labels (summary_results self) →
          k ∈ labels (index summary)) ∧
    PEAK_ELECTRICITY_IMPORT ∈ labels (index summary) ∧
    PEAK_ELECTRICITY_EXPORT ∈ labels (index summary) ∧
    OPEX ∈ labels (index summary).
Proof.
  intros Himp Hexp Hnd Hic Her.
  destruct (summed_rows self) as [Hone0 _].
  assert (one_column (name self) (summed self) ∧
          NoDup (labels (index (summed self)))) as Hs0 by done.
  set (pi := F64.mul (col_max imp) (F64.of_Z 2)).
  set (pe := F64.mul (col_max exp) (F64.of_Z 2)).
  destruct (loc_set_cell_keeps (name self) _ PEAK_ELECTRICITY_IMPORT pi Hs0)
    as (Hs1 & Hpi1 & Hsub1).
  destruct (loc_set_cell_keeps (name self) _ PEAK_ELECTRICITY_EXPORT pe Hs1)
    as (Hs2 & Hpe2 & Hsub2).
  destruct (overlay_by_technology_keeps self
              (capital_cost (site_model self)) CAPEX _ Hs2)
    as [Hs3 Hsub3].
  destruct (calculate_total_opex_returns self _ Hs3)
    as (s4 & Hopex & Hs4 & Hopex4 & Hsub4).
  { apply Hsub3, Hsub2, Hsub1. exact Hic. }
  { apply Hsub3, Hsub2, Hsub1. exact Her. }
  destruct (overlay_by_technology_keeps self
              (size_system (site_model self)) CAPACITY_INSTALLED _ Hs4)
    as [[Hone5 Hnd5] Hsub5].
  eexists. split.
  - unfold get_summary_results, get_col_name, import_demand, export_demand,
      demand_column.
    cbn [get_multiindex_single_column get_multiindex_multiple_columns
         mbind Result_bind].
    rewrite Himp, Hexp. cbn [mbind Result_bind peak_of copy to_frame columns].
    fold pi pe. unfold get_capex_by_technology. rewrite Hopex.
    reflexivity.
  - unfold get_capacity_by_technology.
    split; [done|]. split; [done|].
    split; [intros k Hk; apply Hsub5, Hsub4, Hsub3, Hsub2, Hsub1; exact Hk|].
    split; [apply Hsub5, Hsub4, Hsub3, Hsub2; exact Hpi1|].
    split; [apply Hsub5, Hsub4, Hsub3; exact Hpe2|].
    apply Hsub5. exact Hopex4.
Qed.

End SummaryReturns.

(** ** Comparison: the order of the columns and the cells *)

Lemma mapR_Forall2 {A B} (f : A → Result B) (l : list A) (ys : list B) :
  mapR f l = Ok ys → Forall2 (λ x y, f x = Ok y) l ys.
Proof.
  revert ys. induction l as [|x l IH]; intros ys; simpl.
  - intros [= <-]. constructor.
  - intros Hb. apply bind_Ok in Hb as (y & Hy & Hb).
    apply bind_Ok in Hb as (ys' & Hys & [= <-]). constructor; auto.
Qed.

Lemma filter_key_NoDup {K V} `{EqDecision K} (l : list (K * V)) (c : K) :
  NoDup (l.*1) → c ∈ l.*1 → ∃ v, filter (λ p, p.1 = c) l = [(c, v)].
Proof.
  induction l as [|[k x] l IH]; intros Hnd Hin.
  - by apply elem_of_nil in Hin.
  - cbn [fmap list_fmap fst] in Hnd, Hin.
    apply NoDup_cons in Hnd as [Hk Hnd].
    destruct (decide (k = c)) as [->|Hne].
    + exists x. rewrite filter_cons_True by done. f_equal.
      clear IH Hin Hnd. induction l as [|[k' x'] l IH]; [done|].
      cbn [fmap list_fmap fst] in Hk.
      apply not_elem_of_cons in Hk as [Hne Hk].
      rewrite filter_cons_False by (simpl; congruence). by apply IH.
    + apply elem_of_cons in Hin as [?|Hin]; [congruence|].
      rewrite filter_cons_False by done. by apply IH.
Qed.

Lemma string_le_total : Total Comparison.string_le.
Proof. intros a b. apply String.leb_total. Qed.

Section ComparisonColumns.
Import DateTime Enums Table Schema Protocols ScenarioM Comparison.
Context `{SiteSchema, TableLib} {M : Type} `{SiteModel M}.

Lemma select_columns_labels (df out : DataFrame Label string)
    (cols : list string) :
  NoDup (column_labels df) →
  (∀ c, c ∈ cols → c ∈ column_labels df) →
  select_columns df cols = Ok out →
  column_labels out = cols.
Proof.
  unfold select_columns, column_labels. intros Hnd Hall Hb.
  apply bind_Ok in Hb as (picked & Hp & [= <-]). cbn [columns].
  apply mapR_Forall2 in Hp. clear -Hnd Hall Hp.
  induction Hp as [|c ps cols picked Hc _ IH]; [done|].
  cbn [concat]. rewrite fmap_app, IH by (intros; apply Hall; by right).
  destruct (filter_key_NoDup (columns df) c Hnd) as [v Hv];
    [apply Hall; by left|].
  rewrite Hv in Hc. by injection Hc as <-.
Qed.

Lemma summary_frames_labels (l : list (Scenario M))
    (frames : list Summary) :
  Forall2 (λ s f, get_summary_results s = Ok f) l frames →
  concat (map column_labels frames) = map name l.
Proof.
  induction 1 as [|s f l frames Hs _ IH]; [done|].
  cbn [map concat]. rewrite IH.
  destruct (get_summary_results_one_column _ _ Hs) as (vs & Hvs & _).
  unfold column_labels. by rewrite Hvs.
Qed.

(** X18. With scenarios under pairwise different names,
    [ScenarioComparison.summary_results] returns one column per compared
    scenario, the columns standing in ascending order of the scenario
    names whatever the order of the scenarios in the list;
    [comparison_results] returns its columns under the same labels in
    the same order.  With an empty list of scenarios both raise
    [ValueError]. *)
Theorem comparison_columns_sorted (cmp : ScenarioComparison M) :
  NoDup (map name (list_scenarios cmp)) →
  (∀ t, Comparison_summary_results cmp = Ok t ∨
        comparison_results cmp = Ok t →
     column_labels t = sorted (map name (list_scenarios cmp)) ∧
     Sorted string_le (column_labels t) ∧
     column_labels t ≡ₚ map name (list_scenarios cmp)) ∧
  (list_scenarios cmp = [] →
   Comparison_summary_results cmp = Raise ValueError ∧
   ∃ e, comparison_results cmp = Raise e).
Proof.
  intros Hnd.
  assert (∀ t, Comparison_summary_results cmp = Ok t →
               column_labels t = sorted (map name (list_scenarios cmp)))
    as Hsum.
  { intros t. unfold Comparison_summary_results. intros Hb.
    apply bind_Ok in Hb as (frames & Hframes & Hb).
    apply bind_Ok in Hb as (table & Htab & Hsel).
    apply mapR_Forall2, summary_frames_labels in Hframes.
    apply concat_axis1_labels in Htab.
    unfold Summary in *. rewrite Hframes in Htab.
    rewrite Htab in Hsel.
    apply select_columns_labels in Hsel; [done|by rewrite Htab|].
    intros c Hc. rewrite Htab. unfold sorted in Hc.
    by rewrite merge_sort_Permutation in Hc. }
  split.
  - intros t Ht.
    assert (column_labels t = sorted (map name (list_scenarios cmp))) as ->.
    { destruct Ht as [Ht|Ht]; [by apply Hsum|].
      unfold comparison_results in Ht.
      apply bind_Ok in Ht as (g & _ & Ht).
      apply bind_Ok in Ht as (table & Htab & Ht).
      apply bind_Ok in Ht as (diff & Hdiff & Ht).
      apply broadcast_op_labels in Ht as [_ ->].
      apply broadcast_op_labels in Hdiff as [_ ->].
      by apply Hsum. }
    split; [done|]. unfold sorted. split.
    + apply (@Sorted_merge_sort _ string_le _ string_le_total).
    + apply merge_sort_Permutation.
  - intros Hempty. unfold comparison_results, Comparison_summary_results.
    rewrite Hempty. cbn [mapR mbind Result_bind concat_axis1].
    split; [done|].
    destruct (get_summary_results (reference_scenario cmp)); by eexists.
Qed.

(** X19. With scenarios under pairwise different names that all
    report the metric rows of the reference in the same order, when
    [comparison_results] returns there is, for every compared scenario,
    a column under its name, and each such column holds at every row
    (the scenario's figure minus the reference's figure) divided by the
    reference's figure. *)
Theorem comparison_cells (cmp : ScenarioComparison M) (t : Summary)
    (s : Scenario M) :
  (∀ s1 s2, s1 ∈ list_scenarios cmp → s2 ∈ list_scenarios cmp →
            name s1 = name s2 → s1 = s2) →
  (∀ s f g, s ∈ list_scenarios cmp →
            get_summary_results s = Ok f →
            get_summary_results (reference_scenario cmp) = Ok g →
            labels (index f) = labels (index g)) →
  comparison_results cmp = Ok t →
  s ∈ list_scenarios cmp →
  ∃ f g,
    get_summary_results s = Ok f ∧
    get_summary_results (reference_scenario cmp) = Ok g ∧
    (∃ vs, (name s, vs) ∈ columns t) ∧
    ∀ vs, (name s, vs) ∈ columns t →
      ∀ i r x y, summary_rows f !! i = Some (r, x) →
                 summary_rows g !! i = Some (r, y) →
                 vs !! i = Some (F64.div (F64.sub x y) y).
Proof.
  intros Hnames Hrows. unfold comparison_results, Summary in *.
  intros Hb Hs. apply bind_Ok in Hb as (g & Hg & Hb).
  apply bind_Ok in Hb as (table & Htab & Hb).
  pose proof (get_summary_results_one_column _ _ Hg) as (ws & Hws & Hwlen).
  assert (values g = mk_ndarray (len g) [ws]) as Hval.
  { unfold values. by rewrite Hws. }
  unfold Comparison_summary_results in Htab.
  apply bind_Ok in Htab as (frames & Hframes & Htab).
  apply bind_Ok in Htab as (cat & Hcat & Hsel).
  destruct (mapR_lookup _ _ _ Hframes) as [Hflen Hfrow].
  assert (∀ f, f ∈ frames → ∃ s, s ∈ list_scenarios cmp ∧
                                  get_summary_results s = Ok f) as Hfrom.
  { intros f (i & Hi)%list_elem_of_lookup.
    destruct (lookup_lt_is_Some_2 (list_scenarios cmp) i) as [s' Hs'].
    { rewrite <- Hflen. by eapply lookup_lt_Some. }
    destruct (Hfrow _ _ Hs') as (f' & Hf' & Hsf).
    assert (Some f' = Some f) as [= ->]
      by (etrans; [symmetry; exact Hf'|exact Hi]).
    exists s'. split; [by eapply list_elem_of_lookup_2|done]. }
  assert (∃ f, f ∈ frames ∧ get_summary_results s = Ok f) as (f & Hf & Hsf).
  { apply list_elem_of_lookup in Hs as [i Hi].
    destruct (Hfrow _ _ Hi) as (f & Hf & Hsf).
    exists f. split; [by eapply list_elem_of_lookup_2|done]. }
  exists f, g. split; [done|]. split; [done|].
  destruct frames as [|f0 fs]; [by apply elem_of_nil in Hf|].
  assert (∀ f, f ∈ f0 :: fs → labels (index f) = labels (index g)) as Hlab.
  { intros f' (s' & Hs' & Hsf')%Hfrom. by eapply Hrows. }
  assert (∀ f, f ∈ f0 :: fs → index f = index g) as Hsame.
  { intros f' Hf'. destruct (Hfrom f' Hf') as (s' & _ & Hsf').
    destruct (get_summary_results_axis _ _ Hsf') as [Htz Hnm].
    destruct (get_summary_results_axis _ _ Hg) as [Htz' Hnm'].
    apply index_eq; [by apply Hlab|congruence..]. }
  rewrite concat_axis1_aligned in Hcat.
  2:{ intros f' Hf'. rewrite (Hsame f'), (Hsame f0); [done|by left|by right]. }
  injection Hcat as <-.
  destruct (select_columns_spec _ _ _ Hsel) as (Hix & Hsub & Hhas).
  cbn [index columns] in Hix, Hsub.
  change (columns f0 ++ concat (map columns fs))
    with (concat (map columns (f0 :: fs))) in *.
  assert (len table = len g) as Hlen.
  { unfold len. rewrite Hix. by rewrite (Hlab f0) by left. }
  pose proof (get_summary_results_one_column _ _ Hsf) as (vs0 & Hvs0 & _).
  assert (∀ p, p ∈ columns table → p.1 = name s → p.2 = vs0) as Hown.
  { intros p Hp Hname. apply Hsub in Hp.
    apply elem_of_concat in Hp as (cols & Hp & Hcols).
    apply list_elem_of_fmap in Hcols as (f' & -> & Hf').
    destruct (Hfrom f' Hf') as (s' & Hs' & Hsf').
    destruct (get_summary_results_one_column _ _ Hsf') as (vs' & Hvs' & _).
    rewrite Hvs' in Hp. apply list_elem_of_singleton in Hp. subst p.
    simpl in Hname. rewrite (Hnames s' s Hs' Hs Hname) in Hsf'.
    assert (Ok f' = Ok f) as [= ->]
      by (etrans; [symmetry; exact Hsf'|exact Hsf]).
    simpl. assert ([(name s', vs')] = [(name s, vs0)])
      as [= _ ->] by (etrans; [symmetry; exact Hvs'|exact Hvs0]).
    done. }
  rewrite Hval in Hb.
  rewrite broadcast_op_column in Hb by done. cbn [mbind Result_bind] in Hb.
  rewrite broadcast_op_column in Hb by done. injection Hb as <-.
  cbn [columns]. rewrite map_map. cbn [fst snd]. split.
  - destruct (Hhas (name s)) as (p & Hp & Hpn).
    { apply sorted_elem. unfold column_labels. cbn [columns].
      apply list_elem_of_fmap. exists (name s, vs0).
      split; [done|]. apply elem_of_concat. exists [(name s, vs0)].
      split; [by left|]. apply list_elem_of_fmap. exists f.
      split; done. }
    eexists. apply list_elem_of_fmap. exists p. split; [|done].
    by rewrite Hpn.
  - intros vs (p & [= Hpn ->] & Hp)%list_elem_of_fmap i r x y Hi Hj.
    rewrite (Hown p Hp) by done.
    unfold summary_rows in Hi, Hj. rewrite Hvs0 in Hi. rewrite Hws in Hj.
    apply lookup_zip_with_Some in Hi as (r1 & x' & [= <- <-] & _ & Hx).
    apply lookup_zip_with_Some in Hj as (r2 & y' & [= _ <-] & _ & Hy).
    rewrite !lookup_zip_with, Hx. cbn [mbind option_bind].
    rewrite Hy. reflexivity.
Qed.

End ComparisonColumns.

(** ** Dummy data: the half-hour grid of a year and its prices *)

Section AnnualGrid.
Import DateTime Table Schema DummyData.
Context `{SiteSchema}.

Lemma year_length (y : Z) :
  days_from_civil y 12 31 - days_from_civil y 1 1
  = if is_leap_year y then 365 else 364.
Proof.
  unfold days_from_civil, is_leap_year. simpl.
  destruct (Z.eqb_spec (y `mod` 4) 0) as [H4|H4];
    destruct (Z.eqb_spec (y `mod` 100) 0) as [H100|H100];
    destruct (Z.eqb_spec (y `mod` 400) 0) as [H400|H400]; simpl;
    Z.div_mod_to_equations; lia.
Qed.

Lemma stamp_time (d i : Z) :
  0 ≤ i →
  ts_time (d * us_per_day + i * half_hour)
  = time_hms ((i `mod` 48) `div` 2) (30 * (i `mod` 2)) 0.
Proof.
  intros Hi.
  unfold ts_time, ts_hour, ts_minute, ts_second, ts_microsecond, ts_in_day,
    time_hms, half_hour, us_per_day, us_per_hour, us_per_minute,
    us_per_second.
  f_equal; Z.div_mod_to_equations; lia.
Qed.

Lemma date_range_lookup (start end_ freq : Z) (i : nat) (t : Timestamp) :
  date_range start end_ freq !! i = Some t → t = start + Z.of_nat i * freq.
Proof.
  unfold date_range. rewrite list_lookup_fmap.
  destruct (seqZ 0 _ !! i) as [k|] eqn:Hk; [|done].
  apply lookup_seqZ in Hk as [-> _]. intros [= <-]. lia.
Qed.

Lemma annual_timesteps_length (year : Z) :
  length (date_range (datetime year 1 1 0 0 0)
            (datetime year 12 31 23 59 59) half_hour)
  = Z.to_nat (48 * (if is_leap_year year then 366 else 365)).
Proof.
  unfold date_range. rewrite length_map, length_seqZ. f_equal.
  pose proof (year_length year) as Hy.
  unfold datetime, half_hour, us_per_day, us_per_hour, us_per_minute,
    us_per_second.
  destruct (is_leap_year year); Z.div_mod_to_equations; lia.
Qed.

(** X20. For a year that nanosecond stamps cover (1678 to 2261),
    [generate_annual_timesteps] returns a UTC index of 48 stamps for each
    day of the year (17520, or 17568 in a leap year); the stamp at
    position [i] is 1 January 00:00:00 plus [i] half-hours, so its time
    of day is the half-hour [i mod 48] of the day, seconds zero. *)
Theorem annual_timesteps_grid (year : Z) :
  1678 ≤ year ≤ 2261 →
  ∃ ts, generate_annual_timesteps year = Ok ts ∧
    tzinfo ts = Some "UTC" ∧
    length (labels ts)
    = Z.to_nat (48 * (if is_leap_year year then 366 else 365)) ∧
    ∀ (i : nat) t, labels ts !! i = Some t →
      t = datetime year 1 1 0 0 0 + Z.of_nat i * half_hour ∧
      ts_time t = time_hms ((Z.of_nat i `mod` 48) `div` 2) (30 * (Z.of_nat i `mod` 2)) 0.
Proof.
  intros Hy. unfold generate_annual_timesteps.
  assert ((1 <=? year) && (year <=? 9999) = true) as ->.
  { apply andb_true_iff. split; apply Z.leb_le; lia. }
  eexists. split; [done|]. cbn [tzinfo labels]. split; [done|].
  split; [apply annual_timesteps_length|].
  intros i t Ht. apply date_range_lookup in Ht. split; [done|].
  rewrite Ht. unfold datetime.
  replace (days_from_civil year 1 1 * us_per_day + 0 * us_per_hour
           + 0 * us_per_minute + 0 * us_per_second + Z.of_nat i * half_hour)
    with (days_from_civil year 1 1 * us_per_day + Z.of_nat i * half_hour) by lia.
  apply stamp_time. lia.
Qed.

Lemma scan_half_hours (h : Z) :
  0 ≤ h < 48 →
  scan_bands dummy_duos_values (time_hms (h `div` 2) (30 * (h `mod` 2)) 0)
  = Some (if h <? 12 then F64.add green_default night_default
          else if h <? 32 then F64.add amber_default day_default
          else if h <=? 40 then F64.add red_default day_default
          else F64.add green_default day_default).
Proof.
  intros Hh.
  assert (forallb (λ h,
            bool_decide
              (scan_bands dummy_duos_values
                 (time_hms (h `div` 2) (30 * (h `mod` 2)) 0)
               = Some (if h <? 12 then F64.add green_default night_default
                       else if h <? 32
                            then F64.add amber_default day_default
                       else if h <=? 40
                            then F64.add red_default day_default
                       else F64.add green_default day_default)))
            (seqZ 0 48) = true) as Hall by (vm_compute; reflexivity).
  rewrite forallb_forall in Hall.
  apply (bool_decide_eq_true_1 _), (Hall h).
  apply list_elem_of_In, elem_of_seqZ. lia.
Qed.

(** X21. For a year from 1678 to 2261, [generate_dummy_price_profile]
    leaves no stamp without a price: it returns one price per stamp of
    the year, and the price at position [i] depends on the half-hour
    [i mod 48] of the day only: green + night before 06:00, amber + day
    from 06:00 to 15:30, red + day from 16:00 to 20:00, and green + day
    from 20:30 on.  The stamps at 06:00, 16:00 and 20:00 lie in two
    bands and get the rate of the band declared first. *)
Theorem price_profile_by_half_hour (year : Z) :
  1678 ≤ year ≤ 2261 →
  ∃ ts prices,
    generate_annual_timesteps year = Ok ts ∧
    generate_dummy_price_profile year
    = Ok (mk_DataFrame ts [(IMPORT_ELECTRICITY_PRICES, prices)]) ∧
    length prices = length (labels ts) ∧
    ∀ (i : nat), (i < length prices)%nat →
      ∃ p, prices !! i = Some p ∧ F64.is_nan p = false ∧
        p = (if Z.of_nat i `mod` 48 <? 12
             then F64.add green_default night_default
             else if Z.of_nat i `mod` 48 <? 32
                  then F64.add amber_default day_default
             else if Z.of_nat i `mod` 48 <=? 40
                  then F64.add red_default day_default
             else F64.add green_default day_default).
Proof.
  intros Hy. unfold generate_dummy_price_profile, generate_annual_timesteps.
  assert ((1 <=? year) && (year <=? 9999) = true) as ->.
  { apply andb_true_iff. split; apply Z.leb_le; lia. }
  cbn [mbind Result_bind].
  set (ts := mk_Index _ (Some "UTC") None).
  exists ts. eexists. split; [done|].
  rewrite price_loop; [|by rewrite length_replicate|done].
  split; [done|].
  assert (length (zip_with (priced_at (labels ts)) (labels ts)
                    (replicate (length (labels ts)) F64.nan))
          = length (labels ts)) as Hlen
    by (rewrite length_zip_with, length_replicate; lia).
  split; [done|]. rewrite Hlen. intros i Hi.
  destruct (lookup_lt_is_Some_2 (labels ts) i Hi) as [t Ht].
  rewrite (zip_with_replicate_lookup _ _ _ _ _ Ht).
  unfold priced_at.
  rewrite bool_decide_eq_true_2 by (by eapply list_elem_of_lookup_2).
  pose proof Ht as Ht'. unfold ts in Ht'. cbn [labels] in Ht'.
  apply date_range_lookup in Ht'. rewrite Ht'. unfold datetime.
  replace (days_from_civil year 1 1 * us_per_day + 0 * us_per_hour
           + 0 * us_per_minute + 0 * us_per_second + Z.of_nat i * half_hour)
    with (days_from_civil year 1 1 * us_per_day + Z.of_nat i * half_hour) by lia.
  rewrite stamp_time by lia.
  replace (Z.of_nat i `mod` 2) with ((Z.of_nat i `mod` 48) `mod` 2)
    by (Z.div_mod_to_equations; lia).
  rewrite scan_half_hours by (apply Z.mod_pos_bound; lia).
  eexists. split; [reflexivity|]. split; [|reflexivity].
  repeat match goal with
         | |- context [if ?b then _ else _] => destruct b
         end; reflexivity.
Qed.

End AnnualGrid.

(** ** The further properties on the small site *)

Section MoreInstances.
Import DateTime Enums Table Schema Functions Schedule DummyData Protocols
  SiteM ScenarioM Comparison Examples.
#[local] Existing Instance spec_schema.
#[local] Existing Instance plain_lib.

Lemma get_filter_rows_witness :
  ∃ filt,
    get_filter (mk_OccupancySchedule (Some default_occupancy) HALFHOUR)
      calendar_rows = Ok filt ∧
    length filt = length calendar_rows ∧
    ∀ i r x, calendar_rows !! i = Some r → [16; 15; 16] !! i = Some x →
      ∃ b, filt !! i = Some b ∧
           (b = true ↔
            ∃ day hours s e, (day, hours) ∈ default_occupancy ∧
              (s, e) ∈ hours ∧ f_DAYOFWEEK r = day ∧ s ≤ x ≤ e).
Proof.
  apply (get_filter_rows default_occupancy HALFHOUR calendar_rows
           [16; 15; 16]).
  reflexivity.
Defined.

(** Of the three calendar rows only Monday 08:00 is occupied. *)
Example filter_calendar_rows :
  get_filter default_schedule calendar_rows = Ok [true; false; false] ∧
  filter_df default_schedule calendar_rows true = Ok (take 1 calendar_rows) ∧
  filter_df default_schedule calendar_rows false
  = Ok (drop 1 calendar_rows).
Proof. repeat split. Qed.

Lemma add_asset_aggregator_totals_witness :
  dict_get (Site_size_system (Site_add_asset_aggregator small_site ev)) EV
  = counted (Site_size_system small_site) (agg_size_system ev) EV ∧
  dict_get (Site_capital_cost (Site_add_asset_aggregator small_site ev)) EV
  = counted (Site_capital_cost small_site) (agg_capital_cost ev) EV ∧
  dict_get (Site_annual_maintenance_cost
              (Site_add_asset_aggregator small_site ev)) EV
  = counted (Site_annual_maintenance_cost small_site)
      (agg_annual_maintenance_cost ev) EV.
Proof.
  apply (add_asset_aggregator_totals small_site ev EV);
    apply (bool_decide_unpack _); vm_compute; exact I.
Defined.

(** Photovoltaics twice and a charger: the capacities under PV add up
    (the second one to the first: 3 + 3), the charger's 7 has 0 added. *)
Example sum_dict_small :
  sum_dict [agg_size_system pv; agg_size_system ev; agg_size_system pv]
  = [(PV, F64.of_Z 6); (EV, F64.of_Z 7)].
Proof. vm_compute. reflexivity. Qed.


(** With assets the site fares no better. *)
Example site_with_assets_raises :
  ∃ e, Site_export_results (Site_add_asset_aggregator small_site ev)
       = Raise e.
Proof. apply export_results_raises. Qed.

Lemma update_results_columns_witness :
  export_results (site_model small_scenario)
  = Ok (site_energy_demand small_scenario) ∧
  column_labels (summary_results small_scenario)
  = column_labels (site_energy_demand small_scenario)
    ++ [IMPORT_ELECTRICITY_COSTS; EXPORT_ELECTRICITY_REVENUES;
        ELECTRICITY_SAVINGS; GHG_EMISSIONS_IMPORT_ELECTRICITY;
        SITE_GHG_EMISSIONS_DISPLACED; TOTAL_GHG_EMISSIONS_DISPLACED] ∧
  name small_scenario = name small_scenario ∧
  site_model small_scenario = site_model small_scenario ∧
  import_electricity_prices small_scenario
  = import_electricity_prices small_scenario ∧
  export_electricity_prices small_scenario
  = export_electricity_prices small_scenario ∧
  import_electricity_emission_factor small_scenario
  = import_electricity_emission_factor small_scenario.
Proof.
  apply (update_results_columns small_scenario small_scenario).
  vm_compute. reflexivity.
Defined.

Lemma post_init_needs_one_price_column_witness :
  ∃ e, post_init unpriced_scenario = Raise e.
Proof.
  apply (post_init_needs_one_price_column unpriced_scenario).
  vm_compute. discriminate.
Defined.

(** Without prices the constructor fails with [ValueError], when the
    default emission factor is to take the prices' single column. *)
Example unpriced_scenario_raises :
  post_init unpriced_scenario = Raise ValueError.
Proof. vm_compute. reflexivity. Qed.

Lemma export_prices_after_init_witness :
  (len (export_electricity_prices raw_scenario) = 0%nat →
   export_electricity_prices small_scenario
   = mk_DataFrame (index (import_electricity_prices small_scenario))
       [(EXPORT_ELECTRICITY_REVENUES,
         replicate (len (import_electricity_prices small_scenario))
           (F64.of_Z 0))]) ∧
  (len (export_electricity_prices raw_scenario) ≠ 0%nat →
   export_electricity_prices small_scenario
   = export_electricity_prices raw_scenario) ∧
  (len (import_electricity_emission_factor raw_scenario) ≠ 0%nat →
   import_electricity_emission_factor small_scenario
   = import_electricity_emission_factor raw_scenario).
Proof.
  apply (export_prices_after_init raw_scenario small_scenario).
  vm_compute. reflexivity.
Defined.

Lemma scenario_export_results_rows_witness :
  ∃ imp exp own gen pi pe pf,
    Scenario_export_results small_scenario
    = Ok (mk_DataFrame (index (site_energy_demand small_scenario))
            (columns (site_energy_demand small_scenario)
             ++ [(IMPORT_ELECTRICITY_COSTS, zip_with F64.mul imp pi);
                 (EXPORT_ELECTRICITY_REVENUES, zip_with F64.mul exp pe);
                 (ELECTRICITY_SAVINGS, zip_with F64.mul own pi);
                 (GHG_EMISSIONS_IMPORT_ELECTRICITY,
                  zip_with F64.mul imp pf);
                 (SITE_GHG_EMISSIONS_DISPLACED, zip_with F64.mul own pf);
                 (TOTAL_GHG_EMISSIONS_DISPLACED,
                  zip_with F64.mul gen pf)])).
Proof.
  do 7 eexists.
  apply (scenario_export_results_rows small_scenario _ _ _ _ _ _ _
           IMPORT_ELECTRICITY_PRICES EXPORT_ELECTRICITY_REVENUES
           GHG_INTENSITY_IMPORT_ELECTRICITY);
    reflexivity.
Defined.

Lemma total_opex_row_witness :
  (∀ b c,
     (IMPORT_ELECTRICITY_COSTS, b) ∈ summary_rows small_summary →
     (EXPORT_ELECTRICITY_REVENUES, c) ∈ summary_rows small_summary →
     ∃ out, calculate_total_opex small_scenario small_summary = Ok out ∧
       row_value (summary_rows out) OPEX
         (F64.sub
            (F64.add
               (py_sum
                  ((annual_maintenance_cost (site_model small_scenario)).*2))
               b) c) ∧
       ∀ r v, r ≠ OPEX → row_value (summary_rows small_summary) r v →
              row_value (summary_rows out) r v) ∧
  (IMPORT_ELECTRICITY_COSTS ∉ labels (index small_summary) →
   calculate_total_opex small_scenario small_summary = Raise KeyError).
Proof.
  apply (total_opex_row small_scenario small_summary).
  - eexists. split; reflexivity.
  - apply (bool_decide_unpack _). vm_compute. exact I.
  - discriminate.
  - discriminate.
Defined.

Lemma technology_rows_witness :
  (∀ t v, (t, v) ∈ capital_cost (site_model small_scenario) →
     row_value
       (summary_rows (get_capex_by_technology small_scenario small_summary))
       (TechnologyType_name t +:+ "_" +:+ CAPEX.1, CAPEX.2) v) ∧
  (∀ t v, (t, v) ∈ size_system (site_model small_scenario) →
     row_value
       (summary_rows
          (get_capacity_by_technology small_scenario small_summary))
       (TechnologyType_name t +:+ "_" +:+ CAPACITY_INSTALLED.1,
        CAPACITY_INSTALLED.2) v) ∧
  (∀ r v,
     r ∉ tech_labels (capital_cost (site_model small_scenario)) CAPEX →
     row_value (summary_rows small_summary) r v →
     row_value
       (summary_rows (get_capex_by_technology small_scenario small_summary))
       r v) ∧
  (∀ r v,
     r ∉ tech_labels (size_system (site_model small_scenario))
           CAPACITY_INSTALLED →
     row_value (summary_rows small_summary) r v →
     row_value
       (summary_rows
          (get_capacity_by_technology small_scenario small_summary)) r v).
Proof.
  apply (technology_rows small_scenario small_summary).
  - eexists. split; reflexivity.
  - apply (bool_decide_unpack _). vm_compute. exact I.
  - apply (bool_decide_unpack _). vm_compute. exact I.
Defined.

Lemma get_summary_results_returns_witness :
  ∃ summary,
    get_summary_results small_scenario = Ok summary ∧
    one_column (name small_scenario) summary ∧
    NoDup (labels (index summary)) ∧
    (∀ k, k ∈ column_labels (summary_results small_scenario) →
          k ∈ labels (index summary)) ∧
    PEAK_ELECTRICITY_IMPORT ∈ labels (index summary) ∧
    PEAK_ELECTRICITY_EXPORT ∈ labels (index summary) ∧
    OPEX ∈ labels (index summary).
Proof.
  apply (get_summary_results_returns small_scenario
           (map F64.of_Z [0; 3; 4])
           [F64.of_Z 5; F64.opp F64.zero; F64.opp F64.zero]).
  - vm_compute. reflexivity.
  - vm_compute. reflexivity.
  - apply (bool_decide_unpack _). vm_compute. exact I.
  - apply (bool_decide_unpack _). vm_compute. exact I.
  - apply (bool_decide_unpack _). vm_compute. exact I.
Defined.

Lemma comparison_columns_sorted_witness :
  (∀ t,
     Comparison_summary_results
       (mk_ScenarioComparison pv_then_ev [ev_then_pv; pv_then_ev]) = Ok t ∨
     comparison_results
       (mk_ScenarioComparison pv_then_ev [ev_then_pv; pv_then_ev]) = Ok t →
     column_labels t = sorted (map name [ev_then_pv; pv_then_ev]) ∧
     Sorted string_le (column_labels t) ∧
     column_labels t ≡ₚ map name [ev_then_pv; pv_then_ev]) ∧
  (list_scenarios
     (mk_ScenarioComparison pv_then_ev [ev_then_pv; pv_then_ev]) = [] →
   Comparison_summary_results
     (mk_ScenarioComparison pv_then_ev [ev_then_pv; pv_then_ev])
   = Raise ValueError ∧
   ∃ e, comparison_results
          (mk_ScenarioComparison pv_then_ev [ev_then_pv; pv_then_ev])
        = Raise e).
Proof.
  apply (comparison_columns_sorted
           (mk_ScenarioComparison pv_then_ev [ev_then_pv; pv_then_ev])).
  apply (bool_decide_unpack _). vm_compute. exact I.
Defined.

(** Listed as "b", "a", the two scenarios come out as "a", "b". *)
Example comparison_columns_small :
  (t ← Comparison_summary_results
         (mk_ScenarioComparison pv_then_ev [ev_then_pv; pv_then_ev]);
   Ok (column_labels t))
  = Ok ["a"; "b"].
Proof. vm_compute. reflexivity. Qed.

Lemma comparison_cells_witness :
  ∃ f g,
    get_summary_results small_scenario = Ok f ∧
    get_summary_results (reference_scenario self_comparison) = Ok g ∧
    (∃ vs, (name small_scenario, vs) ∈ columns self_comparison_table) ∧
    ∀ vs, (name small_scenario, vs) ∈ columns self_comparison_table →
      ∀ i r x y, summary_rows f !! i = Some (r, x) →
                 summary_rows g !! i = Some (r, y) →
                 vs !! i = Some (F64.div (F64.sub x y) y).
Proof.
  apply (comparison_cells self_comparison self_comparison_table
           small_scenario).
  - intros s1 s2 Hs1 Hs2 _.
    apply list_elem_of_singleton in Hs1, Hs2. by subst.
  - intros s f g Hs Hf Hg. apply list_elem_of_singleton in Hs. subst s.
    assert (Ok f = Ok g) as [= ->] by (etrans; [symmetry; exact Hf|exact Hg]).
    reflexivity.
  - vm_compute. reflexivity.
  - left.
Defined.

Lemma annual_timesteps_grid_witness :
  ∃ ts, generate_annual_timesteps 2024 = Ok ts ∧
    tzinfo ts = Some "UTC" ∧
    length (labels ts)
    = Z.to_nat (48 * (if is_leap_year 2024 then 366 else 365)) ∧
    ∀ (i : nat) t, labels ts !! i = Some t →
      t = datetime 2024 1 1 0 0 0 + Z.of_nat i * half_hour ∧
      ts_time t
      = time_hms ((Z.of_nat i `mod` 48) `div` 2)
          (30 * (Z.of_nat i `mod` 2)) 0.
Proof. apply (annual_timesteps_grid 2024). lia. Defined.

Lemma price_profile_by_half_hour_witness :
  ∃ ts prices,
    generate_annual_timesteps 2024 = Ok ts ∧
    generate_dummy_price_profile 2024
    = Ok (mk_DataFrame ts [(IMPORT_ELECTRICITY_PRICES, prices)]) ∧
    length prices = length (labels ts) ∧
    ∀ (i : nat), (i < length prices)%nat →
      ∃ p, prices !! i = Some p ∧ F64.is_nan p = false ∧
        p = (if Z.of_nat i `mod` 48 <? 12
             then F64.add green_default night_default
             else if Z.of_nat i `mod` 48 <? 32
                  then F64.add amber_default day_default
             else if Z.of_nat i `mod` 48 <=? 40
                  then F64.add red_default day_default
             else F64.add green_default day_default).
Proof. apply (price_profile_by_half_hour 2024). lia. Defined.

End MoreInstances.
